(** * AgentMail SMTP demo server: session engine, authentication pipeline
      and error taxonomy

    A shallow embedding of the TypeScript sources
    - [src/auth/errors.ts], [src/auth/validator.ts]
    - [src/errors/mapping.ts], [src/errors/http-to-smtp-mapping.ts]
    - [src/session/session-state.ts], [src/session/session-manager.ts]
    - [src/server.ts]
    and the properties of the design document that concern them.

    Conventions.  JavaScript [Date] values are their time value in
    milliseconds ([Z]); [undefined]/[null] in an optional field is [None];
    the [Map] of live sessions is a [gmap]; the [Logger] calls write to the
    console only and are left out. *)

From Stdlib Require Import ZArith Ascii String List Bool Lia.
From stdpp Require Import base decidable option list strings gmap pretty.

Local Open Scope string_scope.
Local Open Scope Z_scope.

(* ===================================================================== *)
(** * [src/errors/mapping.ts] *)
(* ===================================================================== *)

Module Mapping.

(** [enum SMTPErrorCode]: the numeric members the hooks use. *)
Module SMTPErrorCode.
Definition SERVICE_UNAVAILABLE : Z := 421.
Definition MAILBOX_TEMP_UNAVAILABLE : Z := 450.
Definition LOCAL_ERROR : Z := 451.
Definition INSUFFICIENT_STORAGE : Z := 452.
Definition TEMP_AUTH_FAILURE : Z := 454.
Definition BAD_SEQUENCE : Z := 503.
Definition AUTH_REQUIRED : Z := 530.
Definition AUTH_FAILED : Z := 535.
Definition MAILBOX_NOT_FOUND : Z := 550.
End SMTPErrorCode.

(** [interface SMTPError extends Error] *)
Record SMTPError := {
  message : string;
  responseCode : Z;
  enhancedCode : string
}.

#[global] Instance SMTPError_eq_dec : EqDecision SMTPError.
Proof. solve_decision. Defined.

Definition createSMTPError (code : Z) (enhanced : string) (msg : string)
  : SMTPError :=
  {| message := pretty code +:+ " " +:+ enhanced +:+ " " +:+ msg;
     responseCode := code;
     enhancedCode := enhanced |}.

Record HTTPStatus := {
  status : Z;
  error : string;
  retryable : bool
}.

Definition http (s : Z) (e : string) (r : bool) : HTTPStatus :=
  {| status := s; error := e; retryable := r |}.

Definition SMTP_TO_HTTP : gmap Z HTTPStatus :=
  list_to_map [
    (220, http 200 "" false);
    (221, http 200 "" false);
    (235, http 200 "" false);
    (250, http 200 "" false);
    (354, http 100 "" false);
    (421, http 503 "Service unavailable" true);
    (450, http 429 "Rate limited" true);
    (451, http 500 "Internal server error" true);
    (452, http 507 "Insufficient storage" true);
    (454, http 503 "TLS unavailable" true);
    (500, http 400 "Bad request - syntax error" false);
    (501, http 400 "Bad request - invalid parameters" false);
    (502, http 501 "Not implemented" false);
    (503, http 400 "Bad request - wrong sequence" false);
    (521, http 403 "Server does not accept mail" false);
    (530, http 401 "Authentication required" false);
    (534, http 403 "Authentication too weak" false);
    (535, http 401 "Authentication failed" false);
    (538, http 403 "Encryption required" false);
    (550, http 404 "Mailbox not found" false);
    (551, http 404 "User not local" false);
    (552, http 413 "Message too large" false);
    (553, http 400 "Invalid mailbox name" false);
    (554, http 422 "Transaction failed" false);
    (556, http 404 "Recipient rejected" false)
  ].

(** [SMTP_TO_HTTP[code] || { status: 500, ... retryable: true }] *)
Definition mapFromSMTPCode (code : Z) : HTTPStatus :=
  default (http 500 "Unknown error" true) (SMTP_TO_HTTP !! code).

Definition formatSMTPResponse (code : Z) (enhanced msg : string) : string :=
  pretty code +:+ " " +:+ enhanced +:+ " " +:+ msg.

End Mapping.

(* ===================================================================== *)
(** * [src/auth/errors.ts] *)
(* ===================================================================== *)

Module AuthErrors.

Inductive AuthErrorCode :=
| INVALID_API_KEY_FORMAT
| API_KEY_NOT_FOUND
| API_KEY_REVOKED
| API_KEY_EXPIRED
| INVALID_INBOX_ID_FORMAT
| INBOX_NOT_FOUND
| INBOX_DISABLED
| INBOX_SUSPENDED
| INBOX_ORG_MISMATCH
| INSUFFICIENT_PERMISSIONS
| DATABASE_ERROR
| RATE_LIMITED
| SERVICE_UNAVAILABLE.

#[global] Instance AuthErrorCode_eq_dec : EqDecision AuthErrorCode.
Proof. solve_decision. Defined.

(** [type AuthErrorDefinition = Omit<AuthError, 'logMessage'>] *)
Record AuthErrorDefinition := {
  def_code : AuthErrorCode;
  def_smtpCode : Z;
  def_enhancedCode : string;
  def_message : string
}.

Record AuthError := {
  code : AuthErrorCode;
  smtpCode : Z;
  enhancedCode : string;
  message : string;
  logMessage : string
}.

Definition AUTH_ERRORS (c : AuthErrorCode) : AuthErrorDefinition :=
  match c with
  | INVALID_API_KEY_FORMAT =>
      {| def_code := INVALID_API_KEY_FORMAT; def_smtpCode := 535;
         def_enhancedCode := "5.7.8";
         def_message := "Authentication credentials invalid" |}
  | API_KEY_NOT_FOUND =>
      {| def_code := API_KEY_NOT_FOUND; def_smtpCode := 535;
         def_enhancedCode := "5.7.8";
         def_message := "Authentication credentials invalid" |}
  | API_KEY_REVOKED =>
      {| def_code := API_KEY_REVOKED; def_smtpCode := 535;
         def_enhancedCode := "5.7.8";
         def_message := "Authentication credentials invalid" |}
  | API_KEY_EXPIRED =>
      {| def_code := API_KEY_EXPIRED; def_smtpCode := 535;
         def_enhancedCode := "5.7.8";
         def_message := "Authentication credentials invalid" |}
  | INVALID_INBOX_ID_FORMAT =>
      {| def_code := INVALID_INBOX_ID_FORMAT; def_smtpCode := 535;
         def_enhancedCode := "5.7.8";
         def_message := "Authentication credentials invalid" |}
  | INBOX_NOT_FOUND =>
      {| def_code := INBOX_NOT_FOUND; def_smtpCode := 535;
         def_enhancedCode := "5.7.8";
         def_message := "Authentication credentials invalid" |}
  | INBOX_DISABLED =>
      {| def_code := INBOX_DISABLED; def_smtpCode := 535;
         def_enhancedCode := "5.7.8";
         def_message := "Authentication credentials invalid" |}
  | INBOX_SUSPENDED =>
      {| def_code := INBOX_SUSPENDED; def_smtpCode := 535;
         def_enhancedCode := "5.7.8";
         def_message := "Account suspended - contact support" |}
  | INBOX_ORG_MISMATCH =>
      {| def_code := INBOX_ORG_MISMATCH; def_smtpCode := 535;
         def_enhancedCode := "5.7.8";
         def_message := "Authentication credentials invalid" |}
  | INSUFFICIENT_PERMISSIONS =>
      {| def_code := INSUFFICIENT_PERMISSIONS; def_smtpCode := 535;
         def_enhancedCode := "5.7.8";
         def_message := "Insufficient permissions for SMTP access" |}
  | DATABASE_ERROR =>
      {| def_code := DATABASE_ERROR; def_smtpCode := 454;
         def_enhancedCode := "4.7.0";
         def_message := "Temporary authentication failure, please retry" |}
  | RATE_LIMITED =>
      {| def_code := RATE_LIMITED; def_smtpCode := 454;
         def_enhancedCode := "4.7.0";
         def_message := "Too many authentication attempts, please retry later" |}
  | SERVICE_UNAVAILABLE =>
      {| def_code := SERVICE_UNAVAILABLE; def_smtpCode := 454;
         def_enhancedCode := "4.7.0";
         def_message := "Authentication service temporarily unavailable" |}
  end.

(** [{ ...definition, logMessage }] *)
Definition createAuthError (errorCode : AuthErrorCode) (log : string)
  : AuthError :=
  let definition := AUTH_ERRORS errorCode in
  {| code := def_code definition;
     smtpCode := def_smtpCode definition;
     enhancedCode := def_enhancedCode definition;
     message := def_message definition;
     logMessage := log |}.

(** What reaches the client: status, subcode and client message. *)
Definition client_tuple (c : AuthErrorCode) : Z * string * string :=
  let d := AUTH_ERRORS c in
  (def_smtpCode d, def_enhancedCode d, def_message d).

Definition generic_tuple : Z * string * string :=
  (535, "5.7.8", "Authentication credentials invalid").

(** The credential / principal / organization reasons of the design
    document: every code but [INSUFFICIENT_PERMISSIONS] and the three
    system errors. *)
Definition in_credential_bucket (c : AuthErrorCode) : bool :=
  match c with
  | INSUFFICIENT_PERMISSIONS | DATABASE_ERROR | RATE_LIMITED
  | SERVICE_UNAVAILABLE => false
  | _ => true
  end.

Record AuthenticatedUser := {
  inbox_id : string;
  organization_id : string;
  email_address : string;
  api_key_id : string
}.

(** [type AuthResult = {success: true; user} | {success: false; error}] *)
Inductive AuthResult :=
| AuthSuccess (user : AuthenticatedUser)
| AuthFailure (error : AuthError).

(** [interface SMTPAuthError extends Error]: the same shape as
    [SMTPError] of [errors/mapping.ts]. *)
Abbreviation SMTPAuthError := Mapping.SMTPError.

Definition createSMTPAuthError (error : AuthError) : SMTPAuthError :=
  {| Mapping.message :=
       pretty (smtpCode error) +:+ " " +:+ enhancedCode error +:+ " "
         +:+ message error;
     Mapping.responseCode := smtpCode error;
     Mapping.enhancedCode := enhancedCode error |}.

End AuthErrors.

(* ===================================================================== *)
(** * [src/errors/http-to-smtp-mapping.ts] *)
(* ===================================================================== *)

Module HttpToSmtp.

Record HTTPToSMTPMapping := {
  httpStatus : Z;
  m_smtpCode : Z;
  m_enhancedCode : string;
  m_message : string;
  m_retryable : bool;
  description : string
}.

Record SMTPErrorResult := {
  smtpCode : Z;
  enhancedCode : string;
  message : string;
  retryable : bool
}.

Definition entry (h c : Z) (e m : string) (r : bool) (d : string)
  : Z * HTTPToSMTPMapping :=
  (h, {| httpStatus := h; m_smtpCode := c; m_enhancedCode := e;
         m_message := m; m_retryable := r; description := d |}).

Definition HTTP_TO_SMTP_MAPPINGS : gmap Z HTTPToSMTPMapping :=
  list_to_map [
    entry 200 250 "2.0.0" "Message accepted for delivery" false
      "OK - Request successful";
    entry 201 250 "2.0.0" "Message queued successfully" false
      "Created - Resource created successfully";
    entry 400 501 "5.5.2" "Invalid message format or parameters" false
      "Bad Request - Malformed request syntax";
    entry 401 535 "5.7.8" "Authentication credentials invalid" false
      "Unauthorized - Authentication required or failed";
    entry 403 550 "5.7.1" "Access denied" false
      "Forbidden - Access denied to resource";
    entry 404 550 "5.1.1" "Mailbox not found" false
      "Not Found - Resource does not exist";
    entry 413 552 "5.2.3" "Message size exceeds maximum allowed" false
      "Payload Too Large - Message exceeds size limit";
    entry 422 554 "5.6.0" "Message content rejected" false
      "Unprocessable Entity - Semantic errors in content";
    entry 429 450 "4.7.1" "Rate limit exceeded, try again later" true
      "Too Many Requests - Rate limit exceeded";
    entry 500 451 "4.3.0" "Temporary system error, please retry" true
      "Internal Server Error - Unexpected server error";
    entry 502 451 "4.4.1" "Upstream service unavailable, please retry" true
      "Bad Gateway - Invalid response from upstream";
    entry 503 421 "4.3.0" "Service temporarily unavailable" true
      "Service Unavailable - Server overloaded or in maintenance";
    entry 504 451 "4.4.1" "Gateway timeout, please retry" true
      "Gateway Timeout - Upstream server timeout"
  ].

Definition mapHttpToSmtp (httpStatus : Z) : SMTPErrorResult :=
  match HTTP_TO_SMTP_MAPPINGS !! httpStatus with
  | Some mapping =>
      {| smtpCode := m_smtpCode mapping;
         enhancedCode := m_enhancedCode mapping;
         message := m_message mapping;
         retryable := m_retryable mapping |}
  | None =>
      if (200 <=? httpStatus) && (httpStatus <? 300) then
        {| smtpCode := 250; enhancedCode := "2.0.0";
           message := "Message accepted"; retryable := false |}
      else if (400 <=? httpStatus) && (httpStatus <? 500) then
        {| smtpCode := 550; enhancedCode := "5.0.0";
           message := "Request rejected"; retryable := false |}
      else
        {| smtpCode := 451; enhancedCode := "4.3.0";
           message := "Temporary failure, please retry";
           retryable := true |}
  end.

Definition isRetryableHttpStatus (httpStatus : Z) : bool :=
  match HTTP_TO_SMTP_MAPPINGS !! httpStatus with
  | Some mapping => m_retryable mapping
  | None => (httpStatus =? 429) || (500 <=? httpStatus)
  end.

Definition getHttpMapping (httpStatus : Z) : option HTTPToSMTPMapping :=
  HTTP_TO_SMTP_MAPPINGS !! httpStatus.

Definition formatSmtpResponse (result : SMTPErrorResult) : string :=
  pretty (smtpCode result) +:+ " " +:+ enhancedCode result +:+ " "
    +:+ message result.

End HttpToSmtp.

(* ===================================================================== *)
(** * Regular expressions of [src/auth/validator.ts] *)
(* ===================================================================== *)

(** The two patterns of the validator use character classes, literals,
    alternation and counted repetition, anchored at both ends, so
    [RegExp.prototype.test] decides membership of the whole string in a
    regular language.  Strings are sequences of bytes here; every class of
    the two patterns is ASCII, so a character outside ASCII fails both in
    JavaScript and here. *)
Module Regex.

Inductive regex :=
| Never
| Empty
| Chars (ranges : list (ascii * ascii))
| Seq (r1 r2 : regex)
| Alt (r1 r2 : regex)
| Rep (r : regex) (lo : nat) (hi : option nat).

Definition in_ranges (c : ascii) (ranges : list (ascii * ascii)) : bool :=
  existsb (fun '(lo, hi) =>
             (nat_of_ascii lo <=? nat_of_ascii c)%nat
             && (nat_of_ascii c <=? nat_of_ascii hi)%nat) ranges.

Fixpoint nullable (r : regex) : bool :=
  match r with
  | Never => false
  | Empty => true
  | Chars _ => false
  | Seq r1 r2 => nullable r1 && nullable r2
  | Alt r1 r2 => nullable r1 || nullable r2
  | Rep r lo _ => (lo =? 0)%nat || nullable r
  end.

Definition seq (r1 r2 : regex) : regex :=
  match r1, r2 with
  | Never, _ | _, Never => Never
  | Empty, r | r, Empty => r
  | _, _ => Seq r1 r2
  end.

Definition alt (r1 r2 : regex) : regex :=
  match r1, r2 with
  | Never, r | r, Never => r
  | _, _ => Alt r1 r2
  end.

(** Brzozowski derivative: the words [w] such that [c :: w] matches. *)
Fixpoint deriv (c : ascii) (r : regex) : regex :=
  match r with
  | Never | Empty => Never
  | Chars ranges => if in_ranges c ranges then Empty else Never
  | Seq r1 r2 =>
      alt (seq (deriv c r1) r2)
          (if nullable r1 then deriv c r2 else Never)
  | Alt r1 r2 => alt (deriv c r1) (deriv c r2)
  | Rep r lo hi =>
      match hi with
      | Some O => Never
      | _ => seq (deriv c r) (Rep r (Nat.pred lo) (Nat.pred <$> hi))
      end
  end.

Fixpoint matches (r : regex) (s : string) : bool :=
  match s with
  | EmptyString => nullable r
  | String c s' => matches (deriv c r) s'
  end.

(** A literal string. *)
Fixpoint Lit (s : string) : regex :=
  match s with
  | EmptyString => Empty
  | String c s' => Seq (Chars [(c, c)]) (Lit s')
  end.

Definition ch (c : string) : ascii * ascii :=
  match c with
  | String a _ => (a, a)
  | EmptyString => (zero, zero)
  end.

Definition rng (lo hi : string) : ascii * ascii := (fst (ch lo), fst (ch hi)).

(** [[a-zA-Z0-9]] *)
Definition alnum : list (ascii * ascii) :=
  [rng "a" "z"; rng "A" "Z"; rng "0" "9"].

(** [/^(inb_[a-zA-Z0-9]{12,32}|[a-zA-Z0-9._%+-]+@[a-zA-Z0-9.-]+\.[a-zA-Z]{2,})$/] *)
Definition INBOX_ID_REGEX : regex :=
  Alt (Seq (Lit "inb_") (Rep (Chars alnum) 12 (Some 32%nat)))
      (Seq (Rep (Chars (alnum ++ [ch "."; ch "_"; ch "%"; ch "+"; ch "-"])%list)
                1 None)
      (Seq (Lit "@")
      (Seq (Rep (Chars (alnum ++ [ch "."; ch "-"])%list) 1 None)
      (Seq (Lit ".")
           (Rep (Chars [rng "a" "z"; rng "A" "Z"]) 2 None))))).

(** [/^am_[a-zA-Z0-9]{32,128}$/] *)
Definition API_KEY_REGEX : regex :=
  Seq (Lit "am_") (Rep (Chars alnum) 32 (Some 128%nat)).

(** [regex.test(s)] for a pattern anchored with [^] and [$]. *)
Definition test (r : regex) (s : string) : bool := matches r s.

End Regex.

(* ===================================================================== *)
(** * [src/mock/database.ts] *)
(* ===================================================================== *)

Module Database.

Inductive InboxStatus := active | disabled | suspended.

#[global] Instance InboxStatus_eq_dec : EqDecision InboxStatus.
Proof. solve_decision. Defined.

Module MockInbox.
Record t := {
  inbox_id : string;
  email_address : string;
  organization_id : string;
  status : InboxStatus;
  display_name : option string;
  created_at : string
}.
End MockInbox.

Module MockApiKey.
Record t := {
  api_key_id : string;
  organization_id : string;
  revoked_at : option string;
  expires_at : option string;
  scopes : list string;
  name : string;
  created_at : string
}.
End MockApiKey.

Definition MOCK_INBOXES : gmap string MockInbox.t :=
  list_to_map [
    ("inb_valid1234567890",
     {| MockInbox.inbox_id := "inb_valid1234567890";
        MockInbox.email_address := "test@agentmail.dev";
        MockInbox.organization_id := "org_abc";
        MockInbox.status := active;
        MockInbox.display_name := Some "Test Inbox";
        MockInbox.created_at := "2024-01-01T00:00:00Z" |});
    ("inb_disabled456789012",
     {| MockInbox.inbox_id := "inb_disabled456789012";
        MockInbox.email_address := "disabled@agentmail.dev";
        MockInbox.organization_id := "org_abc";
        MockInbox.status := disabled;
        MockInbox.display_name := Some "Disabled Inbox";
        MockInbox.created_at := "2024-01-01T00:00:00Z" |});
    ("inb_suspended78901234",
     {| MockInbox.inbox_id := "inb_suspended78901234";
        MockInbox.email_address := "suspended@agentmail.dev";
        MockInbox.organization_id := "org_abc";
        MockInbox.status := suspended;
        MockInbox.display_name := Some "Suspended Inbox";
        MockInbox.created_at := "2024-01-01T00:00:00Z" |})
  ].

Definition MOCK_API_KEYS : gmap string MockApiKey.t :=
  list_to_map [
    ("am_validkey12345678901234567890123456",
     {| MockApiKey.api_key_id := "key_valid_1";
        MockApiKey.organization_id := "org_abc";
        MockApiKey.revoked_at := None;
        MockApiKey.expires_at := None;
        MockApiKey.scopes := ["smtp:send"; "messages:read"; "messages:write"];
        MockApiKey.name := "Production API Key";
        MockApiKey.created_at := "2024-01-01T00:00:00Z" |});
    ("am_wrongorg45678901234567890123456789",
     {| MockApiKey.api_key_id := "key_wrongorg_2";
        MockApiKey.organization_id := "org_xyz";
        MockApiKey.revoked_at := None;
        MockApiKey.expires_at := None;
        MockApiKey.scopes := ["smtp:send"];
        MockApiKey.name := "Other Org API Key";
        MockApiKey.created_at := "2024-01-01T00:00:00Z" |});
    ("am_revoked78901234567890123456789012",
     {| MockApiKey.api_key_id := "key_revoked_3";
        MockApiKey.organization_id := "org_abc";
        MockApiKey.revoked_at := Some "2024-12-01T00:00:00Z";
        MockApiKey.expires_at := None;
        MockApiKey.scopes := ["smtp:send"];
        MockApiKey.name := "Revoked API Key";
        MockApiKey.created_at := "2024-01-01T00:00:00Z" |});
    ("am_expired12345678901234567890123456",
     {| MockApiKey.api_key_id := "key_expired_4";
        MockApiKey.organization_id := "org_abc";
        MockApiKey.revoked_at := None;
        MockApiKey.expires_at := Some "2024-01-01T00:00:00Z";
        MockApiKey.scopes := ["smtp:send"];
        MockApiKey.name := "Expired API Key";
        MockApiKey.created_at := "2023-01-01T00:00:00Z" |});
    ("am_noscope12345678901234567890123456",
     {| MockApiKey.api_key_id := "key_noscope_5";
        MockApiKey.organization_id := "org_abc";
        MockApiKey.revoked_at := None;
        MockApiKey.expires_at := None;
        MockApiKey.scopes := ["messages:read"];
        MockApiKey.name := "Read-Only API Key";
        MockApiKey.created_at := "2024-01-01T00:00:00Z" |})
  ].

(** Outcome of an awaited lookup: the promise resolves to a record or to
    [null], or it rejects with an [Error] carrying a message. *)
Inductive DbResult (A : Type) :=
| Resolved (r : option A)
| Rejected (message : string).
Arguments Resolved {A} r.
Arguments Rejected {A} message.

(** [MOCK_INBOXES[inbox_id] || null] *)
Definition getInbox (inbox_id : string) : DbResult MockInbox.t :=
  Resolved (MOCK_INBOXES !! inbox_id).

(** [MOCK_API_KEYS[apiKey] || null] *)
Definition getApiKey (apiKey : string) : DbResult MockApiKey.t :=
  Resolved (MOCK_API_KEYS !! apiKey).

(** [getInboxWithPossibleError] / [getApiKeyWithPossibleError], with the
    module-level flag [simulateDatabaseError] as an argument. *)
Definition getInboxWithPossibleError (simulateDatabaseError : bool)
    (inbox_id : string) : DbResult MockInbox.t :=
  if simulateDatabaseError then Rejected "Simulated database error"
  else getInbox inbox_id.

Definition getApiKeyWithPossibleError (simulateDatabaseError : bool)
    (apiKey : string) : DbResult MockApiKey.t :=
  if simulateDatabaseError then Rejected "Simulated database error"
  else getApiKey apiKey.

End Database.

(* ===================================================================== *)
(** * [src/auth/validator.ts] *)
(* ===================================================================== *)

Module Validator.
Import AuthErrors Database.

(** The arguments are declared [string], but the function guards against
    other run-time values; the values the guard can tell apart. *)
Inductive JsValue :=
| JsUndefined
| JsNull
| JsBoolean (b : bool)
| JsNumber (n : Z)
| JsString (s : string).

(** [!!v] *)
Definition truthy (v : JsValue) : bool :=
  match v with
  | JsUndefined | JsNull => false
  | JsBoolean b => b
  | JsNumber n => negb (n =? 0)
  | JsString s => negb (String.eqb s "")
  end.

(** [typeof v] *)
Definition typeof (v : JsValue) : string :=
  match v with
  | JsUndefined => "undefined"
  | JsNull => "object"
  | JsBoolean _ => "boolean"
  | JsNumber _ => "number"
  | JsString _ => "string"
  end.

(** The string behind a value that passed the [typeof] guard. *)
Definition as_string (v : JsValue) : string :=
  match v with JsString s => s | _ => "" end.

(** [a.join(sep)] *)
Fixpoint join (sep : string) (l : list string) : string :=
  match l with
  | [] => ""
  | [x] => x
  | x :: rest => x +:+ sep +:+ join sep rest
  end.

(** [a.includes(x)] *)
Definition includes (l : list string) (x : string) : bool :=
  existsb (String.eqb x) l.

Definition validateInboxIdFormat (inboxId : string) : bool :=
  Regex.test Regex.INBOX_ID_REGEX inboxId.

Definition validateApiKeyFormat (apiKey : string) : bool :=
  Regex.test Regex.API_KEY_REGEX apiKey.

(** The lookups the pipeline performed, in order. *)
Inductive DbCall :=
| CallGetApiKey (apiKey : string)
| CallGetInbox (inbox_id : string).

(** A computation that may await lookups: it extends the log of calls. *)
Definition Lookup (A : Type) : Type := list DbCall -> A * list DbCall.

#[global] Instance Lookup_ret : MRet Lookup := fun A a log => (a, log).

#[global] Instance Lookup_bind : MBind Lookup :=
  fun A B k m log => let '(a, log') := m log in k a log'.

(** The result and the calls made when started with no call made. *)
Definition run {A} (m : Lookup A) : A * list DbCall := m [].

Definition fail (errorCode : AuthErrorCode) (log : string)
  : Lookup AuthResult :=
  mret (AuthFailure (createAuthError errorCode log)).

Section Pipeline.

(** The lookup layer ([../mock/database] in the demo). *)
Variable getApiKey : string -> DbResult MockApiKey.t.
Variable getInbox : string -> DbResult MockInbox.t.

(** [new Date(s)]: the time value of the parsed string, [None] for an
    invalid date.  [new Date()]: the evaluation time. *)
Variable parseDate : string -> option Z.
Variable now : Z.

Definition await_getApiKey (apiKey : string)
  : Lookup (DbResult MockApiKey.t) :=
  fun log => (getApiKey apiKey, (log ++ [CallGetApiKey apiKey])%list).

Definition await_getInbox (inbox_id : string)
  : Lookup (DbResult MockInbox.t) :=
  fun log => (getInbox inbox_id, (log ++ [CallGetInbox inbox_id])%list).

(** [a < b] on two dates; false when either is invalid. *)
Definition date_lt (a b : option Z) : bool :=
  match a, b with
  | Some x, Some y => x <? y
  | _, _ => false
  end.

(** [s && ...] on [string | null]: the string is present and non-empty. *)
Definition present (s : option string) : bool :=
  match s with
  | Some x => negb (String.eqb x "")
  | None => false
  end.

Definition show (s : option string) : string :=
  match s with Some x => x | None => "null" end.

(** SUCCESS *)
Definition success (inbox : MockInbox.t) (apiKey : MockApiKey.t)
  : Lookup AuthResult :=
  mret (AuthSuccess
         {| inbox_id := MockInbox.inbox_id inbox;
            organization_id := MockInbox.organization_id inbox;
            email_address := MockInbox.email_address inbox;
            api_key_id := MockApiKey.api_key_id apiKey |}).

(** STEP 9: inbox and API key belong to the same organization *)
Definition step9 (inbox : MockInbox.t) (apiKey : MockApiKey.t)
  : Lookup AuthResult :=
  if negb (String.eqb (MockInbox.organization_id inbox)
                      (MockApiKey.organization_id apiKey)) then
    fail INBOX_ORG_MISMATCH
      ("Inbox org (" +:+ MockInbox.organization_id inbox
         +:+ ") != API key org (" +:+ MockApiKey.organization_id apiKey
         +:+ ")")
  else success inbox apiKey.

(** STEP 8: inbox is active *)
Definition step8 (username : string) (inbox : MockInbox.t)
    (apiKey : MockApiKey.t) : Lookup AuthResult :=
  if bool_decide (MockInbox.status inbox = disabled) then
    fail INBOX_DISABLED ("Inbox is disabled: " +:+ username)
  else if bool_decide (MockInbox.status inbox = suspended) then
    fail INBOX_SUSPENDED ("Inbox is suspended: " +:+ username)
  else step9 inbox apiKey.

(** STEP 7: look up the inbox *)
Definition step7 (username : string) (apiKey : MockApiKey.t)
  : Lookup AuthResult :=
  r ← await_getInbox username;
  match r with
  | Rejected message =>
      fail DATABASE_ERROR
        ("Database error looking up inbox: " +:+ message)
  | Resolved None =>
      fail INBOX_NOT_FOUND ("Inbox not found: " +:+ username)
  | Resolved (Some inbox) => step8 username inbox apiKey
  end.

(** STEP 6: the API key has the smtp:send permission *)
Definition step6 (username : string) (apiKey : MockApiKey.t)
  : Lookup AuthResult :=
  if negb (includes (MockApiKey.scopes apiKey) "smtp:send") then
    fail INSUFFICIENT_PERMISSIONS
      ("API key lacks smtp:send scope. Has: "
         +:+ join ", " (MockApiKey.scopes apiKey))
  else step7 username apiKey.

(** STEP 5: the API key is not expired *)
Definition step5 (username : string) (apiKey : MockApiKey.t)
  : Lookup AuthResult :=
  if present (MockApiKey.expires_at apiKey)
     && date_lt (parseDate (show (MockApiKey.expires_at apiKey)))
                (Some now) then
    fail API_KEY_EXPIRED
      ("API key expired at " +:+ show (MockApiKey.expires_at apiKey))
  else step6 username apiKey.

(** STEP 4: the API key is not revoked *)
Definition step4 (username : string) (apiKey : MockApiKey.t)
  : Lookup AuthResult :=
  if present (MockApiKey.revoked_at apiKey) then
    fail API_KEY_REVOKED
      ("API key was revoked at " +:+ show (MockApiKey.revoked_at apiKey))
  else step5 username apiKey.

(** STEP 3: look up the API key *)
Definition step3 (username password : string) : Lookup AuthResult :=
  r ← await_getApiKey password;
  match r with
  | Rejected message =>
      fail DATABASE_ERROR
        ("Database error looking up API key: " +:+ message)
  | Resolved None =>
      fail API_KEY_NOT_FOUND "API key not found in database"
  | Resolved (Some apiKey) => step4 username apiKey
  end.

(** STEP 2: API key format *)
Definition step2 (username : string) (password : JsValue)
  : Lookup AuthResult :=
  if negb (truthy password)
     || negb (String.eqb (typeof password) "string") then
    fail INVALID_API_KEY_FORMAT
      "Empty or invalid password/API key provided"
  else
    let password := as_string password in
    if negb (validateApiKeyFormat password) then
      fail INVALID_API_KEY_FORMAT
        ("Invalid API key format (length: "
           +:+ pretty (String.length password) +:+ ")")
    else step3 username password.

(** STEP 1: inbox_id format, then the rest of the pipeline *)
Definition validateSMTPCredentials (username password : JsValue)
  : Lookup AuthResult :=
  if negb (truthy username)
     || negb (String.eqb (typeof username) "string") then
    fail INVALID_INBOX_ID_FORMAT "Empty or invalid username provided"
  else
    let username := as_string username in
    if negb (validateInboxIdFormat username) then
      fail INVALID_INBOX_ID_FORMAT
        ("Invalid inbox_id format: " +:+ substring 0 20 username
           +:+ "...")
    else step2 username password.

End Pipeline.

(** [Date] parsing restricted to the timestamps of the mock data. *)
Definition mockParseDate (s : string) : option Z :=
  if String.eqb s "2024-01-01T00:00:00Z" then Some 1704067200000
  else if String.eqb s "2024-12-01T00:00:00Z" then Some 1733011200000
  else if String.eqb s "2023-01-01T00:00:00Z" then Some 1672531200000
  else None.

(** The pipeline over the mock database. *)
Definition validateMock (now : Z) (username password : string)
  : AuthResult * list DbCall :=
  run (validateSMTPCredentials Database.getApiKey Database.getInbox
         mockParseDate now (JsString username) (JsString password)).

End Validator.

(* ===================================================================== *)
(** * [src/session/session-state.ts] *)
(* ===================================================================== *)

Module SessionState.

Inductive SMTPSessionState :=
| INIT | HELLO | AUTHENTICATED | MAIL_FROM | RCPT_TO | DATA | COMPLETED.

#[global] Instance SMTPSessionState_eq_dec : EqDecision SMTPSessionState.
Proof. solve_decision. Defined.

Record ConnectionMetadata := {
  remoteAddress : string;
  remotePort : option Z;
  clientHostname : option string;
  tlsEnabled : bool
}.

Record SessionUser := {
  inbox_id : string;
  organization_id : string;
  email_address : string;
  api_key_id : string;
  api_key : string
}.

Record SessionRecipient := {
  address : string;
  addedAt : Z
}.

Record StateTransition := {
  from : SMTPSessionState;
  to : SMTPSessionState;
  timestamp : Z;
  command : option string
}.

Record SessionTimestamps := {
  createdAt : Z;
  lastActivityAt : Z;
  authenticatedAt : option Z;
  mailFromAt : option Z;
  dataStartedAt : option Z;
  completedAt : option Z
}.

Record SMTPSession := {
  id : string;
  state : SMTPSessionState;
  timestamps : SessionTimestamps;
  user : option SessionUser;
  authenticated : bool;
  mailFrom : option string;
  rcptTo : list SessionRecipient;
  messageData : option string;
  messageId : option string;
  connection : ConnectionMetadata;
  messageCount : Z;
  stateHistory : list StateTransition
}.

Definition VALID_COMMANDS_BY_STATE (s : SMTPSessionState) : list string :=
  match s with
  | INIT => ["EHLO"; "HELO"]
  | HELLO => ["AUTH"; "MAIL"; "QUIT"]
  | AUTHENTICATED => ["MAIL"; "QUIT"]
  | MAIL_FROM => ["RCPT"; "QUIT"]
  | RCPT_TO => ["RCPT"; "DATA"; "QUIT"]
  | DATA => []
  | COMPLETED => ["MAIL"; "QUIT"]
  end.

Record Transition := {
  t_from : list SMTPSessionState;
  t_to : SMTPSessionState
}.

(** The table is looked up with the command names the handlers pass,
    all of them own keys or absent. *)
Definition COMMAND_STATE_TRANSITIONS : gmap string Transition :=
  list_to_map [
    ("EHLO", {| t_from := [INIT]; t_to := HELLO |});
    ("HELO", {| t_from := [INIT]; t_to := HELLO |});
    ("AUTH", {| t_from := [HELLO]; t_to := AUTHENTICATED |});
    ("MAIL", {| t_from := [HELLO; AUTHENTICATED; COMPLETED];
                t_to := MAIL_FROM |});
    ("RCPT", {| t_from := [MAIL_FROM; RCPT_TO]; t_to := RCPT_TO |});
    ("DATA", {| t_from := [RCPT_TO]; t_to := DATA |});
    ("DATA_COMPLETE", {| t_from := [DATA]; t_to := COMPLETED |})
  ].

Definition SESSION_TIMEOUT_MS : Z := 30 * 60 * 1000.
Definition MAX_RECIPIENTS : nat := 50.
Definition CLEANUP_INTERVAL_MS : Z := 5 * 60 * 1000.

Definition canExecuteCommandInState (s : SMTPSessionState)
    (command : string) : bool :=
  let allowedCommands := VALID_COMMANDS_BY_STATE s in
  bool_decide (command ∈ allowedCommands).

Definition getNextState (currentState : SMTPSessionState)
    (command : string) : option SMTPSessionState :=
  match COMMAND_STATE_TRANSITIONS !! command with
  | None => None
  | Some transition =>
      if bool_decide (currentState ∈ t_from transition)
      then Some (t_to transition)
      else None
  end.

(** [now] is the [new Date()] the function takes. *)
Definition createEmptySession (sessionId : string)
    (conn : ConnectionMetadata) (now : Z) : SMTPSession :=
  {| id := sessionId;
     state := INIT;
     timestamps := {| createdAt := now; lastActivityAt := now;
                      authenticatedAt := None; mailFromAt := None;
                      dataStartedAt := None; completedAt := None |};
     user := None;
     authenticated := false;
     mailFrom := None;
     rcptTo := [];
     messageData := None;
     messageId := None;
     connection := conn;
     messageCount := 0;
     stateHistory := [] |}.

(** ** Field assignments *)

Definition set_clientHostname (v : option string) (c : ConnectionMetadata)
  : ConnectionMetadata :=
  {| remoteAddress := remoteAddress c; remotePort := remotePort c;
     clientHostname := v; tlsEnabled := tlsEnabled c |}.

Definition ts_set_lastActivityAt (v : Z) (t : SessionTimestamps) :=
  {| createdAt := createdAt t; lastActivityAt := v;
     authenticatedAt := authenticatedAt t; mailFromAt := mailFromAt t;
     dataStartedAt := dataStartedAt t; completedAt := completedAt t |}.

Definition ts_set_authenticatedAt (v : option Z) (t : SessionTimestamps) :=
  {| createdAt := createdAt t; lastActivityAt := lastActivityAt t;
     authenticatedAt := v; mailFromAt := mailFromAt t;
     dataStartedAt := dataStartedAt t; completedAt := completedAt t |}.

Definition ts_set_mailFromAt (v : option Z) (t : SessionTimestamps) :=
  {| createdAt := createdAt t; lastActivityAt := lastActivityAt t;
     authenticatedAt := authenticatedAt t; mailFromAt := v;
     dataStartedAt := dataStartedAt t; completedAt := completedAt t |}.

Definition ts_set_dataStartedAt (v : option Z) (t : SessionTimestamps) :=
  {| createdAt := createdAt t; lastActivityAt := lastActivityAt t;
     authenticatedAt := authenticatedAt t; mailFromAt := mailFromAt t;
     dataStartedAt := v; completedAt := completedAt t |}.

Definition ts_set_completedAt (v : option Z) (t : SessionTimestamps) :=
  {| createdAt := createdAt t; lastActivityAt := lastActivityAt t;
     authenticatedAt := authenticatedAt t; mailFromAt := mailFromAt t;
     dataStartedAt := dataStartedAt t; completedAt := v |}.

Definition set_state (v : SMTPSessionState) (s : SMTPSession) : SMTPSession :=
  {| id := id s;
     state := v;
     timestamps := timestamps s;
     user := user s;
     authenticated := authenticated s;
     mailFrom := mailFrom s;
     rcptTo := rcptTo s;
     messageData := messageData s;
     messageId := messageId s;
     connection := connection s;
     messageCount := messageCount s;
     stateHistory := stateHistory s |}.

Definition set_timestamps (v : SessionTimestamps) (s : SMTPSession) : SMTPSession :=
  {| id := id s;
     state := state s;
     timestamps := v;
     user := user s;
     authenticated := authenticated s;
     mailFrom := mailFrom s;
     rcptTo := rcptTo s;
     messageData := messageData s;
     messageId := messageId s;
     connection := connection s;
     messageCount := messageCount s;
     stateHistory := stateHistory s |}.

Definition set_user (v : option SessionUser) (s : SMTPSession) : SMTPSession :=
  {| id := id s;
     state := state s;
     timestamps := timestamps s;
     user := v;
     authenticated := authenticated s;
     mailFrom := mailFrom s;
     rcptTo := rcptTo s;
     messageData := messageData s;
     messageId := messageId s;
     connection := connection s;
     messageCount := messageCount s;
     stateHistory := stateHistory s |}.

Definition set_authenticated (v : bool) (s : SMTPSession) : SMTPSession :=
  {| id := id s;
     state := state s;
     timestamps := timestamps s;
     user := user s;
     authenticated := v;
     mailFrom := mailFrom s;
     rcptTo := rcptTo s;
     messageData := messageData s;
     messageId := messageId s;
     connection := connection s;
     messageCount := messageCount s;
     stateHistory := stateHistory s |}.

Definition set_mailFrom (v : option string) (s : SMTPSession) : SMTPSession :=
  {| id := id s;
     state := state s;
     timestamps := timestamps s;
     user := user s;
     authenticated := authenticated s;
     mailFrom := v;
     rcptTo := rcptTo s;
     messageData := messageData s;
     messageId := messageId s;
     connection := connection s;
     messageCount := messageCount s;
     stateHistory := stateHistory s |}.

Definition set_rcptTo (v : list SessionRecipient) (s : SMTPSession) : SMTPSession :=
  {| id := id s;
     state := state s;
     timestamps := timestamps s;
     user := user s;
     authenticated := authenticated s;
     mailFrom := mailFrom s;
     rcptTo := v;
     messageData := messageData s;
     messageId := messageId s;
     connection := connection s;
     messageCount := messageCount s;
     stateHistory := stateHistory s |}.

Definition set_messageData (v : option string) (s : SMTPSession) : SMTPSession :=
  {| id := id s;
     state := state s;
     timestamps := timestamps s;
     user := user s;
     authenticated := authenticated s;
     mailFrom := mailFrom s;
     rcptTo := rcptTo s;
     messageData := v;
     messageId := messageId s;
     connection := connection s;
     messageCount := messageCount s;
     stateHistory := stateHistory s |}.

Definition set_messageId (v : option string) (s : SMTPSession) : SMTPSession :=
  {| id := id s;
     state := state s;
     timestamps := timestamps s;
     user := user s;
     authenticated := authenticated s;
     mailFrom := mailFrom s;
     rcptTo := rcptTo s;
     messageData := messageData s;
     messageId := v;
     connection := connection s;
     messageCount := messageCount s;
     stateHistory := stateHistory s |}.

Definition set_connection (v : ConnectionMetadata) (s : SMTPSession) : SMTPSession :=
  {| id := id s;
     state := state s;
     timestamps := timestamps s;
     user := user s;
     authenticated := authenticated s;
     mailFrom := mailFrom s;
     rcptTo := rcptTo s;
     messageData := messageData s;
     messageId := messageId s;
     connection := v;
     messageCount := messageCount s;
     stateHistory := stateHistory s |}.

Definition set_messageCount (v : Z) (s : SMTPSession) : SMTPSession :=
  {| id := id s;
     state := state s;
     timestamps := timestamps s;
     user := user s;
     authenticated := authenticated s;
     mailFrom := mailFrom s;
     rcptTo := rcptTo s;
     messageData := messageData s;
     messageId := messageId s;
     connection := connection s;
     messageCount := v;
     stateHistory := stateHistory s |}.

Definition set_stateHistory (v : list StateTransition) (s : SMTPSession) : SMTPSession :=
  {| id := id s;
     state := state s;
     timestamps := timestamps s;
     user := user s;
     authenticated := authenticated s;
     mailFrom := mailFrom s;
     rcptTo := rcptTo s;
     messageData := messageData s;
     messageId := messageId s;
     connection := connection s;
     messageCount := messageCount s;
     stateHistory := v |}.

(** [session.timestamps.f = v] *)
Definition on_timestamps (f : SessionTimestamps -> SessionTimestamps)
    (s : SMTPSession) : SMTPSession :=
  set_timestamps (f (timestamps s)) s.

Definition set_lastActivityAt (v : Z) := on_timestamps (ts_set_lastActivityAt v).
Definition set_authenticatedAt (v : option Z) := on_timestamps (ts_set_authenticatedAt v).
Definition set_mailFromAt (v : option Z) := on_timestamps (ts_set_mailFromAt v).
Definition set_dataStartedAt (v : option Z) := on_timestamps (ts_set_dataStartedAt v).
Definition set_completedAt (v : option Z) := on_timestamps (ts_set_completedAt v).

(** [session.rcptTo.push(r)], [session.stateHistory.push(t)] *)
Definition push_rcptTo (r : SessionRecipient) (s : SMTPSession) :=
  set_rcptTo (rcptTo s ++ [r]) s.

Definition push_stateHistory (t : StateTransition) (s : SMTPSession) :=
  set_stateHistory (stateHistory s ++ [t]) s.

End SessionState.

(* ===================================================================== *)
(** * [src/session/session-manager.ts] *)
(* ===================================================================== *)

Module SessionManager.
Import SessionState.

(** The manager's [Map] of sessions, and how many times the clock has
    been read.  The [i]-th [new Date()] of a run returns [clock i]; only
    the readings that are stored are counted (those that feed a log line
    are not). *)
Record World := {
  sessions : gmap string SMTPSession;
  ticks : nat
}.

Definition Mgr (A : Type) : Type := World -> A * World.

#[global] Instance Mgr_ret : MRet Mgr := fun A a w => (a, w).

#[global] Instance Mgr_bind : MBind Mgr :=
  fun A B k m w => let '(a, w') := m w in k a w'.

(** [new SessionManager()] *)
Definition init : World := {| sessions := ∅; ticks := 0 |}.

(** [this.sessions.get(sessionId)] *)
Definition getSession (sessionId : string) : Mgr (option SMTPSession) :=
  fun w => (sessions w !! sessionId, w).

(** An assignment to a field of the stored session object. *)
Definition assign (sessionId : string) (f : SMTPSession -> SMTPSession)
  : Mgr unit :=
  fun w => (tt, {| sessions := alter f sessionId (sessions w);
                   ticks := ticks w |}).

(** [this.sessions.set(sessionId, session)] *)
Definition set (sessionId : string) (session : SMTPSession) : Mgr unit :=
  fun w => (tt, {| sessions := <[sessionId := session]> (sessions w);
                   ticks := ticks w |}).

(** [this.sessions.delete(sessionId)] *)
Definition remove (sessionId : string) : Mgr bool :=
  fun w => (bool_decide (is_Some (sessions w !! sessionId)),
            {| sessions := delete sessionId (sessions w);
               ticks := ticks w |}).

Section WithClock.

Variable clock : nat -> Z.

(** [new Date()] / [Date.now()] *)
Definition new_Date : Mgr Z :=
  fun w => (clock (ticks w),
            {| sessions := sessions w; ticks := S (ticks w) |}).

Definition createSession (sessionId : string)
    (conn : ConnectionMetadata) : Mgr SMTPSession :=
  now ← new_Date;
  let session := createEmptySession sessionId conn now in
  set sessionId session;;
  mret session.

Definition deleteSession (sessionId : string) : Mgr bool :=
  session ← getSession sessionId;
  match session with
  | Some _ => remove sessionId
  | None => mret false
  end.

Definition canExecuteCommand (sessionId : string) (command : string)
  : Mgr bool :=
  session ← getSession sessionId;
  match session with
  | None => mret false
  | Some session => mret (canExecuteCommandInState (state session) command)
  end.

Definition transitionState (sessionId : string) (command : string)
    (newState : SMTPSessionState) : Mgr (option SMTPSession) :=
  session ← getSession sessionId;
  match session with
  | None => mret None
  | Some session =>
      let currentState := state session in
      t ← new_Date;
      assign sessionId
        (push_stateHistory {| from := currentState; to := newState;
                              timestamp := t; command := Some command |});;
      assign sessionId (set_state newState);;
      t' ← new_Date;
      assign sessionId (set_lastActivityAt t');;
      getSession sessionId
  end.

(** [clientHostname] is assigned when it is a non-empty string. *)
Definition handleHello (sessionId : string)
    (clientHostname : option string) : Mgr (option SMTPSession) :=
  session ← getSession sessionId;
  match session with
  | None => mret None
  | Some session =>
      match getNextState (state session) "EHLO" with
      | None => mret None
      | Some nextState =>
          (match clientHostname with
           | Some h =>
               if negb (String.eqb h "") then
                 assign sessionId
                   (fun s => set_connection
                               (set_clientHostname (Some h) (connection s)) s)
               else mret tt
           | None => mret tt
           end);;
          transitionState sessionId "EHLO" nextState
      end
  end.

Definition handleAuthentication (sessionId : string) (u : SessionUser)
  : Mgr (option SMTPSession) :=
  session ← getSession sessionId;
  match session with
  | None => mret None
  | Some session =>
      match getNextState (state session) "AUTH" with
      | None => mret None
      | Some nextState =>
          assign sessionId (set_user (Some u));;
          assign sessionId (set_authenticated true);;
          t ← new_Date;
          assign sessionId (set_authenticatedAt (Some t));;
          transitionState sessionId "AUTH" nextState
      end
  end.

Definition handleMailFrom (sessionId : string) (sender : string)
  : Mgr (option SMTPSession) :=
  session ← getSession sessionId;
  match session with
  | None => mret None
  | Some session =>
      match getNextState (state session) "MAIL" with
      | None => mret None
      | Some nextState =>
          assign sessionId (set_mailFrom (Some sender));;
          t ← new_Date;
          assign sessionId (set_mailFromAt (Some t));;
          assign sessionId (set_rcptTo []);;
          assign sessionId (set_messageData None);;
          assign sessionId (set_messageId None);;
          transitionState sessionId "MAIL" nextState
      end
  end.

Definition handleRcptTo (sessionId : string) (recipient : string)
  : Mgr (option SMTPSession) :=
  session ← getSession sessionId;
  match session with
  | None => mret None
  | Some session =>
      if (MAX_RECIPIENTS <=? length (rcptTo session))%nat then mret None
      else
        match getNextState (state session) "RCPT" with
        | None => mret None
        | Some nextState =>
            t ← new_Date;
            let recipientEntry := {| address := recipient; addedAt := t |} in
            assign sessionId (push_rcptTo recipientEntry);;
            if negb (bool_decide (state session = RCPT_TO)) then
              transitionState sessionId "RCPT" nextState
            else
              t' ← new_Date;
              assign sessionId (set_lastActivityAt t');;
              getSession sessionId
        end
  end.

Definition handleDataStart (sessionId : string)
  : Mgr (option SMTPSession) :=
  session ← getSession sessionId;
  match session with
  | None => mret None
  | Some session =>
      if (length (rcptTo session) =? 0)%nat then mret None
      else
        match getNextState (state session) "DATA" with
        | None => mret None
        | Some nextState =>
            t ← new_Date;
            assign sessionId (set_dataStartedAt (Some t));;
            transitionState sessionId "DATA" nextState
        end
  end.

Definition handleDataComplete (sessionId : string) (mid : string)
  : Mgr (option SMTPSession) :=
  session ← getSession sessionId;
  match session with
  | None => mret None
  | Some session =>
      match getNextState (state session) "DATA_COMPLETE" with
      | None => mret None
      | Some nextState =>
          assign sessionId (set_messageId (Some mid));;
          t ← new_Date;
          assign sessionId (set_completedAt (Some t));;
          assign sessionId (fun s => set_messageCount (messageCount s + 1) s);;
          transitionState sessionId "DATA_COMPLETE" nextState
      end
  end.

Definition resetForNewMessage (sessionId : string) : Mgr unit :=
  session ← getSession sessionId;
  match session with
  | None => mret tt
  | Some session =>
      assign sessionId (set_mailFrom None);;
      assign sessionId (set_rcptTo []);;
      assign sessionId (set_messageData None);;
      assign sessionId (set_messageId None);;
      assign sessionId (set_mailFromAt None);;
      assign sessionId (set_dataStartedAt None);;
      assign sessionId (set_completedAt None);;
      t ← new_Date;
      assign sessionId (set_lastActivityAt t);;
      let previousState := state session in
      let newState :=
        if authenticated session then AUTHENTICATED else HELLO in
      assign sessionId (set_state newState);;
      t' ← new_Date;
      assign sessionId
        (push_stateHistory {| from := previousState; to := newState;
                              timestamp := t'; command := Some "RESET" |})
  end.

Definition updateActivity (sessionId : string) : Mgr unit :=
  session ← getSession sessionId;
  match session with
  | Some _ =>
      t ← new_Date;
      assign sessionId (set_lastActivityAt t)
  | None => mret tt
  end.

(** The loop of [cleanupExpiredSessions]: deletes every session
    inactive at [now] for longer than [SESSION_TIMEOUT_MS]; returns how
    many were deleted. *)
Definition sweep (now : Z) : Mgr nat :=
  fun w =>
    let kept :=
      filter (fun kv : string * SMTPSession =>
                ¬ (SESSION_TIMEOUT_MS
                   < now - lastActivityAt (timestamps kv.2)))
             (sessions w) in
    ((size (sessions w) - size kept)%nat,
     {| sessions := kept; ticks := ticks w |}).

Definition cleanupExpiredSessions : Mgr nat :=
  now ← new_Date;
  sweep now.

Definition getSessionCount : Mgr nat :=
  fun w => (size (sessions w), w).

End WithClock.

End SessionManager.

(* ===================================================================== *)
(** * [src/server.ts] *)
(* ===================================================================== *)

Module Server.
Import SessionState SessionManager.
Import Mapping (SMTPError, createSMTPError).
Module SMTPErrorCode := Mapping.SMTPErrorCode.

(** What a hook passes to its [callback]. *)
Inductive Reply :=
| Ok
| OkUser (u : AuthErrors.AuthenticatedUser)
| OkMessage (m : string)
| Err (e : SMTPError).

(** [SMTPServerAuthentication]: the two fields the hook reads. *)
Record Authentication := {
  username : option string;
  password : option string
}.

(** [x || ''] *)
Definition or_empty (x : option string) : string := default "" x.

(** What the [try] block of [onData] comes to once the DATA phase has
    started: the message is parsed, transformed, validated and submitted,
    and either the API assigns a message id or an error is mapped to the
    SMTP error that is relayed. *)
Inductive Delivery :=
| Delivered (mid : string)
| Failed (e : SMTPError).

Definition sessionError : Reply :=
  Err (createSMTPError SMTPErrorCode.LOCAL_ERROR "4.3.0" "Session error").

Definition badSequence : Reply :=
  Err (createSMTPError SMTPErrorCode.BAD_SEQUENCE "5.5.1"
         "Bad sequence of commands").

Definition authRequired : Reply :=
  Err (createSMTPError SMTPErrorCode.AUTH_REQUIRED "5.7.0"
         "Authentication required").

Definition tooManyRecipients : Reply :=
  Err (createSMTPError SMTPErrorCode.INSUFFICIENT_STORAGE "4.5.3"
         "Too many recipients").

Definition noRecipients : Reply :=
  Err (createSMTPError SMTPErrorCode.BAD_SEQUENCE "5.5.1"
         "No recipients specified").

(** A read [smtpSession.f] through the reference the hook obtained at its
    start: the hook and the manager share the session object, so the read
    sees the assignments made since. *)
Definition read {A} (sessionId : string) (smtpSession : SMTPSession)
    (f : SMTPSession -> A) : Mgr A :=
  fun w => (f (default smtpSession (sessions w !! sessionId)), w).

Section Hooks.

Variable clock : nat -> Z.
Variable getApiKey : string -> Database.DbResult Database.MockApiKey.t.
Variable getInbox : string -> Database.DbResult Database.MockInbox.t.
Variable parseDate : string -> option Z.
Variable deliver : string -> SMTPSession -> Delivery.

Definition onConnect (sessionId : string) (conn : ConnectionMetadata)
  : Mgr Reply :=
  createSession clock sessionId conn;;
  handleHello clock sessionId (clientHostname conn);;
  mret Ok.

(** The evaluation time of the pipeline is the clock reading taken
    when the pipeline runs. *)
Definition onAuth (auth : Authentication) (sessionId : string)
  : Mgr Reply :=
  smtpSession ← getSession sessionId;
  match smtpSession with
  | None => mret sessionError
  | Some smtpSession =>
      updateActivity clock sessionId;;
      allowed ← canExecuteCommand sessionId "AUTH";
      if negb allowed then mret badSequence
      else
        now ← new_Date clock;
        let result :=
          (Validator.run
             (Validator.validateSMTPCredentials getApiKey getInbox
                parseDate now
                (Validator.JsString (or_empty (username auth)))
                (Validator.JsString (or_empty (password auth))))).1 in
        match result with
        | AuthErrors.AuthFailure error =>
            mret (Err (AuthErrors.createSMTPAuthError error))
        | AuthErrors.AuthSuccess u =>
            handleAuthentication clock sessionId
              {| inbox_id := AuthErrors.inbox_id u;
                 organization_id := AuthErrors.organization_id u;
                 email_address := AuthErrors.email_address u;
                 api_key_id := AuthErrors.api_key_id u;
                 api_key := or_empty (password auth) |};;
            mret (OkUser u)
        end
  end.

Definition onMailFrom (sender : string) (sessionId : string)
  : Mgr Reply :=
  smtpSession ← getSession sessionId;
  match smtpSession with
  | None => mret sessionError
  | Some smtpSession =>
      updateActivity clock sessionId;;
      isAuthenticated ← read sessionId smtpSession authenticated;
      if negb isAuthenticated then mret authRequired
      else
        current ← read sessionId smtpSession state;
        (if bool_decide (current = COMPLETED)
         then resetForNewMessage clock sessionId
         else mret tt);;
        allowed ← canExecuteCommand sessionId "MAIL";
        if negb allowed then mret badSequence
        else
          updated ← handleMailFrom clock sessionId sender;
          match updated with
          | None => mret badSequence
          | Some _ => mret Ok
          end
  end.

Definition onRcptTo (recipient : string) (sessionId : string)
  : Mgr Reply :=
  smtpSession ← getSession sessionId;
  match smtpSession with
  | None => mret sessionError
  | Some smtpSession =>
      updateActivity clock sessionId;;
      allowed ← canExecuteCommand sessionId "RCPT";
      if negb allowed then mret badSequence
      else
        updated ← handleRcptTo clock sessionId recipient;
        match updated with
        | None =>
            n ← read sessionId smtpSession (fun s => length (rcptTo s));
            if (50 <=? n)%nat then mret tooManyRecipients
            else mret badSequence
        | Some _ => mret Ok
        end
  end.

Definition onData (stream : string) (sessionId : string) : Mgr Reply :=
  smtpSession ← getSession sessionId;
  match smtpSession with
  | None => mret sessionError
  | Some smtpSession =>
      updateActivity clock sessionId;;
      allowed ← canExecuteCommand sessionId "DATA";
      if negb allowed then mret badSequence
      else
        n ← read sessionId smtpSession (fun s => length (rcptTo s));
        if (n =? 0)%nat then mret noRecipients
        else
          handleDataStart clock sessionId;;
          live ← read sessionId smtpSession (fun s => s);
          match deliver stream live with
          | Delivered mid =>
              handleDataComplete clock sessionId mid;;
              mret (OkMessage ("Message queued as " +:+ mid))
          | Failed e => mret (Err e)
          end
  end.

Definition onClose (sessionId : string) : Mgr unit :=
  deleteSession sessionId;;
  mret tt.

(** ** Command events

    The transport calls one hook per command; the command name is the
    one the hook checks against the session state. *)
Inductive CommandEvent :=
| EvAuth (auth : Authentication)
| EvMailFrom (sender : string)
| EvRcptTo (recipient : string)
| EvData (stream : string).

Definition commandName (ev : CommandEvent) : string :=
  match ev with
  | EvAuth _ => "AUTH"
  | EvMailFrom _ => "MAIL"
  | EvRcptTo _ => "RCPT"
  | EvData _ => "DATA"
  end.

Definition handle (ev : CommandEvent) (sessionId : string) : Mgr Reply :=
  match ev with
  | EvAuth auth => onAuth auth sessionId
  | EvMailFrom sender => onMailFrom sender sessionId
  | EvRcptTo recipient => onRcptTo recipient sessionId
  | EvData stream => onData stream sessionId
  end.

End Hooks.

End Server.

(* ===================================================================== *)
(** * The session manager, one session at a time *)
(* ===================================================================== *)

(** What a manager operation does to the session it addresses, as a
    function on that session: the updated session and the number of clock
    readings taken, or [None] when the operation returns [null] and leaves
    the session alone.  [n] is the index of the first clock reading. *)

Section SessionEffects.
Import SessionState SessionManager.

Variable clock : nat -> Z.

Inductive SessionOp :=
| OpHello (clientHostname : option string)
| OpAuthentication (u : SessionUser)
| OpMailFrom (sender : string)
| OpRcptTo (recipient : string)
| OpDataStart
| OpDataComplete (mid : string)
| OpReset
| OpActivity.

Definition transitioned (n : nat) (cmd : string) (newState : SMTPSessionState)
    (s : SMTPSession) : SMTPSession :=
  set_lastActivityAt (clock (S n))
    (set_state newState
       (push_stateHistory {| from := state s; to := newState;
                             timestamp := clock n; command := Some cmd |} s)).

Definition hostname_assigned (h : option string) (s : SMTPSession)
  : SMTPSession :=
  match h with
  | Some h' =>
      if negb (String.eqb h' "")
      then set_connection (set_clientHostname (Some h') (connection s)) s
      else s
  | None => s
  end.

Definition reset_state (s : SMTPSession) : SMTPSessionState :=
  if authenticated s then AUTHENTICATED else HELLO.

Definition effect (n : nat) (op : SessionOp) (s : SMTPSession)
  : option (SMTPSession * nat) :=
  match op with
  | OpHello h =>
      match getNextState (state s) "EHLO" with
      | None => None
      | Some ns => Some (transitioned n "EHLO" ns (hostname_assigned h s), 2%nat)
      end
  | OpAuthentication u =>
      match getNextState (state s) "AUTH" with
      | None => None
      | Some ns =>
          Some (transitioned (S n) "AUTH" ns
                  (set_authenticatedAt (Some (clock n))
                     (set_authenticated true (set_user (Some u) s))), 3%nat)
      end
  | OpMailFrom sender =>
      match getNextState (state s) "MAIL" with
      | None => None
      | Some ns =>
          Some (transitioned (S n) "MAIL" ns
                  (set_messageId None
                     (set_messageData None
                        (set_rcptTo []
                           (set_mailFromAt (Some (clock n))
                              (set_mailFrom (Some sender) s))))), 3%nat)
      end
  | OpRcptTo recipient =>
      if (MAX_RECIPIENTS <=? length (rcptTo s))%nat then None
      else
        match getNextState (state s) "RCPT" with
        | None => None
        | Some ns =>
            let s1 := push_rcptTo {| address := recipient;
                                     addedAt := clock n |} s in
            if negb (bool_decide (state s = RCPT_TO))
            then Some (transitioned (S n) "RCPT" ns s1, 3%nat)
            else Some (set_lastActivityAt (clock (S n)) s1, 2%nat)
        end
  | OpDataStart =>
      if (length (rcptTo s) =? 0)%nat then None
      else
        match getNextState (state s) "DATA" with
        | None => None
        | Some ns =>
            Some (transitioned (S n) "DATA" ns
                    (set_dataStartedAt (Some (clock n)) s), 3%nat)
        end
  | OpDataComplete mid =>
      match getNextState (state s) "DATA_COMPLETE" with
      | None => None
      | Some ns =>
          Some (transitioned (S n) "DATA_COMPLETE" ns
                  (set_messageCount (messageCount s + 1)
                     (set_completedAt (Some (clock n))
                        (set_messageId (Some mid) s))), 3%nat)
      end
  | OpReset =>
      Some (push_stateHistory
              {| from := state s; to := reset_state s;
                 timestamp := clock (S n); command := Some "RESET" |}
              (set_state (reset_state s)
                 (set_lastActivityAt (clock n)
                    (set_completedAt None
                       (set_dataStartedAt None
                          (set_mailFromAt None
                             (set_messageId None
                                (set_messageData None
                                   (set_rcptTo []
                                      (set_mailFrom None s))))))))), 2%nat)
  | OpActivity => Some (set_lastActivityAt (clock n) s, 1%nat)
  end.

(** The manager operation behind a [SessionOp]; the result is dropped. *)
Definition apply (op : SessionOp) (sessionId : string) : Mgr unit :=
  match op with
  | OpHello h => handleHello clock sessionId h;; mret tt
  | OpAuthentication u => handleAuthentication clock sessionId u;; mret tt
  | OpMailFrom sender => handleMailFrom clock sessionId sender;; mret tt
  | OpRcptTo recipient => handleRcptTo clock sessionId recipient;; mret tt
  | OpDataStart => handleDataStart clock sessionId;; mret tt
  | OpDataComplete mid => handleDataComplete clock sessionId mid;; mret tt
  | OpReset => resetForNewMessage clock sessionId
  | OpActivity => updateActivity clock sessionId
  end.

(** The world after an operation that updated session [sessionId] to [s']
    and read the clock [k] times. *)
Definition updated (sessionId : string) (s' : SMTPSession) (k : nat)
    (w : World) : World :=
  {| sessions := <[sessionId := s']> (sessions w); ticks := (k + ticks w)%nat |}.

(** The outcome of a handler in terms of [effect]. *)
Definition outcome (op : SessionOp) (sessionId : string) (s : SMTPSession)
    (w : World) : option SMTPSession * World :=
  match effect (ticks w) op s with
  | Some (s', k) => (Some s', updated sessionId s' k w)
  | None => (None, w)
  end.

(** A call of the manager: the lifecycle operations and the operations on
    one session. *)
Inductive Call :=
| CreateSession (sessionId : string) (conn : ConnectionMetadata)
| DeleteSession (sessionId : string)
| CleanupExpiredSessions
| OnSession (sessionId : string) (op : SessionOp).

Definition exec (c : Call) : Mgr unit :=
  match c with
  | CreateSession sessionId conn => createSession clock sessionId conn;; mret tt
  | DeleteSession sessionId => deleteSession sessionId;; mret tt
  | CleanupExpiredSessions => cleanupExpiredSessions clock;; mret tt
  | OnSession sessionId op => apply op sessionId
  end.

(** The manager after a sequence of calls on a fresh manager. *)
Definition execAll (cs : list Call) : World :=
  fold_left (fun w c => (exec c w).2) cs init.

End SessionEffects.

(* ===================================================================== *)
(** * Notions used in the statements *)
(* ===================================================================== *)

Section Notions.
Import Database Validator SessionState SessionManager Server.

(** A value passes the inbox_id format check when it is a non-empty
    string that matches the legacy-token or address pattern. *)
Definition username_well_formed (v : JsValue) : bool :=
  match v with
  | JsString s => negb (String.eqb s "") && validateInboxIdFormat s
  | _ => false
  end.

(** A value passes the API key format check when it is a non-empty
    string that matches the key pattern. *)
Definition password_well_formed (v : JsValue) : bool :=
  match v with
  | JsString s => negb (String.eqb s "") && validateApiKeyFormat s
  | _ => false
  end.

(** The expiry timestamp of a key is present and strictly before the
    evaluation time. *)
Definition expired (parseDate : string -> option Z) (now : Z)
    (apiKey : MockApiKey.t) : Prop :=
  exists s t, MockApiKey.expires_at apiKey = Some s
              /\ parseDate s = Some t /\ t < now.

(** The [authenticated] flag is set exactly when the [user] is present. *)
Definition flag_matches_user (s : SMTPSession) : Prop :=
  authenticated s = true <-> is_Some (user s).

(** Successive clock readings never go back. *)
Definition clock_monotone (clock : nat -> Z) : Prop :=
  forall i j, (i <= j)%nat -> clock i <= clock j.

(** Every two consecutive entries of the history have timestamps related
    by [R]. *)
Definition history_ordered (R : Z -> Z -> Prop) (s : SMTPSession) : Prop :=
  forall i a b,
    stateHistory s !! i = Some a ->
    stateHistory s !! S i = Some b ->
    R (timestamp a) (timestamp b).

(** The history is ordered and made of clock readings among the first
    [n]. *)
Definition history_inv (clock : nat -> Z) (n : nat) (s : SMTPSession)
  : Prop :=
  history_ordered Z.le s
  /\ forall tr, tr ∈ stateHistory s ->
                exists j, (j < n)%nat /\ timestamp tr = clock j.

(** The common start of the four command hooks: the session is found and
    its last-activity timestamp is refreshed. *)
Definition touched (clock : nat -> Z) (w : World) (sid : string)
    (s : SMTPSession) : World :=
  updated sid (set_lastActivityAt (clock (ticks w)) s) 1 w.

(** The answer to a command that is not legal in the state of the
    session: MAIL FROM on a session that is not authenticated is told to
    authenticate, every other case is a sequencing failure. *)
Definition rejection (ev : CommandEvent) (s : SMTPSession) : Reply :=
  match ev with
  | EvMailFrom _ => if authenticated s then badSequence else authRequired
  | _ => badSequence
  end.

(** ** Concrete runs *)

(** The evaluation time of the concrete runs of the pipeline. *)
Definition evaluation_time : Z := 1762000000000.

Definition demo_connection : ConnectionMetadata :=
  {| remoteAddress := "127.0.0.1"; remotePort := Some 52000;
     clientHostname := Some "client.example"; tlsEnabled := false |}.

Definition demo_user : SessionUser :=
  {| inbox_id := "inb_valid1234567890";
     organization_id := "org_abc";
     email_address := "test@agentmail.dev";
     api_key_id := "key_valid_1";
     api_key := "am_validkey12345678901234567890123456" |}.

(** A clock that advances by 10 ms between any two readings. *)
Definition tick_clock (i : nat) : Z := 1762000000000 + 10 * Z.of_nat i.

(** A clock that advances by 10 ms between readings up to the 18th, and
    whose later readings all fall in the same millisecond. *)
Definition burst_clock (i : nat) : Z :=
  1762000000000 + 10 * Z.of_nat (Nat.min i 18).

Definition demo_deliver (stream : string) (s : SMTPSession) : Delivery :=
  Delivered "msg_1".

(** Connect, greet, authenticate, and give a sender. *)
Definition sender_given : list Call :=
  [ CreateSession "s1" demo_connection;
    OnSession "s1" (OpHello (Some "client.example"));
    OnSession "s1" (OpAuthentication demo_user);
    OnSession "s1" (OpMailFrom "test@agentmail.dev") ].

(** One complete transaction. *)
Definition one_transaction : list Call :=
  (sender_given ++
   [ OnSession "s1" (OpRcptTo "to@example.com");
     OnSession "s1" OpDataStart;
     OnSession "s1" (OpDataComplete "msg_1") ])%list.

(** One complete transaction, then what [onMailFrom] calls for the next
    sender. *)
Definition two_senders : list Call :=
  (one_transaction ++
   [ OnSession "s1" OpActivity;
     OnSession "s1" OpReset;
     OnSession "s1" (OpMailFrom "test@agentmail.dev") ])%list.

Definition demo_handle :=
  handle tick_clock Database.getApiKey Database.getInbox
    Validator.mockParseDate demo_deliver.

(** C3 as stated: the command is rejected with the sequencing failure and
    the session is what it was. *)
Definition rejection_leaves_session_unchanged (ev : CommandEvent)
    (w : World) (sid : string) : Prop :=
  forall s,
    sessions w !! sid = Some s ->
    canExecuteCommandInState (state s) (commandName ev) = false ->
    (demo_handle ev sid w).1 = badSequence
    /\ sessions (demo_handle ev sid w).2 !! sid = Some s.

(** C5 as stated: after the new sender command the session is in MAIL_FROM
    with recipients, message data, message id and the three transaction
    timestamps cleared, and the authentication and connection data kept. *)
Definition new_sender_clears_transaction (sender : string) (w : World)
    (sid : string) : Prop :=
  forall s,
    sessions w !! sid = Some s ->
    authenticated s = true ->
    state s = COMPLETED ->
    exists s',
      sessions (onMailFrom tick_clock sender sid w).2 !! sid = Some s'
      /\ state s' = MAIL_FROM
      /\ rcptTo s' = []
      /\ messageData s' = None
      /\ messageId s' = None
      /\ mailFromAt (timestamps s') = None
      /\ dataStartedAt (timestamps s') = None
      /\ completedAt (timestamps s') = None
      /\ user s' = user s
      /\ authenticated s' = authenticated s
      /\ connection s' = connection s
      /\ createdAt (timestamps s') = createdAt (timestamps s)
      /\ authenticatedAt (timestamps s') = authenticatedAt (timestamps s)
      /\ messageCount s' = messageCount s.

(** Fifty recipients after the sender. *)
Definition fifty_recipients : list Call :=
  (sender_given
   ++ replicate 50 (OnSession "s1" (OpRcptTo "to@example.com")))%list.

End Notions.

(* ===================================================================== *)
(** * [src/errors/mapping.ts]: the table of API errors *)
(* ===================================================================== *)

Module ErrorMappings.
Import Mapping.

(** [interface ErrorMapping] *)
Record ErrorMapping := {
  smtpCode : Z;
  enhancedCode : string;
  message : string
}.

Definition mapping (c : Z) (e m : string) : ErrorMapping :=
  {| smtpCode := c; enhancedCode := e; message := m |}.

Definition ERROR_MAPPINGS : gmap string ErrorMapping :=
  list_to_map [
  ("ValidationError", mapping 501 "5.5.2"
     "Invalid message format or parameters");
  ("InvalidEmailFormat", mapping 501 "5.1.3"
     "Invalid email address syntax");
  ("InvalidInboxId", mapping 553 "5.1.3"
     "Invalid mailbox name");
  ("MissingRequiredField", mapping 501 "5.5.2"
     "Required field missing");
  ("InvalidHeaderFormat", mapping 501 "5.6.0"
     "Invalid message header format");
  ("NotFoundError", mapping 550 "5.1.1"
     "Mailbox not found");
  ("InboxNotFound", mapping 550 "5.1.1"
     "Mailbox does not exist");
  ("RecipientNotFound", mapping 556 "5.1.1"
     "Recipient address rejected");
  ("ThreadNotFound", mapping 554 "5.1.1"
     "Referenced thread not found");
  ("MessageNotFound", mapping 554 "5.1.1"
     "Referenced message not found");
  ("AttachmentNotFound", mapping 554 "5.1.1"
     "Referenced attachment not found");
  ("AuthenticationRequired", mapping 530 "5.7.0"
     "Authentication required");
  ("AuthenticationFailed", mapping 535 "5.7.8"
     "Authentication credentials invalid");
  ("ApiKeyInvalid", mapping 535 "5.7.8"
     "Authentication credentials invalid");
  ("ApiKeyRevoked", mapping 535 "5.7.8"
     "Authentication credentials invalid");
  ("ApiKeyExpired", mapping 535 "5.7.8"
     "Authentication credentials invalid");
  ("InsufficientPermissions", mapping 535 "5.7.8"
     "Insufficient permissions for SMTP");
  ("RateLimitError", mapping 450 "4.7.1"
     "Rate limit exceeded, try again later");
  ("TooManyConnections", mapping 421 "4.7.0"
     "Too many connections from your IP");
  ("TooManyAuthAttempts", mapping 454 "4.7.0"
     "Too many authentication attempts");
  ("DailyLimitExceeded", mapping 450 "4.7.1"
     "Daily sending limit exceeded");
  ("LimitExceededError", mapping 552 "5.2.3"
     "Message size exceeds limit");
  ("MessageTooLarge", mapping 552 "5.2.3"
     "Message size exceeds maximum allowed");
  ("TooManyRecipients", mapping 452 "4.5.3"
     "Too many recipients");
  ("TooManyAttachments", mapping 552 "5.3.4"
     "Too many attachments");
  ("AttachmentTooLarge", mapping 552 "5.2.3"
     "Attachment size exceeds limit");
  ("QuotaExceeded", mapping 452 "4.2.2"
     "Mailbox quota exceeded");
  ("MessageRejectedError", mapping 554 "5.7.1"
     "Message rejected by policy");
  ("SpamDetected", mapping 554 "5.7.1"
     "Message rejected as spam");
  ("VirusDetected", mapping 554 "5.7.1"
     "Message rejected - virus detected");
  ("PolicyViolation", mapping 554 "5.7.1"
     "Message rejected by policy");
  ("ContentFiltered", mapping 554 "5.7.1"
     "Message content rejected by filter");
  ("BlacklistedSender", mapping 554 "5.7.1"
     "Sender address blacklisted");
  ("DomainNotVerifiedError", mapping 550 "5.1.8"
     "Sender domain not verified");
  ("SenderNotAuthorized", mapping 550 "5.1.0"
     "Sender address not authorized for this mailbox");
  ("RelayDenied", mapping 550 "5.7.1"
     "Relaying denied");
  ("InvalidSenderDomain", mapping 553 "5.1.8"
     "Invalid sender domain");
  ("AlreadyExistsError", mapping 554 "5.0.0"
     "Resource already exists");
  ("RaceConditionError", mapping 451 "4.0.0"
     "Temporary conflict, please retry");
  ("InboxDisabled", mapping 550 "5.2.1"
     "Mailbox disabled");
  ("InboxSuspended", mapping 550 "5.2.1"
     "Account suspended");
  ("OrganizationSuspended", mapping 550 "5.2.1"
     "Organization account suspended");
  ("TLSRequired", mapping 538 "5.7.11"
     "Encryption required for this operation");
  ("WeakAuthentication", mapping 534 "5.7.9"
     "Authentication mechanism too weak");
  ("CertificateError", mapping 538 "5.7.11"
     "TLS certificate verification failed");
  ("ServerError", mapping 451 "4.3.0"
     "Temporary system error, please retry");
  ("DatabaseError", mapping 451 "4.3.0"
     "Temporary error, please retry");
  ("TimeoutError", mapping 451 "4.4.1"
     "Connection timeout");
  ("ServiceUnavailable", mapping 421 "4.3.0"
     "Service temporarily unavailable");
  ("UpstreamError", mapping 451 "4.4.1"
     "Upstream service error")
  ].

(** An [Error]: the name of its class ([error.constructor.name]) and its
    message. *)
Record JsError := {
  constructorName : string;
  errorMessage : string
}.

(** The members every object literal inherits from [Object.prototype]:
    [ERROR_MAPPINGS[name]] finds them too. *)
Definition OBJECT_PROTOTYPE_KEYS : list string :=
  [ "constructor"; "__proto__"; "__defineGetter__"; "__defineSetter__";
    "__lookupGetter__"; "__lookupSetter__"; "hasOwnProperty";
    "isPrototypeOf"; "propertyIsEnumerable"; "toLocaleString"; "toString";
    "valueOf" ].

(** [c.toLowerCase()] on one ASCII character. *)
Definition lower_ascii (c : ascii) : ascii :=
  let n := nat_of_ascii c in
  if (65 <=? n)%nat && (n <=? 90)%nat then ascii_of_nat (n + 32) else c.

(** [s.toLowerCase()].  Bytes outside ASCII are kept; the characters that
    JavaScript lowers to ASCII from outside it (the Kelvin sign, the dotted
    capital I) cannot complete any of the keywords below. *)
Fixpoint toLowerCase (s : string) : string :=
  match s with
  | EmptyString => EmptyString
  | String c s' => String (lower_ascii c) (toLowerCase s')
  end.

(** [s.includes(sub)] *)
Fixpoint includes (s sub : string) : bool :=
  String.prefix sub s
  || match s with
     | EmptyString => false
     | String _ s' => includes s' sub
     end.

(** The keyword rules that apply when the class is not in the table, in
    the order they are tried. *)
Definition keyword_rules : list (list string * SMTPError) :=
  [ (["not found"; "does not exist"],
     createSMTPError 550 "5.1.1" "Requested resource not found");
    (["rate limit"; "too many"],
     createSMTPError 450 "4.7.1" "Rate limit exceeded");
    (["auth"; "credential"],
     createSMTPError 535 "5.7.8" "Authentication failed");
    (["size"; "large"],
     createSMTPError 552 "5.2.3" "Message too large");
    (["invalid"; "format"],
     createSMTPError 501 "5.5.2" "Invalid parameter");
    (["timeout"],
     createSMTPError 451 "4.4.1" "Timeout occurred");
    (["rejected"; "denied"],
     createSMTPError 554 "5.7.1" "Message rejected") ].

(** The chain of [if (message.includes(..) || ..) return ..;] with its
    final default. *)
Fixpoint by_keyword (rules : list (list string * SMTPError)) (msg : string)
  : SMTPError :=
  match rules with
  | [] => createSMTPError 451 "4.3.0" "Temporary failure, please retry"
  | (keywords, response) :: rest =>
      if existsb (includes msg) keywords then response
      else by_keyword rest msg
  end.

(** [mapToSMTPError].  [None] stands for the one case without an SMTP
    error to speak of: the class is named like a member of
    [Object.prototype], the lookup finds that member, and the error is
    built from its missing fields. *)
Definition mapToSMTPError (error : JsError) : option SMTPError :=
  let errorName := constructorName error in
  match ERROR_MAPPINGS !! errorName with
  | Some m =>
      Some (createSMTPError (smtpCode m) (enhancedCode m) (message m))
  | None =>
      if bool_decide (errorName ∈ OBJECT_PROTOTYPE_KEYS) then None
      else Some (by_keyword keyword_rules (toLowerCase (errorMessage error)))
  end.

End ErrorMappings.

(* ===================================================================== *)
(** * [src/api/agentmail-client.ts] *)
(* ===================================================================== *)

Module ApiClient.
Import HttpToSmtp.

(** The [apiBody] of an error: the body of the SDK error, or the object
    [{ error: text }] the wrapper builds. *)
Inductive ApiBody :=
| SdkBody (body : string)
| ErrorText (text : string).

(** [class SMTPAgentMailError]: the HTTP status, the mapped SMTP error and
    the body of the API error. *)
Record SMTPAgentMailError := {
  httpStatus : Z;
  smtpError : SMTPErrorResult;
  apiBody : ApiBody
}.

(** [AgentMail.SendMessageResponse] *)
Record SendMessageResponse := {
  messageId : string;
  threadId : string
}.

(** How the SDK call [inboxes.messages.send] ends: it resolves, or it
    throws a timeout error, an API error (with its status code, if any, and
    its body) or anything else (rendered with [String(error)]). *)
Inductive SdkOutcome :=
| SdkResolved (response : SendMessageResponse)
| SdkTimeout
| SdkApiError (statusCode : option Z) (body : string)
| SdkOther (rendered : string).

(** [x || 500] on an optional number. *)
Definition or_500 (x : option Z) : Z :=
  match x with
  | Some n => if n =? 0 then 500 else n
  | None => 500
  end.

(** [sendMessage], given how the SDK call ends: the response, or the
    error thrown. *)
Definition sendMessage (sdk : SdkOutcome)
  : SendMessageResponse + SMTPAgentMailError :=
  match sdk with
  | SdkResolved response => inl response
  | SdkTimeout =>
      inr {| httpStatus := 504; smtpError := mapHttpToSmtp 504;
             apiBody := ErrorText "timeout" |}
  | SdkApiError statusCode body =>
      let status := or_500 statusCode in
      inr {| httpStatus := status; smtpError := mapHttpToSmtp status;
             apiBody := SdkBody body |}
  | SdkOther rendered =>
      inr {| httpStatus := 502; smtpError := mapHttpToSmtp 502;
             apiBody := ErrorText rendered |}
  end.

End ApiClient.

(* ===================================================================== *)
(** * [src/server.ts]: the [catch] block of [onData] *)
(* ===================================================================== *)

Module DataErrors.
Import Mapping.

(** What the [try] block of [onData] can throw: the error of the API
    client, or another [Error]. *)
Inductive Thrown :=
| ThrownApi (e : ApiClient.SMTPAgentMailError)
| ThrownError (e : ErrorMappings.JsError).

(** The error passed to the callback, in the order of the [catch] block:
    an API error is relayed with its mapped code; an [Error] whose message
    contains "Invalid" is answered 550 5.1.1 with that message; any other
    goes through [mapToSMTPError]. *)
Definition onDataCatch (error : Thrown) : option SMTPError :=
  match error with
  | ThrownApi e =>
      Some (createSMTPError
              (HttpToSmtp.smtpCode (ApiClient.smtpError e))
              (HttpToSmtp.enhancedCode (ApiClient.smtpError e))
              (HttpToSmtp.message (ApiClient.smtpError e)))
  | ThrownError e =>
      if ErrorMappings.includes (ErrorMappings.errorMessage e) "Invalid"
      then Some (createSMTPError SMTPErrorCode.MAILBOX_NOT_FOUND "5.1.1"
                   (ErrorMappings.errorMessage e))
      else ErrorMappings.mapToSMTPError e
  end.

End DataErrors.

(* ===================================================================== *)
(** * [src/session/session-manager.ts]: cleanup loop and statistics *)
(* ===================================================================== *)

Module ManagerMonitoring.
Import SessionState SessionManager.

(** [inactiveMs > SESSION_TIMEOUT_MS] at the time [now] *)
Definition inactive (now : Z) (session : SMTPSession) : bool :=
  bool_decide (SESSION_TIMEOUT_MS
               < now - lastActivityAt (timestamps session)).

(** One turn of the loop of [cleanupExpiredSessions], on the count and the
    [Map]: an inactive session is deleted and counted. *)
Definition cleanupTurn (now : Z) (acc : nat * gmap string SMTPSession)
    (entry : string * SMTPSession) : nat * gmap string SMTPSession :=
  if inactive now entry.2 then (S acc.1, delete entry.1 acc.2) else acc.

(** The loop [for (const [sessionId, session] of this.sessions.entries())]
    as written, over the entries of the [Map]. *)
Definition cleanupLoop (now : Z) : Mgr nat :=
  fun w =>
    let r := foldl (cleanupTurn now) (0%nat, sessions w)
               (map_to_list (sessions w)) in
    (r.1, {| sessions := r.2; ticks := ticks w |}).

(** [cleanupExpiredSessions], with its loop as written. *)
Definition cleanupExpiredSessionsLoop (clock : nat -> Z) : Mgr nat :=
  now ← new_Date clock;
  cleanupLoop now.

(** The result of [getStats]: [byState] has one entry per state. *)
Record Stats := {
  total : nat;
  byState : SMTPSessionState -> nat
}.

(** [stats.byState[session.state]++] *)
Definition increment (st : SMTPSessionState)
    (counts : SMTPSessionState -> nat) : SMTPSessionState -> nat :=
  fun q => if decide (q = st) then S (counts q) else counts q.

Definition getStats : Mgr Stats :=
  fun w =>
    ({| total := size (sessions w);
        byState :=
          map_fold (fun _ session counts => increment (state session) counts)
            (fun _ => 0%nat) (sessions w) |},
     w).

End ManagerMonitoring.

(* ===================================================================== *)
(** * [src/session/session-store.ts]: [MemorySessionStore] *)
(* ===================================================================== *)

Module MemorySessionStore.
Import SessionState.

(** The [Map] of the store: its entries in insertion order. *)
Definition Store : Type := list (string * SMTPSession).

(** [new Map()] *)
Definition empty : Store := [].

(** [map.set(k, v)]: an existing key keeps its place, a new one goes to
    the end. *)
Fixpoint mapSet (k : string) (v : SMTPSession) (m : Store) : Store :=
  match m with
  | [] => [(k, v)]
  | (k', v') :: rest =>
      if String.eqb k' k then (k, v) :: rest
      else (k', v') :: mapSet k v rest
  end.

(** [map.get(k)] *)
Fixpoint mapGet (k : string) (m : Store) : option SMTPSession :=
  match m with
  | [] => None
  | (k', v') :: rest => if String.eqb k' k then Some v' else mapGet k rest
  end.

(** [map.delete(k)]: the map without the key, and whether it was there. *)
Fixpoint mapDelete (k : string) (m : Store) : bool * Store :=
  match m with
  | [] => (false, [])
  | (k', v') :: rest =>
      if String.eqb k' k then (true, rest)
      else let r := mapDelete k rest in (r.1, (k', v') :: r.2)
  end.

Definition create (session : SMTPSession) (store : Store)
  : SMTPSession * Store :=
  (session, mapSet (id session) session store).

(** [this.sessions.get(sessionId) ?? null] *)
Definition get (sessionId : string) (store : Store) : option SMTPSession :=
  mapGet sessionId store.

Definition update (session : SMTPSession) (store : Store)
  : SMTPSession * Store :=
  (session, mapSet (id session) session store).

Definition delete (sessionId : string) (store : Store) : bool * Store :=
  mapDelete sessionId store.

(** [now] is the [Date.now()] the method takes. *)
Definition findExpired (now : Z) (maxAgeMs : Z) (store : Store)
  : list string :=
  (filter (fun entry : string * SMTPSession =>
             maxAgeMs < now - lastActivityAt (timestamps entry.2))
          store).*1.

(** [counts[session.state]++] over the values, from all zeros. *)
Definition countByState (store : Store) : SMTPSessionState -> nat :=
  foldl (fun counts entry =>
           ManagerMonitoring.increment (state entry.2) counts)
        (fun _ => 0%nat) store.

Definition count (store : Store) : nat := length store.

Definition clear (store : Store) : Store := [].

(** A call of the store that changes it. *)
Inductive StoreCall :=
| Create (session : SMTPSession)
| Update (session : SMTPSession)
| Delete (sessionId : string)
| Clear.

Definition call (c : StoreCall) (store : Store) : Store :=
  match c with
  | Create session => (create session store).2
  | Update session => (update session store).2
  | Delete sessionId => (delete sessionId store).2
  | Clear => clear store
  end.

(** The store after a sequence of calls on a new store. *)
Definition callAll (cs : list StoreCall) : Store :=
  fold_left (fun store c => call c store) cs empty.

End MemorySessionStore.

(* ===================================================================== *)
(** * Notions used in the statements on the error mappings *)
(* ===================================================================== *)

Section ReplyClasses.

(** The class digit of an enhanced status code [c.s.d]. *)
Definition enhanced_class (enhanced : string) : option Z :=
  match enhanced with
  | String c (String "." _) => Some (Z.of_nat (nat_of_ascii c) - 48)
  | _ => None
  end.

(** A reply code and an enhanced code of the same class: 2 (success),
    4 (temporary failure) or 5 (permanent failure). *)
Definition same_class (code : Z) (enhanced : string) : Prop :=
  enhanced_class enhanced = Some (code / 100).

(** A failure reply: temporary (4yz) or permanent (5yz). *)
Definition failure_code (code : Z) : Prop := 400 <= code < 600.

End ReplyClasses.

(* ===================================================================== *)
(** * Notions used in the statements on the pipeline *)
(* ===================================================================== *)

Section KeyNotions.
Import Database Validator.

(** The expiry check of STEP 5 fires: the expiry timestamp is a non-empty
    string that parses to a date before the evaluation time. *)
Definition expiry_passed (parseDate : string -> option Z) (now : Z)
    (apiKey : MockApiKey.t) : Prop :=
  exists s t, MockApiKey.expires_at apiKey = Some s /\ s <> ""
              /\ parseDate s = Some t /\ t < now.

(** A key that passes the three checks made on it: not revoked, not
    expired, and holding the [smtp:send] scope. *)
Definition key_admitted (parseDate : string -> option Z) (now : Z)
    (apiKey : MockApiKey.t) : Prop :=
  present (MockApiKey.revoked_at apiKey) = false
  /\ ~ expiry_passed parseDate now apiKey
  /\ "smtp:send" ∈ MockApiKey.scopes apiKey.

(** The user the pipeline returns for an inbox and a key. *)
Definition user_of (inbox : MockInbox.t) (apiKey : MockApiKey.t)
  : AuthErrors.AuthenticatedUser :=
  {| AuthErrors.inbox_id := MockInbox.inbox_id inbox;
     AuthErrors.organization_id := MockInbox.organization_id inbox;
     AuthErrors.email_address := MockInbox.email_address inbox;
     AuthErrors.api_key_id := MockApiKey.api_key_id apiKey |}.

End KeyNotions.

(* ===================================================================== *)
(** * Notions used in the statements on the formats *)
(* ===================================================================== *)

Section FormatNotions.
Import Regex.

(** The character classes a pattern is made of. *)
Fixpoint alphabet (r : regex) : list (ascii * ascii) :=
  match r with
  | Never | Empty => []
  | Chars ranges => ranges
  | Seq r1 r2 | Alt r1 r2 => (alphabet r1 ++ alphabet r2)%list
  | Rep r' _ _ => alphabet r'
  end.

(** Every character of [s] is in one of the [ranges]. *)
Definition all_in (ranges : list (ascii * ascii)) (s : string) : bool :=
  forallb (fun c => in_ranges c ranges) (list_ascii_of_string s).

(** [[a-zA-Z0-9._%+@-]] *)
Definition address_chars : list (ascii * ascii) :=
  (alnum ++ [ch "."; ch "_"; ch "%"; ch "+"; ch "-"; ch "@"])%list.

(** [[a-zA-Z0-9_]] *)
Definition token_chars : list (ascii * ascii) := (alnum ++ [ch "_"])%list.

End FormatNotions.

(* ===================================================================== *)
(** * Notions used in the statements on the sessions *)
(* ===================================================================== *)

Section SessionNotions.
Import SessionState SessionManager.

(** The state a transition history leads to, from [INIT]. *)
Definition state_after (history : list StateTransition) : SMTPSessionState :=
  match last history with
  | Some transition => to transition
  | None => INIT
  end.

(** The history starts in [INIT], every entry starts where the entry
    before it ended, and the last one ends in the state of the session. *)
Definition history_chained (s : SMTPSession) : Prop :=
  (forall a, stateHistory s !! 0%nat = Some a -> from a = INIT)
  /\ (forall i a b,
        stateHistory s !! i = Some a ->
        stateHistory s !! S i = Some b ->
        from b = to a)
  /\ state_after (stateHistory s) = state s.

(** The number of transitions into [COMPLETED]. *)
Definition completions (history : list StateTransition) : nat :=
  length (filter (fun transition => to transition = COMPLETED) history).

(** What a session holds of the current message, by state: nothing
    before a sender is given; a sender and no recipient in [MAIL_FROM];
    a sender and at least one recipient from [RCPT_TO] on; and a message
    identifier exactly in [COMPLETED].  The message body is never held. *)
Definition transaction_consistent (s : SMTPSession) : Prop :=
  messageData s = None
  /\ match state s with
     | INIT | HELLO | AUTHENTICATED =>
         mailFrom s = None /\ rcptTo s = [] /\ messageId s = None
     | MAIL_FROM =>
         is_Some (mailFrom s) /\ rcptTo s = [] /\ messageId s = None
     | RCPT_TO | DATA =>
         is_Some (mailFrom s) /\ rcptTo s <> [] /\ messageId s = None
     | COMPLETED =>
         is_Some (mailFrom s) /\ rcptTo s <> [] /\ is_Some (messageId s)
     end.

(** An authenticated session is past the greeting. *)
Definition authenticated_past_greeting (s : SMTPSession) : Prop :=
  authenticated s = true -> state s <> INIT /\ state s <> HELLO.

End SessionNotions.

(* ===================================================================== *)
(** * Notions used in the statements on the manager as a whole *)
(* ===================================================================== *)

Section ManagerNotions.
Import SessionState SessionManager.

(** The seven states. *)
Definition all_states : list SMTPSessionState :=
  [INIT; HELLO; AUTHENTICATED; MAIL_FROM; RCPT_TO; DATA; COMPLETED].

(** The number of sessions of a [Map] that are in a given state. *)
Definition sessions_in (q : SMTPSessionState)
    (m : gmap string SMTPSession) : nat :=
  size (filter (fun kv : string * SMTPSession => state kv.2 = q) m).

End ManagerNotions.

(* ===================================================================== *)
(** * Concrete runs of the hooks *)
(* ===================================================================== *)

Section HookRuns.
Import SessionState SessionManager Server.


(** The valid credentials of the mock data. *)
Definition demo_auth : Authentication :=
  {| username := Some "inb_valid1234567890";
     password := Some "am_validkey12345678901234567890123456" |}.

(** A sender and one recipient. *)
Definition recipient_given : list Call :=
  (sender_given ++ [ OnSession "s1" (OpRcptTo "to@example.com") ])%list.

(** A delivery that fails with the answer to an API timeout. *)
Definition failing_deliver (stream : string) (s : SMTPSession) : Delivery :=
  Failed (Mapping.createSMTPError 451 "4.4.1" "Gateway timeout, please retry").

End HookRuns.


(* ===================================================================== *)
(** * The server as a whole *)
(* ===================================================================== *)

Section ServerRuns.
Import SessionState SessionManager Server.

(** What happens to the server: a client connects, sends a command,
    closes the connection, or the cleanup timer fires.  Each hook runs to
    its end before the next event. *)
Inductive ServerEvent :=
| Connected (sessionId : string) (conn : ConnectionMetadata)
| Commanded (ev : CommandEvent) (sessionId : string)
| Closed (sessionId : string)
| CleanupTimer.

Variable clock : nat -> Z.
Variable getApiKey : string -> Database.DbResult Database.MockApiKey.t.
Variable getInbox : string -> Database.DbResult Database.MockInbox.t.
Variable parseDate : string -> option Z.
Variable deliver : string -> SMTPSession -> Delivery.

Definition serve (e : ServerEvent) : Mgr unit :=
  match e with
  | Connected sessionId conn => onConnect clock sessionId conn;; mret tt
  | Commanded ev sessionId =>
      handle clock getApiKey getInbox parseDate deliver ev sessionId;;
      mret tt
  | Closed sessionId => onClose sessionId
  | CleanupTimer => cleanupExpiredSessions clock;; mret tt
  end.

(** The manager of the server after a sequence of events. *)
Definition serveAll (es : list ServerEvent) : World :=
  fold_left (fun w e => (serve e w).2) es init.

(** The connection an event is about; the cleanup timer is about none. *)
Definition event_session (e : ServerEvent) : option string :=
  match e with
  | Connected sessionId _ | Commanded _ sessionId | Closed sessionId =>
      Some sessionId
  | CleanupTimer => None
  end.

(** The manager operations a command hook applies to its session: never
    the greeting, and the sender only on an authenticated session. *)
Definition guarded (op : SessionOp) (s : SMTPSession) : Prop :=
  match op with
  | OpHello _ => False
  | OpMailFrom _ => authenticated s = true
  | _ => True
  end.

(** A session after a sequence of such operations. *)
Inductive steps : SMTPSession -> SMTPSession -> Prop :=
| steps_refl s : steps s s
| steps_effect s op n s1 k s' :
    guarded op s ->
    effect clock n op s = Some (s1, k) ->
    steps s1 s' ->
    steps s s'.

(** The world [w'] is [w] with the session [s'] under [sid], whatever the
    number of clock readings taken in between. *)
Definition at_session (sid : string) (s' : SMTPSession) (w w' : World)
  : Prop :=
  exists k, w' = updated sid s' k w.

(** A session as the server keeps them: greeted, authenticated exactly
    when it is past [HELLO], and with a user when authenticated. *)
Definition served (s : SMTPSession) : Prop :=
  state s <> INIT
  /\ (authenticated s = true <-> state s <> HELLO)
  /\ (authenticated s = true -> is_Some (user s)).

End ServerRuns.

Section ServerDemo.
Import SessionState SessionManager Server.

(** A client connects, authenticates with the valid credentials of the
    mock data and gives a sender, while another client has connected. *)
Definition demo_events : list ServerEvent :=
  [ Connected "s1" demo_connection;
    Connected "s2" demo_connection;
    Commanded (EvAuth demo_auth) "s1";
    Commanded (EvMailFrom "test@agentmail.dev") "s1" ].

Definition demo_serveAll : list ServerEvent -> World :=
  serveAll tick_clock Database.getApiKey Database.getInbox
    Validator.mockParseDate demo_deliver.

End ServerDemo.

(* ===================================================================== *)
(** * Properties of the error taxonomy *)
(* ===================================================================== *)

Section Taxonomy.
Import AuthErrors.

(** Eight of the nine reasons of the credential bucket share the generic
    response. *)
Lemma AUTH_ERRORS_generic_but_suspended (c : AuthErrorCode) :
  in_credential_bucket c = true ->
  c <> INBOX_SUSPENDED ->
  client_tuple c = generic_tuple.
Proof. destruct c; intros Hb Hc; try discriminate; try congruence; reflexivity. Qed.

(** C1 (at the reason the table treats differently).  [INBOX_SUSPENDED]
    belongs to the credential bucket and keeps the shared status 535 and
    subcode 5.7.8, but its client message is "Account suspended - contact
    support", not the shared "Authentication credentials invalid". *)
Theorem AUTH_ERRORS_suspended_not_generic :
  in_credential_bucket INBOX_SUSPENDED = true
  /\ client_tuple INBOX_SUSPENDED
     = (535, "5.7.8", "Account suspended - contact support")
  /\ client_tuple INBOX_SUSPENDED <> generic_tuple
  /\ client_tuple INBOX_DISABLED = generic_tuple.
Proof. repeat split; discriminate. Qed.

End Taxonomy.

Section HttpMapping.
Import HttpToSmtp.

Lemma HTTP_TO_SMTP_MAPPINGS_cases (h : Z) :
  HTTP_TO_SMTP_MAPPINGS !! h = None
  \/ h ∈ [200; 201; 400; 401; 403; 404; 413; 422; 429; 500; 502; 503; 504].
Proof.
  destruct (HTTP_TO_SMTP_MAPPINGS !! h) as [m|] eqn:E; [right | by left].
  apply elem_of_list_to_map_2 in E.
  repeat (apply elem_of_cons in E as [E | E];
          [injection E as -> _; set_solver | ]).
  by apply elem_of_nil in E.
Qed.

Ltac http_cases h :=
  destruct (HTTP_TO_SMTP_MAPPINGS_cases h) as [E | E];
  [ unfold mapHttpToSmtp, isRetryableHttpStatus; rewrite E
  | repeat (apply elem_of_cons in E as [-> | E]);
    [ .. | by apply elem_of_nil in E ] ].

(** C10.  HTTP client errors other than 429 become permanent SMTP
    failures that are not retryable, HTTP server errors become temporary
    SMTP failures that are retryable, 429 becomes 450 and is retryable,
    and [isRetryableHttpStatus] agrees with the [retryable] flag of
    [mapHttpToSmtp] on every status from 400 up. *)
Theorem mapHttpToSmtp_families (h : Z) :
  (400 <= h < 500 -> h <> 429 ->
     500 <= smtpCode (mapHttpToSmtp h) <= 599
     /\ retryable (mapHttpToSmtp h) = false)
  /\ (500 <= h ->
        400 <= smtpCode (mapHttpToSmtp h) <= 499
        /\ retryable (mapHttpToSmtp h) = true)
  /\ (smtpCode (mapHttpToSmtp 429) = 450
      /\ retryable (mapHttpToSmtp 429) = true)
  /\ (400 <= h ->
        isRetryableHttpStatus h = retryable (mapHttpToSmtp h)).
Proof.
  split; [| split; [| split]].
  - intros Hr Hne. http_cases h; try lia; try (vm_compute; intuition congruence).
    replace ((200 <=? h) && (h <? 300)) with false by lia.
    replace ((400 <=? h) && (h <? 500)) with true by lia.
    simpl. lia.
  - intros Hr. http_cases h; try lia; try (vm_compute; intuition congruence).
    replace ((200 <=? h) && (h <? 300)) with false by lia.
    replace ((400 <=? h) && (h <? 500)) with false by lia.
    simpl. lia.
  - by vm_compute.
  - intros Hr. http_cases h; try lia; try reflexivity.
    destruct (decide (h < 500)).
    + replace ((200 <=? h) && (h <? 300)) with false by lia.
      replace ((400 <=? h) && (h <? 500)) with true by lia.
      simpl.
      assert (h <> 429) by (intros ->; vm_compute in E; discriminate).
      lia.
    + replace ((200 <=? h) && (h <? 300)) with false by lia.
      replace ((400 <=? h) && (h <? 500)) with false by lia.
      simpl. lia.
Qed.

End HttpMapping.

(* ===================================================================== *)
(** * The format validators *)
(* ===================================================================== *)

Section Formats.
Import Regex Validator.

Lemma matches_Never (s : string) : matches Never s = false.
Proof. induction s; [reflexivity | exact IHs]. Qed.

(** A counted repetition of one character class checks the length and the
    characters. *)
Lemma matches_Rep_Chars (cs : list (ascii * ascii)) (s : string) :
  forall lo hi,
    matches (Rep (Chars cs) lo (Some hi)) s
    = (lo <=? String.length s)%nat && (String.length s <=? hi)%nat
      && forallb (fun c => in_ranges c cs) (list_ascii_of_string s).
Proof.
  induction s as [| c s IH]; intros lo hi.
  - cbn. destruct lo; reflexivity.
  - cbn [matches deriv String.length list_ascii_of_string forallb].
    destruct hi as [| h].
    + rewrite matches_Never. cbn. by rewrite andb_false_r.
    + destruct (in_ranges c cs);
        cbn [seq fmap option_fmap option_map Nat.pred].
      * rewrite IH. destruct lo; cbn; reflexivity.
      * rewrite matches_Never. cbn. by rewrite !andb_false_r.
Qed.

Lemma in_single (c : ascii) (x : string) (a : ascii) :
  ch x = (a, a) -> in_ranges c [ch x] = true -> c = a.
Proof.
  intros -> H. cbn in H. rewrite orb_false_r in H.
  apply andb_true_iff in H as [H1 H2].
  apply Nat.leb_le in H1, H2.
  rewrite <- (ascii_nat_embedding c), <- (ascii_nat_embedding a).
  f_equal. lia.
Qed.

(** The API key pattern accepts exactly the prefix [am_] followed by 32 to
    128 alphanumeric characters. *)
Lemma validateApiKeyFormat_spec (s : string) :
  validateApiKeyFormat s = true <->
  exists rest,
    s = "am_" +:+ rest
    /\ (32 <= String.length rest <= 128)%nat
    /\ forallb (fun c => in_ranges c alnum) (list_ascii_of_string rest) = true.
Proof.
  unfold validateApiKeyFormat, test, API_KEY_REGEX.
  split.
  - destruct s as [| c1 [| c2 [| c3 rest]]];
      cbn [matches deriv Lit nullable andb alt seq];
      try discriminate;
      (destruct (in_ranges c1 [("a"%char, "a"%char)]) eqn:E1;
       cbn [matches deriv Lit nullable andb alt seq];
       rewrite ?matches_Never; try discriminate);
      try (destruct (in_ranges c2 [("m"%char, "m"%char)]) eqn:E2;
           cbn [matches deriv Lit nullable andb alt seq];
           rewrite ?matches_Never; try discriminate);
      try (destruct (in_ranges c3 [("_"%char, "_"%char)]) eqn:E3;
           cbn [matches deriv Lit nullable andb alt seq];
           rewrite ?matches_Never; try discriminate).
    rewrite matches_Rep_Chars. intros H.
    apply andb_true_iff in H as [H Hall].
    apply andb_true_iff in H as [Hlo Hhi].
    apply Nat.leb_le in Hlo, Hhi.
    exists rest. repeat split; try done.
    apply (in_single c1 "a" "a"%char eq_refl) in E1.
    apply (in_single c2 "m" "m"%char eq_refl) in E2.
    apply (in_single c3 "_" "_"%char eq_refl) in E3.
    by subst.
  - intros (rest & -> & [Hlo Hhi] & Hall).
    change (matches (Rep (Chars alnum) 32 (Some 128%nat)) rest = true).
    rewrite matches_Rep_Chars, Hall.
    apply Nat.leb_le in Hlo, Hhi. by rewrite Hlo, Hhi.
Qed.

(** Alternation, with or without the simplifying constructor. *)
Lemma matches_Alt_alt (s : string) :
  forall a b,
    matches (Alt a b) s = matches a s || matches b s
    /\ matches (alt a b) s = matches a s || matches b s.
Proof.
  induction s as [| c s IH]; intros a b.
  - split; [reflexivity |].
    destruct a, b; cbn; rewrite ?orb_false_r; reflexivity.
  - assert (H : matches (Alt a b) (String c s)
                = matches a (String c s) || matches b (String c s))
      by (cbn [matches deriv]; apply IH).
    split; [exact H |].
    destruct a, b; cbn [alt]; try exact H;
      rewrite ?matches_Never, ?orb_false_r; reflexivity.
Qed.

(** The inbox_id pattern accepts the legacy tokens: the prefix [inb_]
    followed by 12 to 32 alphanumeric characters. *)
Lemma validateInboxIdFormat_legacy (rest : string) :
  (12 <= String.length rest <= 32)%nat ->
  forallb (fun c => in_ranges c alnum) (list_ascii_of_string rest) = true ->
  validateInboxIdFormat ("inb_" +:+ rest) = true.
Proof.
  intros [Hlo Hhi] Hall.
  unfold validateInboxIdFormat, test, INBOX_ID_REGEX.
  rewrite (proj1 (matches_Alt_alt _ _ _)). apply orb_true_iff. left.
  change (matches (Rep (Chars alnum) 12 (Some 32%nat)) rest = true).
  rewrite matches_Rep_Chars, Hall.
  apply Nat.leb_le in Hlo, Hhi. by rewrite Hlo, Hhi.
Qed.

End Formats.

(* ===================================================================== *)
(** * Properties of the authentication pipeline *)
(* ===================================================================== *)

Section PipelineProperties.
Import AuthErrors Database Validator.

Variable getApiKey : string -> DbResult MockApiKey.t.
Variable getInbox : string -> DbResult MockInbox.t.
Variable parseDate : string -> option Z.
Variable now : Z.

Let validate := validateSMTPCredentials getApiKey getInbox parseDate now.

Lemma well_formed_username_string (s : string) :
  validateInboxIdFormat s = true -> username_well_formed (JsString s) = true.
Proof.
  destruct s; [by vm_compute |].
  intros H. cbn [username_well_formed password_well_formed].
  rewrite H. reflexivity.
Qed.

Lemma well_formed_password_string (s : string) :
  validateApiKeyFormat s = true -> password_well_formed (JsString s) = true.
Proof.
  destruct s; [by vm_compute |].
  intros H. cbn [username_well_formed password_well_formed].
  rewrite H. reflexivity.
Qed.

Lemma validate_username_malformed (username password : JsValue) :
  username_well_formed username = false ->
  exists lm,
    run (validate username password)
    = (AuthFailure (createAuthError INVALID_INBOX_ID_FORMAT lm), []).
Proof.
  intros H. unfold run, validate, validateSMTPCredentials.
  destruct username as [| | b | n | s]; simpl in *;
    try (destruct b); try (destruct (n =? 0));
    try (eexists; reflexivity).
  destruct (String.eqb s "") eqn:Es; simpl in *;
    [eexists; reflexivity |].
  rewrite H. simpl. eexists; reflexivity.
Qed.

Lemma validate_password_malformed (username password : JsValue) :
  username_well_formed username = true ->
  password_well_formed password = false ->
  exists lm,
    run (validate username password)
    = (AuthFailure (createAuthError INVALID_API_KEY_FORMAT lm), []).
Proof.
  intros Hu Hp. unfold run, validate, validateSMTPCredentials.
  destruct username as [| | b | n | s]; try discriminate.
  simpl in Hu. apply andb_true_iff in Hu as [Hne Hfmt].
  cbn [truthy typeof as_string]. rewrite Hne, Hfmt. cbn [negb orb String.eqb].
  change (String.eqb "string" "string") with true. cbn [negb orb].
  unfold step2.
  destruct password as [| | b | n | s']; simpl in *;
    try (destruct b); try (destruct (n =? 0));
    try (eexists; reflexivity).
  destruct (String.eqb s' "") eqn:Es; simpl in *;
    [eexists; reflexivity |].
  rewrite Hp. simpl. eexists; reflexivity.
Qed.

(** Once both formats are accepted the pipeline is at STEP 3. *)
Lemma validate_well_formed (username password : string) :
  validateInboxIdFormat username = true ->
  validateApiKeyFormat password = true ->
  validate (JsString username) (JsString password)
  = step3 getApiKey getInbox parseDate now username password.
Proof.
  intros Hu Hp. unfold validate, validateSMTPCredentials, step2.
  pose proof (well_formed_username_string _ Hu) as Hu'.
  pose proof (well_formed_password_string _ Hp) as Hp'.
  simpl in Hu', Hp'.
  apply andb_true_iff in Hu' as [Hu1 _], Hp' as [Hp1 _].
  cbn [truthy typeof as_string]. rewrite Hu1, Hp1, Hu, Hp.
  reflexivity.
Qed.

(** C2.  When the username or the password fails its format check
    (not a string, empty, or not matching its pattern) the pipeline
    returns a format failure and has called neither [getApiKey] nor
    [getInbox]: the log of lookups is empty. *)
Theorem malformed_input_no_lookup (username password : JsValue) :
  username_well_formed username = false
  \/ password_well_formed password = false ->
  exists e,
    run (validate username password) = (AuthFailure e, [])
    /\ length (run (validate username password)).2 = 0%nat
    /\ code e = (if username_well_formed username
                 then INVALID_API_KEY_FORMAT
                 else INVALID_INBOX_ID_FORMAT)
    /\ (smtpCode e, enhancedCode e, message e) = generic_tuple.
Proof.
  intros H.
  destruct (username_well_formed username) eqn:Hu.
  - destruct H as [H | H]; [discriminate |].
    destruct (validate_password_malformed username password Hu H)
      as (lm & Hr).
    eexists. rewrite Hr. repeat split.
  - destruct (validate_username_malformed username password Hu)
      as (lm & Hr).
    eexists. rewrite Hr. repeat split.
Qed.

(** C6.  With both formats accepted, a [getApiKey] that rejects gives
    [DATABASE_ERROR], answered 454 4.7.0 (a temporary, retryable code),
    while a [getApiKey] that resolves to [null] gives [API_KEY_NOT_FOUND],
    answered 535 5.7.8 (a permanent, non-retryable code); the two
    responses differ. *)
Theorem lookup_fault_not_conflated (username password : string) :
  validateInboxIdFormat username = true ->
  validateApiKeyFormat password = true ->
  (forall msg, getApiKey password = Rejected msg ->
     exists e,
       run (validate (JsString username) (JsString password))
       = (AuthFailure e, [CallGetApiKey password])
       /\ code e = DATABASE_ERROR
       /\ smtpCode e = 454 /\ enhancedCode e = "4.7.0"
       /\ 400 <= smtpCode e <= 499
       /\ Mapping.retryable (Mapping.mapFromSMTPCode (smtpCode e)) = true)
  /\ (getApiKey password = Resolved None ->
      exists e,
        run (validate (JsString username) (JsString password))
        = (AuthFailure e, [CallGetApiKey password])
        /\ code e = API_KEY_NOT_FOUND
        /\ smtpCode e = 535 /\ enhancedCode e = "5.7.8"
        /\ 500 <= smtpCode e <= 599
        /\ Mapping.retryable (Mapping.mapFromSMTPCode (smtpCode e)) = false)
  /\ client_tuple DATABASE_ERROR <> client_tuple API_KEY_NOT_FOUND.
Proof.
  intros Hu Hp. unfold run. rewrite (validate_well_formed _ _ Hu Hp).
  unfold step3, await_getApiKey, mbind, Lookup_bind.
  cbv beta iota zeta.
  split; [| split].
  - intros msg ->.
    exists (createAuthError DATABASE_ERROR
              ("Database error looking up API key: " +:+ msg)).
    split; [reflexivity |].
    repeat split; try reflexivity; by vm_compute.
  - intros ->.
    exists (createAuthError API_KEY_NOT_FOUND
              "API key not found in database").
    split; [reflexivity |].
    repeat split; try reflexivity; by vm_compute.
  - discriminate.
Qed.

Lemma step5_expired (username : string) (apiKey : MockApiKey.t) :
  parseDate "" = None ->
  expired parseDate now apiKey ->
  step5 getInbox parseDate now username apiKey
  = fail API_KEY_EXPIRED
      ("API key expired at " +:+ show (MockApiKey.expires_at apiKey)).
Proof.
  intros Hempty (s & t & Hs & Ht & Hlt). unfold step5. rewrite Hs. simpl.
  destruct (String.eqb_spec s "") as [-> | _]; [congruence |].
  rewrite Ht. simpl.
  apply Z.ltb_lt in Hlt. rewrite Hlt. reflexivity.
Qed.

Lemma step5_not_expired (username : string) (apiKey : MockApiKey.t) :
  ~ expired parseDate now apiKey ->
  step5 getInbox parseDate now username apiKey
  = step6 getInbox username apiKey.
Proof.
  intros Hn. unfold step5.
  destruct (MockApiKey.expires_at apiKey) as [s|] eqn:Hs; [| reflexivity].
  simpl. destruct (parseDate s) as [t|] eqn:Ht; simpl;
    [| by rewrite andb_false_r].
  destruct (t <? now) eqn:Hlt; [| by rewrite andb_false_r].
  exfalso. apply Hn. exists s, t. apply Z.ltb_lt in Hlt. done.
Qed.

(** From the scope check on, no failure is [API_KEY_EXPIRED]. *)
Lemma step6_never_expired (username : string) (apiKey : MockApiKey.t)
    (log : list DbCall) (e : AuthError) :
  (step6 getInbox username apiKey log).1 = AuthFailure e ->
  code e <> API_KEY_EXPIRED.
Proof.
  unfold step6, step7, step8, step9, success, fail, await_getInbox,
    mbind, Lookup_bind, mret, Lookup_ret.
  simpl. repeat case_match; simpl; intros; simplify_eq; discriminate.
Qed.

(** C7.  For a credential record reached by steps 1-4 (formats accepted,
    found by the lookup, no revocation timestamp): if its expiry timestamp
    is present and strictly before the evaluation time the pipeline fails
    with [API_KEY_EXPIRED]; otherwise the expiry step passes and the
    outcome is that of the scope check (STEP 6) and the steps after it,
    which is never [API_KEY_EXPIRED].  [new Date("")] is an invalid
    date. *)
Theorem expiry_step (username password : string) (apiKey : MockApiKey.t) :
  parseDate "" = None ->
  validateInboxIdFormat username = true ->
  validateApiKeyFormat password = true ->
  getApiKey password = Resolved (Some apiKey) ->
  present (MockApiKey.revoked_at apiKey) = false ->
  (expired parseDate now apiKey ->
     exists e,
       run (validate (JsString username) (JsString password))
       = (AuthFailure e, [CallGetApiKey password])
       /\ code e = API_KEY_EXPIRED)
  /\ (~ expired parseDate now apiKey ->
      run (validate (JsString username) (JsString password))
      = step6 getInbox username apiKey [CallGetApiKey password]
      /\ forall e,
           (run (validate (JsString username) (JsString password))).1
           = AuthFailure e ->
           code e <> API_KEY_EXPIRED).
Proof.
  intros Hempty Hu Hp Hk Hrev. unfold run.
  rewrite (validate_well_formed _ _ Hu Hp).
  unfold step3, await_getApiKey, mbind, Lookup_bind.
  cbv beta iota zeta. rewrite Hk. unfold step4. rewrite Hrev.
  change ([] ++ [CallGetApiKey password])%list
    with [CallGetApiKey password].
  split.
  - intros Hexp. rewrite (step5_expired _ _ Hempty Hexp).
    eexists. split; reflexivity.
  - intros Hn. rewrite (step5_not_expired _ _ Hn).
    split; [reflexivity |]. intros e. apply step6_never_expired.
Qed.

End PipelineProperties.

(* ===================================================================== *)
(** * The pipeline theorems on the mock database *)
(* ===================================================================== *)

Section PipelineWitnesses.
Import AuthErrors Database Validator.

(** A key that is too short: no lookup. *)
Lemma malformed_input_no_lookup_witness :
  (username_well_formed (JsString "inb_valid1234567890") = false
   \/ password_well_formed (JsString "am_short") = false)
  /\ exists e,
       validateMock evaluation_time "inb_valid1234567890" "am_short"
       = (AuthFailure e, [])
       /\ code e = INVALID_API_KEY_FORMAT.
Proof.
  assert (H : username_well_formed (JsString "inb_valid1234567890") = false
              \/ password_well_formed (JsString "am_short") = false)
    by (right; vm_compute; reflexivity).
  split; [exact H |].
  destruct (malformed_input_no_lookup Database.getApiKey Database.getInbox
              mockParseDate evaluation_time _ _ H) as (e & Hr & _ & Hc & _).
  exists e. split; [exact Hr | exact Hc].
Defined.

(** The lookup layer with its simulated database error switched on. *)
Lemma lookup_fault_not_conflated_witness :
  validateInboxIdFormat "inb_valid1234567890" = true
  /\ validateApiKeyFormat "am_validkey12345678901234567890123456" = true
  /\ exists e,
       run (validateSMTPCredentials (getApiKeyWithPossibleError true)
              (getInboxWithPossibleError true) mockParseDate evaluation_time
              (JsString "inb_valid1234567890")
              (JsString "am_validkey12345678901234567890123456"))
       = (AuthFailure e,
          [CallGetApiKey "am_validkey12345678901234567890123456"])
       /\ smtpCode e = 454.
Proof.
  assert (Hu : validateInboxIdFormat "inb_valid1234567890" = true)
    by (vm_compute; reflexivity).
  assert (Hp : validateApiKeyFormat "am_validkey12345678901234567890123456"
               = true) by (vm_compute; reflexivity).
  split; [exact Hu |]. split; [exact Hp |].
  destruct (lookup_fault_not_conflated (getApiKeyWithPossibleError true)
              (getInboxWithPossibleError true) mockParseDate evaluation_time
              _ _ Hu Hp) as (Hfault & _ & _).
  destruct (Hfault "Simulated database error" eq_refl)
    as (e & Hr & _ & Hc & _).
  exists e. split; [exact Hr | exact Hc].
Defined.

(** The expired key of the mock data. *)
Lemma expiry_step_witness :
  mockParseDate "" = None
  /\ Database.getApiKey "am_expired12345678901234567890123456"
     <> Resolved None
  /\ exists e,
       validateMock evaluation_time "inb_valid1234567890"
         "am_expired12345678901234567890123456"
       = (AuthFailure e,
          [CallGetApiKey "am_expired12345678901234567890123456"])
       /\ code e = API_KEY_EXPIRED.
Proof.
  split; [reflexivity |]. split; [vm_compute; discriminate |].
  refine (let k := {| MockApiKey.api_key_id := "key_expired_4";
                      MockApiKey.organization_id := "org_abc";
                      MockApiKey.revoked_at := None;
                      MockApiKey.expires_at := Some "2024-01-01T00:00:00Z";
                      MockApiKey.scopes := ["smtp:send"];
                      MockApiKey.name := "Expired API Key";
                      MockApiKey.created_at := "2023-01-01T00:00:00Z" |} in _).
  destruct (expiry_step Database.getApiKey Database.getInbox mockParseDate
              evaluation_time "inb_valid1234567890"
              "am_expired12345678901234567890123456" k)
    as (Hexp & _).
  - reflexivity.
  - vm_compute; reflexivity.
  - vm_compute; reflexivity.
  - vm_compute; reflexivity.
  - reflexivity.
  - apply Hexp. exists "2024-01-01T00:00:00Z", 1704067200000.
    repeat split; vm_compute; reflexivity.
Defined.

End PipelineWitnesses.

(* ===================================================================== *)
(** * The manager operations refine the session effects *)
(* ===================================================================== *)

Section ManagerSpec.
Import SessionState SessionManager.

Variable clock : nat -> Z.

Lemma alter_Some (m : gmap string SMTPSession) (i : string)
    (f : SMTPSession -> SMTPSession) (x : SMTPSession) :
  m !! i = Some x -> alter f i m = <[i := f x]> m.
Proof.
  intros H. apply map_eq. intros j. destruct (decide (i = j)) as [<- | Hne].
  - by rewrite lookup_alter_eq, lookup_insert_eq, H.
  - by rewrite lookup_alter_ne, lookup_insert_ne.
Qed.

Ltac mgr_red :=
  unfold mbind, mret, Mgr_bind, Mgr_ret, getSession, assign, new_Date;
  cbn [sessions ticks fst snd].

(** Rewrites the assignments to a present session into one insertion. *)
Ltac mgr_present H :=
  mgr_red; rewrite ?H; mgr_red;
  rewrite ?(alter_Some _ _ _ _ H), ?alter_insert_eq, ?lookup_insert_eq,
    ?insert_insert_eq.

Lemma transitionState_present w sid s cmd ns :
  sessions w !! sid = Some s ->
  transitionState clock sid cmd ns w
  = (Some (transitioned clock (ticks w) cmd ns s),
     updated sid (transitioned clock (ticks w) cmd ns s) 2 w).
Proof.
  intros H. unfold transitionState. mgr_present H. reflexivity.
Qed.

(** [transitionState] right after assignments [f] to a present session. *)
Lemma transitionState_after w sid s1 k cmd ns :
  transitionState clock sid cmd ns
    {| sessions := <[sid := s1]> (sessions w); ticks := (k + ticks w)%nat |}
  = (Some (transitioned clock (k + ticks w) cmd ns s1),
     updated sid (transitioned clock (k + ticks w) cmd ns s1) (2 + k) w).
Proof.
  rewrite (transitionState_present _ sid s1) by apply lookup_insert_eq.
  unfold updated. cbn [sessions ticks]. rewrite insert_insert_eq.
  reflexivity.
Qed.

Lemma handleHello_present w sid s h :
  sessions w !! sid = Some s ->
  handleHello clock sid h w = outcome clock (OpHello h) sid s w.
Proof.
  intros H. unfold handleHello, outcome, effect. mgr_present H.
  destruct (getNextState (state s) "EHLO") as [ns|]; [| reflexivity].
  unfold hostname_assigned.
  destruct h as [h|]; [destruct (negb (String.eqb h "")) |]; mgr_present H.
  - apply (transitionState_after w sid _ 0).
  - by apply transitionState_present.
  - by apply transitionState_present.
Qed.

Lemma handleAuthentication_present w sid s u :
  sessions w !! sid = Some s ->
  handleAuthentication clock sid u w = outcome clock (OpAuthentication u) sid s w.
Proof.
  intros H. unfold handleAuthentication, outcome, effect. mgr_present H.
  destruct (getNextState (state s) "AUTH") as [ns|]; [| reflexivity].
  mgr_present H. apply (transitionState_after w sid _ 1).
Qed.

Lemma handleMailFrom_present w sid s a :
  sessions w !! sid = Some s ->
  handleMailFrom clock sid a w = outcome clock (OpMailFrom a) sid s w.
Proof.
  intros H. unfold handleMailFrom, outcome, effect. mgr_present H.
  destruct (getNextState (state s) "MAIL") as [ns|]; [| reflexivity].
  mgr_present H. apply (transitionState_after w sid _ 1).
Qed.

Lemma handleRcptTo_present w sid s r :
  sessions w !! sid = Some s ->
  handleRcptTo clock sid r w = outcome clock (OpRcptTo r) sid s w.
Proof.
  intros H. unfold handleRcptTo, outcome, effect. mgr_present H.
  destruct (MAX_RECIPIENTS <=? length (rcptTo s))%nat; [reflexivity |].
  destruct (getNextState (state s) "RCPT") as [ns|]; [| reflexivity].
  mgr_present H.
  destruct (negb (bool_decide (state s = RCPT_TO))); mgr_present H.
  - apply (transitionState_after w sid _ 1).
  - reflexivity.
Qed.

Lemma handleDataStart_present w sid s :
  sessions w !! sid = Some s ->
  handleDataStart clock sid w = outcome clock OpDataStart sid s w.
Proof.
  intros H. unfold handleDataStart, outcome, effect. mgr_present H.
  destruct (length (rcptTo s) =? 0)%nat; [reflexivity |].
  destruct (getNextState (state s) "DATA") as [ns|]; [| reflexivity].
  mgr_present H. apply (transitionState_after w sid _ 1).
Qed.

Lemma handleDataComplete_present w sid s mid :
  sessions w !! sid = Some s ->
  handleDataComplete clock sid mid w = outcome clock (OpDataComplete mid) sid s w.
Proof.
  intros H. unfold handleDataComplete, outcome, effect. mgr_present H.
  destruct (getNextState (state s) "DATA_COMPLETE") as [ns|]; [| reflexivity].
  mgr_present H. apply (transitionState_after w sid _ 1).
Qed.

Lemma resetForNewMessage_present w sid s :
  sessions w !! sid = Some s ->
  exists s', effect clock (ticks w) OpReset s = Some (s', 2%nat)
             /\ resetForNewMessage clock sid w = (tt, updated sid s' 2 w).
Proof.
  intros H. eexists. split; [reflexivity |].
  unfold resetForNewMessage. mgr_present H. reflexivity.
Qed.

Lemma updateActivity_present w sid s :
  sessions w !! sid = Some s ->
  updateActivity clock sid w
  = (tt, updated sid (set_lastActivityAt (clock (ticks w)) s) 1 w).
Proof.
  intros H. unfold updateActivity. mgr_present H. reflexivity.
Qed.

(** [apply] on a present session. *)
Lemma apply_present w sid s op :
  sessions w !! sid = Some s ->
  (apply clock op sid w).2 = (outcome clock op sid s w).2.
Proof.
  intros H. destruct op; unfold apply.
  - unfold mbind, Mgr_bind. rewrite (handleHello_present _ _ _ _ H).
    by destruct (outcome _ _ _ _ _).
  - unfold mbind, Mgr_bind. rewrite (handleAuthentication_present _ _ _ _ H).
    by destruct (outcome _ _ _ _ _).
  - unfold mbind, Mgr_bind. rewrite (handleMailFrom_present _ _ _ _ H).
    by destruct (outcome _ _ _ _ _).
  - unfold mbind, Mgr_bind. rewrite (handleRcptTo_present _ _ _ _ H).
    by destruct (outcome _ _ _ _ _).
  - unfold mbind, Mgr_bind. rewrite (handleDataStart_present _ _ _ H).
    by destruct (outcome _ _ _ _ _).
  - unfold mbind, Mgr_bind. rewrite (handleDataComplete_present _ _ _ _ H).
    by destruct (outcome _ _ _ _ _).
  - destruct (resetForNewMessage_present _ _ _ H) as (s' & He & ->).
    unfold outcome. by rewrite He.
  - rewrite (updateActivity_present _ _ _ H). reflexivity.
Qed.

(** [apply] on an absent session changes nothing. *)
Lemma apply_absent w sid op :
  sessions w !! sid = None -> (apply clock op sid w).2 = w.
Proof.
  intros H.
  destruct op; unfold apply, handleHello, handleAuthentication,
    handleMailFrom, handleRcptTo, handleDataStart, handleDataComplete,
    resetForNewMessage, updateActivity; mgr_red; rewrite H; reflexivity.
Qed.

(** A handler that returns [null] has not touched the manager. *)
Lemma outcome_null w sid s op :
  (outcome clock op sid s w).1 = None -> (outcome clock op sid s w).2 = w.
Proof.
  unfold outcome. by destruct (effect clock (ticks w) op s) as [[s' k]|].
Qed.

Lemma handleMailFrom_null w sid s a :
  sessions w !! sid = Some s ->
  getNextState (state s) "MAIL" = None ->
  handleMailFrom clock sid a w = (None, w).
Proof.
  intros H Hn. rewrite (handleMailFrom_present _ _ _ _ H).
  unfold outcome, effect. by rewrite Hn.
Qed.

End ManagerSpec.

(* ===================================================================== *)
(** * Invariants of the sessions of a manager *)
(* ===================================================================== *)

Section Invariants.
Import SessionState SessionManager.

Variable clock : nat -> Z.

(** Where a session found after a call comes from: it was just created,
    it was there before and was not touched, or it is the effect of the
    operation of the call on the session that was there before. *)
Lemma exec_lookup c w sid s' :
  sessions (exec clock c w).2 !! sid = Some s' ->
  (exists conn, s' = createEmptySession sid conn (clock (ticks w))
                /\ ticks (exec clock c w).2 = S (ticks w))
  \/ (sessions w !! sid = Some s'
      /\ (ticks w <= ticks (exec clock c w).2)%nat)
  \/ (exists s op k, sessions w !! sid = Some s
                     /\ effect clock (ticks w) op s = Some (s', k)
                     /\ ticks (exec clock c w).2 = (k + ticks w)%nat).
Proof.
  destruct c as [sid0 conn | sid0 | | sid0 op]; unfold exec.
  - unfold createSession, set, mbind, mret, Mgr_bind, Mgr_ret, new_Date.
    cbn [sessions ticks fst snd].
    destruct (decide (sid0 = sid)) as [-> | Hne].
    + rewrite lookup_insert_eq. intros [= <-]. left. eauto.
    + rewrite lookup_insert_ne by done. intros H. right; left.
      split; [done | lia].
  - unfold deleteSession, remove, mbind, mret, Mgr_bind, Mgr_ret, getSession.
    cbn [sessions ticks fst snd].
    destruct (sessions w !! sid0) eqn:E; cbn [sessions ticks snd].
    + intros [_ H]%lookup_delete_Some. right; left. split; [done | lia].
    + intros H. right; left. split; [done | lia].
  - unfold cleanupExpiredSessions, sweep, mbind, mret, Mgr_bind, Mgr_ret,
      new_Date.
    cbn [sessions ticks fst snd].
    intros [H _]%map_lookup_filter_Some. right; left. split; [done | lia].
  - destruct (sessions w !! sid0) as [s|] eqn:E.
    + rewrite (apply_present clock _ _ _ _ E). unfold outcome.
      destruct (effect clock (ticks w) op s) as [[s1 k]|] eqn:Ee;
        cbn [snd updated sessions ticks].
      * destruct (decide (sid0 = sid)) as [-> | Hne].
        -- rewrite lookup_insert_eq. intros [= <-]. right; right.
           exists s, op, k. eauto.
        -- rewrite lookup_insert_ne by done. intros H. right; left.
           split; [done | lia].
      * intros H. right; left. split; [done | lia].
    + rewrite (apply_absent clock _ _ _ E). intros H. right; left.
      split; [done | lia].
Qed.

(** A property of sessions indexed by the number of clock readings taken
    so far holds of every session of every reachable manager when it holds
    of a new session, is kept by every effect, and is kept when the clock
    is read. *)
Lemma execAll_invariant (P : nat -> SMTPSession -> Prop) :
  (forall n sid conn, P (S n) (createEmptySession sid conn (clock n))) ->
  (forall n op s s' k, effect clock n op s = Some (s', k) ->
                       P n s -> P (k + n)%nat s') ->
  (forall n m s, (n <= m)%nat -> P n s -> P m s) ->
  forall cs sid s,
    sessions (execAll clock cs) !! sid = Some s ->
    P (ticks (execAll clock cs)) s.
Proof.
  intros Hnew Heff Hmono cs. unfold execAll.
  induction cs as [| c cs IH] using rev_ind; intros sid s.
  - cbn. by rewrite lookup_empty.
  - rewrite fold_left_app. cbn [fold_left].
    set (w := fold_left (fun w c => (exec clock c w).2) cs init) in *.
    intros H. apply exec_lookup in H.
    destruct H as [(conn & -> & ->) | [(H & Hle) | (s0 & op & k & H & He & ->)]].
    + apply Hnew.
    + eapply Hmono; [exact Hle |]. by apply (IH sid).
    + eapply Heff; [exact He |]. by apply (IH sid).
Qed.

(** ** The authenticated flag and the user *)

Lemma effect_flag_matches_user n op s s' k :
  effect clock n op s = Some (s', k) ->
  flag_matches_user s -> flag_matches_user s'.
Proof.
  unfold flag_matches_user, effect.
  destruct op; intros He Hs; repeat case_match; simplify_eq; cbn;
    try done.
  unfold hostname_assigned. repeat case_match; cbn; done.
Qed.

(** C8.  In every manager reached from a fresh one by any sequence of
    calls (session creation and deletion, the six command handlers,
    [resetForNewMessage], [updateActivity], the cleanup sweep), every
    session has its [authenticated] flag set exactly when its [user] is
    present. *)
Theorem authenticated_iff_user (cs : list Call) (sid : string)
    (s : SMTPSession) :
  sessions (execAll clock cs) !! sid = Some s ->
  (authenticated s = true <-> is_Some (user s)).
Proof.
  intros H.
  apply (execAll_invariant (fun _ => flag_matches_user)) in H; [done | ..].
  - intros n sid' conn. unfold flag_matches_user. cbn.
    split; [done | by intros [? ?]].
  - intros n op s0 s' k. apply effect_flag_matches_user.
  - done.
Qed.

(** ** The timestamps of the transition history *)

Lemma transitioned_history n cmd ns s :
  stateHistory (transitioned clock n cmd ns s)
  = (stateHistory s ++ [{| from := state s; to := ns; timestamp := clock n;
                           command := Some cmd |}])%list.
Proof. reflexivity. Qed.

(** An effect keeps the history or appends one entry stamped with one of
    the clock readings of the operation. *)
Lemma effect_history n op s s' k :
  effect clock n op s = Some (s', k) ->
  stateHistory s' = stateHistory s
  \/ exists tr j, stateHistory s' = (stateHistory s ++ [tr])%list
                  /\ timestamp tr = clock j /\ (n <= j < k + n)%nat.
Proof.
  unfold effect.
  destruct op; intros He; repeat case_match; simplify_eq;
    try (left; reflexivity);
    try (right; rewrite transitioned_history; cbn [stateHistory];
         do 2 eexists; split; [reflexivity |]; cbn; split; [reflexivity | lia]).
  - right. rewrite transitioned_history.
    assert (stateHistory (hostname_assigned clientHostname0 s)
            = stateHistory s) as ->
      by (unfold hostname_assigned; repeat case_match; reflexivity).
    do 2 eexists. split; [reflexivity |]. cbn. split; [reflexivity | lia].
  - right. do 2 eexists. split; [reflexivity |]. cbn.
    split; [reflexivity | lia].
Qed.

Lemma history_ordered_snoc (l : list StateTransition) (tr : StateTransition) :
  (forall i a b, l !! i = Some a -> l !! S i = Some b ->
                 timestamp a <= timestamp b) ->
  (forall a, a ∈ l -> timestamp a <= timestamp tr) ->
  forall i a b, (l ++ [tr])%list !! i = Some a ->
                (l ++ [tr])%list !! S i = Some b ->
                timestamp a <= timestamp b.
Proof.
  intros Hl Hlast i a b Ha Hb.
  apply lookup_snoc_Some in Hb as [[Hlt Hb] | [Heq <-]].
  - rewrite lookup_app_l in Ha by lia. by apply (Hl i).
  - rewrite lookup_app_l in Ha by lia.
    apply Hlast. by apply list_elem_of_lookup_2 in Ha.
Qed.

Lemma effect_history_inv n op s s' k :
  clock_monotone clock ->
  effect clock n op s = Some (s', k) ->
  history_inv clock n s -> history_inv clock (k + n) s'.
Proof.
  intros Hmono He [Hord Hin]. unfold history_inv, history_ordered.
  destruct (effect_history _ _ _ _ _ He)
    as [-> | (tr & j & -> & Htr & Hj)].
  - split; [exact Hord |].
    intros tr0 (j & Hj & ->)%Hin. exists j. split; [lia | done].
  - split.
    + apply history_ordered_snoc; [exact Hord |].
      intros a (i & Hi & ->)%Hin. rewrite Htr. apply Hmono. lia.
    + intros tr0 [Hold | ->%list_elem_of_singleton]%elem_of_app.
      * apply Hin in Hold as (i & Hi & ->). exists i. split; [lia | done].
      * exists j. split; [lia | done].
Qed.

(** C9, as the code has it.  When successive clock readings never go
    back, the timestamps of the transition history of every session of
    every reachable manager never go back either: of two consecutive
    entries, the later one's timestamp is greater than or equal to the
    earlier one's. *)
Theorem history_timestamps_nondecreasing (cs : list Call) (sid : string)
    (s : SMTPSession) :
  clock_monotone clock ->
  sessions (execAll clock cs) !! sid = Some s ->
  history_ordered Z.le s.
Proof.
  intros Hmono H.
  apply (execAll_invariant (history_inv clock)) in H; [by destruct H | ..].
  - intros n sid' conn. split.
    + intros i a b Ha. cbn in Ha. rewrite ?lookup_nil in Ha. done.
    + intros tr Htr. cbn in Htr. by apply elem_of_nil in Htr.
  - intros n op s0 s' k. by apply effect_history_inv.
  - intros n m s0 Hle [Hord Hin]. split; [exact Hord |].
    intros tr (j & Hj & ->)%Hin. exists j. split; [lia | done].
Qed.

End Invariants.

(* ===================================================================== *)
(** * Properties of the command hooks *)
(* ===================================================================== *)

Section HookProperties.
Import SessionState SessionManager Server.

Variable clock : nat -> Z.
Variable getApiKey : string -> Database.DbResult Database.MockApiKey.t.
Variable getInbox : string -> Database.DbResult Database.MockInbox.t.
Variable parseDate : string -> option Z.
Variable deliver : string -> SMTPSession -> Delivery.

Lemma updated_lookup sid s' k w :
  sessions (updated sid s' k w) !! sid = Some s'.
Proof. apply lookup_insert_eq. Qed.

Lemma updated_updated sid s1 s2 k1 k2 w :
  updated sid s2 k2 (updated sid s1 k1 w) = updated sid s2 (k2 + k1) w.
Proof.
  unfold updated. cbn [sessions ticks]. rewrite insert_insert_eq.
  f_equal. lia.
Qed.

Lemma canExecuteCommand_present w sid s cmd :
  sessions w !! sid = Some s ->
  canExecuteCommand sid cmd w = (canExecuteCommandInState (state s) cmd, w).
Proof.
  intros H. unfold canExecuteCommand, mbind, mret, Mgr_bind, Mgr_ret,
    getSession. by rewrite H.
Qed.

Lemma read_present {A} w sid s0 s (f : SMTPSession -> A) :
  sessions w !! sid = Some s -> read sid s0 f w = (f s, w).
Proof. intros H. unfold read. by rewrite H. Qed.

Lemma touched_lookup w sid s :
  sessions (touched clock w sid s) !! sid
  = Some (set_lastActivityAt (clock (ticks w)) s).
Proof. apply updated_lookup. Qed.

(** The literal responses. *)
Lemma badSequence_line :
  badSequence
  = Err {| Mapping.message := "503 5.5.1 Bad sequence of commands";
           Mapping.responseCode := 503;
           Mapping.enhancedCode := "5.5.1" |}.
Proof. reflexivity. Qed.

Lemma tooManyRecipients_line :
  tooManyRecipients
  = Err {| Mapping.message := "452 4.5.3 Too many recipients";
           Mapping.responseCode := 452;
           Mapping.enhancedCode := "4.5.3" |}.
Proof. reflexivity. Qed.

Lemma authRequired_line :
  authRequired
  = Err {| Mapping.message := "530 5.7.0 Authentication required";
           Mapping.responseCode := 530;
           Mapping.enhancedCode := "5.7.0" |}.
Proof. reflexivity. Qed.

(** [onRcptTo] on a present session. *)
Lemma onRcptTo_present r sid w0 s0 :
  sessions w0 !! sid = Some s0 ->
  onRcptTo clock r sid w0
  = let w1 := touched clock w0 sid s0 in
    let s1 := set_lastActivityAt (clock (ticks w0)) s0 in
    if negb (canExecuteCommandInState (state s0) "RCPT")
    then (badSequence, w1)
    else match outcome clock (OpRcptTo r) sid s1 w1 with
         | (None, w2) =>
             (if (50 <=? length (rcptTo s1))%nat
              then tooManyRecipients else badSequence, w2)
         | (Some _, w2) => (Ok, w2)
         end.
Proof.
  intros H0. unfold onRcptTo, mbind, mret, Mgr_bind, Mgr_ret.
  unfold getSession at 1. rewrite H0.
  rewrite (updateActivity_present clock _ _ _ H0).
  rewrite (canExecuteCommand_present _ _ _ _ (touched_lookup w0 sid s0)).
  cbn [state set_lastActivityAt on_timestamps set_timestamps].
  destruct (negb (canExecuteCommandInState (state s0) "RCPT"));
    [reflexivity |].
  rewrite (handleRcptTo_present clock _ _ _ _ (touched_lookup w0 sid s0)).
  cbv zeta. fold (touched clock w0 sid s0).
  destruct (outcome clock (OpRcptTo r) sid _ (touched clock w0 sid s0))
    as [[s2|] w2] eqn:Eo; [reflexivity |].
  unfold outcome in Eo. destruct (effect _ _ _ _) as [[? ?]|];
    simplify_eq.
  rewrite (read_present _ _ _ _ _ (touched_lookup w0 sid s0)).
  by destruct (50 <=? _)%nat.
Qed.

(** C4.  For a session in the RCPT_TO state: with fewer than
    [MAX_RECIPIENTS] (50) recipients, [handleRcptTo] appends the new
    recipient, pushes no entry on the transition history and leaves the
    state RCPT_TO (and [onRcptTo] accepts); with [MAX_RECIPIENTS]
    recipients or more, [handleRcptTo] returns [null] without touching the
    session and [onRcptTo] answers 452 4.5.3 "Too many recipients", which is
    not the 503 5.5.1 answer to an illegal command. *)
Theorem recipient_add_in_RCPT_TO (w : World) (sid : string)
    (s : SMTPSession) (r : string) :
  sessions w !! sid = Some s ->
  state s = RCPT_TO ->
  ((length (rcptTo s) < MAX_RECIPIENTS)%nat ->
     exists s',
       handleRcptTo clock sid r w = (Some s', updated sid s' 2 w)
       /\ rcptTo s'
          = (rcptTo s ++ [{| address := r; addedAt := clock (ticks w) |}])%list
       /\ stateHistory s' = stateHistory s
       /\ state s' = RCPT_TO
       /\ (onRcptTo clock r sid w).1 = Ok)
  /\ ((MAX_RECIPIENTS <= length (rcptTo s))%nat ->
        handleRcptTo clock sid r w = (None, w)
        /\ (onRcptTo clock r sid w).1 = tooManyRecipients
        /\ tooManyRecipients
           = Err {| Mapping.message := "452 4.5.3 Too many recipients";
                    Mapping.responseCode := 452;
                    Mapping.enhancedCode := "4.5.3" |}
        /\ tooManyRecipients <> badSequence).
Proof.
  intros H Hst.
  pose proof (onRcptTo_present r sid) as Hon.
  split.
  - intros Hlt. eexists.
    rewrite (handleRcptTo_present clock _ _ _ _ H).
    rewrite (Hon _ _ H). cbv zeta.
    unfold outcome, effect.
    cbn [rcptTo state set_lastActivityAt on_timestamps set_timestamps].
    rewrite Hst.
    replace (MAX_RECIPIENTS <=? length (rcptTo s))%nat with false
      by (symmetry; apply Nat.leb_gt; exact Hlt).
    change (getNextState RCPT_TO "RCPT") with (Some RCPT_TO).
    change (canExecuteCommandInState RCPT_TO "RCPT") with true.
    cbn [negb bool_decide decide_rel]. 
    rewrite bool_decide_eq_true_2 by reflexivity. cbn [negb fst].
    repeat split; try reflexivity.
    cbn. exact Hst.
  - intros Hge.
    rewrite (handleRcptTo_present clock _ _ _ _ H).
    rewrite (Hon _ _ H). cbv zeta.
    unfold outcome, effect.
    cbn [rcptTo state set_lastActivityAt on_timestamps set_timestamps].
    rewrite Hst.
    replace (MAX_RECIPIENTS <=? length (rcptTo s))%nat with true
      by (symmetry; apply Nat.leb_le; exact Hge).
    change (canExecuteCommandInState RCPT_TO "RCPT") with true.
    cbn [negb fst].
    replace (50 <=? length (rcptTo s))%nat with true
      by (symmetry; apply Nat.leb_le; exact Hge).
    repeat split; try reflexivity. discriminate.
Qed.

(** The session [s] with its last-activity timestamp set to [t] and
    nothing else changed. *)
Lemma set_lastActivityAt_frame (t : Z) (s : SMTPSession) :
  let s' := set_lastActivityAt t s in
  id s' = id s /\ state s' = state s /\ user s' = user s
  /\ authenticated s' = authenticated s /\ mailFrom s' = mailFrom s
  /\ rcptTo s' = rcptTo s /\ messageData s' = messageData s
  /\ messageId s' = messageId s /\ connection s' = connection s
  /\ messageCount s' = messageCount s /\ stateHistory s' = stateHistory s
  /\ createdAt (timestamps s') = createdAt (timestamps s)
  /\ authenticatedAt (timestamps s') = authenticatedAt (timestamps s)
  /\ mailFromAt (timestamps s') = mailFromAt (timestamps s)
  /\ dataStartedAt (timestamps s') = dataStartedAt (timestamps s)
  /\ completedAt (timestamps s') = completedAt (timestamps s)
  /\ lastActivityAt (timestamps s') = t.
Proof. repeat split. Qed.

(** C3, as the code has it.  When the command of an event is not legal in
    the state of the session, the hook rejects it -- with 503 5.5.1 "Bad
    sequence of commands", or with 530 5.7.0 "Authentication required" for
    MAIL FROM on a session that is not authenticated -- and the session
    afterwards is the session before with its last-activity timestamp set
    to the time of the command: state, user, sender, recipients, message
    reference, counter, history and the other timestamps are unchanged. *)
Theorem rejected_command_refreshes_only_activity (ev : CommandEvent)
    (w : World) (sid : string) (s : SMTPSession) :
  sessions w !! sid = Some s ->
  canExecuteCommandInState (state s) (commandName ev) = false ->
  handle clock getApiKey getInbox parseDate deliver ev sid w
  = (rejection ev s,
     updated sid (set_lastActivityAt (clock (ticks w)) s) 1 w)
  /\ sessions (handle clock getApiKey getInbox parseDate deliver ev sid w).2
       !! sid
     = Some (set_lastActivityAt (clock (ticks w)) s)
  /\ badSequence
     = Err {| Mapping.message := "503 5.5.1 Bad sequence of commands";
              Mapping.responseCode := 503;
              Mapping.enhancedCode := "5.5.1" |}.
Proof.
  intros H Hno.
  assert (Heq : handle clock getApiKey getInbox parseDate deliver ev sid w
                = (rejection ev s, touched clock w sid s)).
  { destruct ev as [auth | sender | recipient | stream];
      cbn [commandName] in Hno; unfold handle, rejection.
    - unfold onAuth, mbind, mret, Mgr_bind, Mgr_ret.
      unfold getSession at 1. rewrite H.
      rewrite (updateActivity_present clock _ _ _ H).
      rewrite (canExecuteCommand_present _ _ _ _ (touched_lookup w sid s)).
      cbn [state set_lastActivityAt on_timestamps set_timestamps].
      rewrite Hno. reflexivity.
    - unfold onMailFrom, mbind, mret, Mgr_bind, Mgr_ret.
      unfold getSession at 1. rewrite H.
      rewrite (updateActivity_present clock _ _ _ H).
      rewrite (read_present _ _ _ _ _ (touched_lookup w sid s)).
      cbn [authenticated set_lastActivityAt on_timestamps set_timestamps].
      destruct (authenticated s); [| reflexivity]. cbn [negb].
      rewrite (read_present _ _ _ _ _ (touched_lookup w sid s)).
      cbn [state set_lastActivityAt on_timestamps set_timestamps].
      rewrite bool_decide_eq_false_2
        by (intros Hc; rewrite Hc in Hno; discriminate).
      rewrite (canExecuteCommand_present _ _ _ _ (touched_lookup w sid s)).
      cbn [state set_lastActivityAt on_timestamps set_timestamps].
      rewrite Hno. reflexivity.
    - rewrite (onRcptTo_present _ _ _ _ H). cbv zeta. rewrite Hno.
      reflexivity.
    - unfold onData, mbind, mret, Mgr_bind, Mgr_ret.
      unfold getSession at 1. rewrite H.
      rewrite (updateActivity_present clock _ _ _ H).
      rewrite (canExecuteCommand_present _ _ _ _ (touched_lookup w sid s)).
      cbn [state set_lastActivityAt on_timestamps set_timestamps].
      rewrite Hno. reflexivity. }
  rewrite Heq. cbn [snd]. rewrite touched_lookup. done.
Qed.

(** C5, as the code has it.  For an authenticated session in the
    COMPLETED state, [onMailFrom] accepts the command and leaves the
    session in the MAIL_FROM state with the new sender, no recipient, no
    message data, no message id, the data-started and completed timestamps
    cleared and the sender timestamp set to the time of the command; the
    user, the authenticated flag, the connection metadata, the created and
    authenticated timestamps and the message counter are unchanged. *)
Theorem new_sender_after_completed (w : World) (sid : string)
    (s : SMTPSession) (sender : string) :
  sessions w !! sid = Some s ->
  authenticated s = true ->
  state s = COMPLETED ->
  exists s',
    onMailFrom clock sender sid w = (Ok, updated sid s' 6 w)
    /\ state s' = MAIL_FROM
    /\ mailFrom s' = Some sender
    /\ rcptTo s' = []
    /\ messageData s' = None
    /\ messageId s' = None
    /\ dataStartedAt (timestamps s') = None
    /\ completedAt (timestamps s') = None
    /\ mailFromAt (timestamps s') = Some (clock (3 + ticks w))
    /\ user s' = user s
    /\ authenticated s' = true
    /\ connection s' = connection s
    /\ createdAt (timestamps s') = createdAt (timestamps s)
    /\ authenticatedAt (timestamps s') = authenticatedAt (timestamps s)
    /\ messageCount s' = messageCount s
    /\ id s' = id s.
Proof.
  intros H Hauth Hst.
  unfold onMailFrom, mbind, mret, Mgr_bind, Mgr_ret.
  unfold getSession at 1. rewrite H.
  rewrite (updateActivity_present clock _ _ _ H).
  rewrite (read_present _ _ _ _ _ (touched_lookup w sid s)).
  cbn [authenticated set_lastActivityAt on_timestamps set_timestamps].
  rewrite Hauth. cbn [negb].
  rewrite (read_present _ _ _ _ _ (touched_lookup w sid s)).
  cbn [state set_lastActivityAt on_timestamps set_timestamps].
  rewrite Hst. rewrite bool_decide_eq_true_2 by reflexivity.
  destruct (resetForNewMessage_present clock _ _ _ (touched_lookup w sid s))
    as (s2 & He & ->).
  unfold touched in He |- *. rewrite updated_updated.
  cbn [effect ticks updated] in He. injection He as <-.
  match goal with
  | |- context [canExecuteCommand sid "MAIL" (updated sid ?x ?k w)] =>
      set (s2 := x);
      rewrite (canExecuteCommand_present _ _ _ _ (updated_lookup sid s2 k w))
  end.
  assert (Hs2 : state s2 = AUTHENTICATED)
    by (subst s2; unfold reset_state; cbn; rewrite Hauth; reflexivity).
  rewrite Hs2.
  change (canExecuteCommandInState AUTHENTICATED "MAIL") with true.
  cbn [negb].
  rewrite (handleMailFrom_present clock _ _ _ _ (updated_lookup sid s2 _ w)).
  unfold outcome, effect. rewrite Hs2.
  change (getNextState AUTHENTICATED "MAIL") with (Some MAIL_FROM).
  cbv beta iota. rewrite updated_updated.
  eexists. split; [reflexivity |].
  subst s2. unfold reset_state. cbn. rewrite ?Hauth.
  repeat split; reflexivity.
Qed.

End HookProperties.

(* ===================================================================== *)
(** * What the code does where the design document says otherwise *)
(* ===================================================================== *)

Section Scenarios.
Import SessionState SessionManager Server.

Lemma burst_clock_monotone : clock_monotone burst_clock.
Proof. intros i j Hij. unfold burst_clock. lia. Qed.

(** C3, counterexample.  A second MAIL FROM on an authenticated session that
    already has a sender is rejected with 503, and the stored session is no
    longer the one before the command: its last-activity timestamp moved. *)
Lemma rejected_command_changes_session :
  ~ rejection_leaves_session_unchanged (EvMailFrom "other@agentmail.dev")
      (execAll tick_clock sender_given) "s1".
Proof.
  intros Hclaim.
  destruct (sessions (execAll tick_clock sender_given) !! "s1")
    as [s|] eqn:E; [| vm_compute in E; discriminate].
  destruct (Hclaim s E) as [_ Hsame].
  - vm_compute in E. injection E as <-. reflexivity.
  - vm_compute in E. injection E as <-. vm_compute in Hsame.
    discriminate.
Qed.

(** C5, counterexample.  After a complete transaction, the new sender
    command leaves the sender timestamp set, not cleared. *)
Lemma new_sender_sets_sender_timestamp :
  ~ new_sender_clears_transaction "test@agentmail.dev"
      (execAll tick_clock one_transaction) "s1".
Proof.
  intros Hclaim.
  destruct (sessions (execAll tick_clock one_transaction) !! "s1")
    as [s|] eqn:E; [| vm_compute in E; discriminate].
  destruct (Hclaim s E) as (s' & Hs' & _ & _ & _ & _ & Hmf & _).
  - vm_compute in E. injection E as <-. reflexivity.
  - vm_compute in E. injection E as <-. reflexivity.
  - vm_compute in Hs'. injection Hs' as <-. vm_compute in Hmf.
    discriminate.
Qed.

(** C9, counterexample.  With a clock that never goes back, the RESET and
    MAIL entries that one MAIL FROM command pushes after a completed
    transaction carry the same timestamp when they fall in the same
    millisecond: the history is not strictly increasing. *)
Lemma history_timestamps_not_strictly_increasing :
  ~ (forall (clock : nat -> Z) (cs : list Call) (sid : string)
            (s : SMTPSession),
       clock_monotone clock ->
       sessions (execAll clock cs) !! sid = Some s ->
       history_ordered Z.lt s).
Proof.
  intros Hclaim.
  destruct (sessions (execAll burst_clock two_senders) !! "s1")
    as [s|] eqn:E; [| vm_compute in E; discriminate].
  pose proof (Hclaim burst_clock two_senders "s1" s burst_clock_monotone E)
    as Hord.
  vm_compute in E. injection E as <-.
  specialize (Hord 6%nat _ _ eq_refl eq_refl). vm_compute in Hord.
  discriminate.
Qed.

End Scenarios.

(* ===================================================================== *)
(** * The session theorems on concrete runs *)
(* ===================================================================== *)

Section Witnesses.
Import SessionState SessionManager Server.

(** A second MAIL FROM after the first: rejected with 503, and only the
    last-activity timestamp moves. *)
Lemma rejected_command_refreshes_only_activity_witness :
  exists s,
    sessions (execAll tick_clock sender_given) !! "s1" = Some s
    /\ canExecuteCommandInState (state s) "MAIL" = false
    /\ demo_handle (EvMailFrom "other@agentmail.dev") "s1"
         (execAll tick_clock sender_given)
       = (badSequence,
          updated "s1" (set_lastActivityAt (tick_clock 9) s) 1
            (execAll tick_clock sender_given)).
Proof.
  eexists. split; [vm_compute; reflexivity |].
  split; [vm_compute; reflexivity |].
  match goal with
  | |- _ = (_, updated _ (set_lastActivityAt _ ?s0) _ _) =>
      exact (proj1 (rejected_command_refreshes_only_activity tick_clock
                      Database.getApiKey Database.getInbox
                      Validator.mockParseDate demo_deliver
                      (EvMailFrom "other@agentmail.dev")
                      (execAll tick_clock sender_given) "s1" s0
                      ltac:(vm_compute; reflexivity)
                      ltac:(vm_compute; reflexivity)))
  end.
Defined.

(** The fifty-first recipient: [handleRcptTo] returns [null] and the hook
    answers 452. *)
Lemma recipient_add_in_RCPT_TO_witness :
  exists s,
    sessions (execAll tick_clock fifty_recipients) !! "s1" = Some s
    /\ state s = RCPT_TO
    /\ length (rcptTo s) = 50%nat
    /\ handleRcptTo tick_clock "s1" "more@example.com"
         (execAll tick_clock fifty_recipients)
       = (None, execAll tick_clock fifty_recipients)
    /\ (onRcptTo tick_clock "more@example.com" "s1"
          (execAll tick_clock fifty_recipients)).1
       = tooManyRecipients.
Proof.
  eexists. split; [vm_compute; reflexivity |].
  split; [reflexivity |]. split; [reflexivity |].
  match goal with
  | |- context [onRcptTo _ _ _ _] =>
      pose proof (recipient_add_in_RCPT_TO tick_clock
                    (execAll tick_clock fifty_recipients) "s1" _
                    "more@example.com"
                    ltac:(vm_compute; reflexivity) eq_refl) as [_ Hfull]
  end.
  destruct Hfull as (Hnull & Hreply & _); [vm_compute; lia |].
  split; [exact Hnull | exact Hreply].
Defined.

(** A new sender after one complete transaction. *)
Lemma new_sender_after_completed_witness :
  exists s,
    sessions (execAll tick_clock one_transaction) !! "s1" = Some s
    /\ authenticated s = true
    /\ state s = COMPLETED
    /\ exists s',
         onMailFrom tick_clock "test@agentmail.dev" "s1"
           (execAll tick_clock one_transaction)
         = (Ok, updated "s1" s' 6 (execAll tick_clock one_transaction))
         /\ state s' = MAIL_FROM
         /\ completedAt (timestamps s') = None
         /\ mailFromAt (timestamps s') = Some (tick_clock 21).
Proof.
  eexists. split; [vm_compute; reflexivity |].
  split; [reflexivity |]. split; [reflexivity |].
  destruct (new_sender_after_completed tick_clock
              (execAll tick_clock one_transaction) "s1" _
              "test@agentmail.dev"
              ltac:(vm_compute; reflexivity) eq_refl eq_refl)
    as (s' & Heq & Hst & _ & _ & _ & _ & _ & Hc & Hmf & _).
  exists s'.
  split; [exact Heq |]. split; [exact Hst |]. split; [exact Hc |].
  exact Hmf.
Defined.

(** The session after authentication and a first sender. *)
Lemma authenticated_iff_user_witness :
  exists s,
    sessions (execAll tick_clock sender_given) !! "s1" = Some s
    /\ (authenticated s = true <-> is_Some (user s)).
Proof.
  eexists. split; [vm_compute; reflexivity |].
  apply (authenticated_iff_user tick_clock sender_given "s1").
  vm_compute; reflexivity.
Defined.

(** Two senders on one connection, the second within one millisecond. *)
Lemma history_timestamps_nondecreasing_witness :
  clock_monotone burst_clock
  /\ exists s,
       sessions (execAll burst_clock two_senders) !! "s1" = Some s
       /\ history_ordered Z.le s.
Proof.
  split; [exact burst_clock_monotone |].
  eexists. split; [vm_compute; reflexivity |].
  apply (history_timestamps_nondecreasing burst_clock two_senders "s1").
  - exact burst_clock_monotone.
  - vm_compute; reflexivity.
Defined.

End Witnesses.

(* ===================================================================== *)
(** * Reply classes of the error mappings *)
(* ===================================================================== *)

Section ReplyClassProperties.
Import HttpToSmtp.

Ltac unmapped_or_listed h :=
  destruct (HTTP_TO_SMTP_MAPPINGS_cases h) as [E | E];
  [ unfold mapHttpToSmtp, isRetryableHttpStatus; rewrite E
  | repeat (apply elem_of_cons in E as [-> | E]);
    [ .. | by apply elem_of_nil in E ] ].

Ltac evaluated :=
  repeat match goal with
  | |- context [mapHttpToSmtp ?h] =>
      let v := eval vm_compute in (mapHttpToSmtp h) in
      replace (mapHttpToSmtp h) with v by (vm_compute; reflexivity)
  | |- context [isRetryableHttpStatus ?h] =>
      let v := eval vm_compute in (isRetryableHttpStatus h) in
      replace (isRetryableHttpStatus h) with v by (vm_compute; reflexivity)
  | |- context [Mapping.mapFromSMTPCode ?c] =>
      let v := eval vm_compute in (Mapping.mapFromSMTPCode c) in
      replace (Mapping.mapFromSMTPCode c) with v by (vm_compute; reflexivity)
  end.

(** The three shapes of an answer of [mapHttpToSmtp]. *)
Lemma mapHttpToSmtp_shape (h : Z) :
  let r := mapHttpToSmtp h in
  same_class (smtpCode r) (enhancedCode r)
  /\ ((200 <= h < 300 /\ smtpCode r = 250 /\ retryable r = false)
      \/ (~ 200 <= h < 300 /\ 400 <= smtpCode r < 500 /\ retryable r = true)
      \/ (~ 200 <= h < 300 /\ 500 <= smtpCode r < 600
          /\ retryable r = false)).
Proof.
  cbv zeta. unfold same_class.
  unmapped_or_listed h;
    try (evaluated; cbn [smtpCode enhancedCode retryable];
         split; [reflexivity | lia]).
  destruct ((200 <=? h) && (h <? 300)) eqn:E2;
    [| destruct ((400 <=? h) && (h <? 500)) eqn:E4];
    cbn [smtpCode enhancedCode retryable];
    (split; [reflexivity | lia]).
Qed.

(** X1.  Whatever the HTTP status, [mapHttpToSmtp] answers with a reply
    code of class 2, 4 or 5 and an enhanced code of the same class; the
    answer is flagged retryable exactly when it is a temporary failure
    (4yz), and it is a success (250) exactly when the HTTP status is 2xx. *)
Theorem mapHttpToSmtp_class_consistent (h : Z) :
  same_class (smtpCode (mapHttpToSmtp h)) (enhancedCode (mapHttpToSmtp h))
  /\ (smtpCode (mapHttpToSmtp h) = 250
      \/ failure_code (smtpCode (mapHttpToSmtp h)))
  /\ (retryable (mapHttpToSmtp h) = true
      <-> 400 <= smtpCode (mapHttpToSmtp h) < 500)
  /\ (smtpCode (mapHttpToSmtp h) = 250 <-> 200 <= h < 300).
Proof.
  destruct (mapHttpToSmtp_shape h) as [Hc Hs]. cbv zeta in Hs.
  unfold failure_code. split; [exact Hc |].
  destruct Hs as [(H2 & -> & ->) | [(H2 & H4 & ->) | (H2 & H5 & ->)]];
    repeat split; intros; try lia; try discriminate.
Qed.

(** X2.  [isRetryableHttpStatus] and the [retryable] flag of
    [mapHttpToSmtp] agree on the 2xx statuses and on every status from 400
    up, and on no other status: a status below 200 or a 3xx is answered
    with the retryable 451 by [mapHttpToSmtp] while
    [isRetryableHttpStatus] says it is not retryable. *)
Theorem isRetryableHttpStatus_agreement (h : Z) :
  isRetryableHttpStatus h = retryable (mapHttpToSmtp h)
  <-> (200 <= h < 300 \/ 400 <= h).
Proof.
  unmapped_or_listed h;
    try (evaluated; split; [intros _; lia | reflexivity]).
  destruct ((200 <=? h) && (h <? 300)) eqn:E2;
    [| destruct ((400 <=? h) && (h <? 500)) eqn:E4];
    cbn [retryable].
  - split; [intros _; lia | intros _].
    apply orb_false_iff. split; lia.
  - split; [intros _; lia | intros _].
    assert (h <> 429) by (intros ->; vm_compute in E; discriminate).
    apply orb_false_iff. split; lia.
  - split.
    + intros [H | H]%orb_true_iff; lia.
    + intros [H | H]; [lia |]. apply orb_true_iff. right. lia.
Qed.

Lemma SMTP_TO_HTTP_cases (code : Z) :
  Mapping.SMTP_TO_HTTP !! code = None
  \/ code ∈ [220; 221; 235; 250; 354; 421; 450; 451; 452; 454; 500; 501;
             502; 503; 521; 530; 534; 535; 538; 550; 551; 552; 553; 554;
             556].
Proof.
  destruct (Mapping.SMTP_TO_HTTP !! code) as [m|] eqn:E; [right | by left].
  apply elem_of_list_to_map_2 in E.
  repeat (apply elem_of_cons in E as [E | E];
          [injection E as -> _; set_solver | ]).
  by apply elem_of_nil in E.
Qed.

(** X3.  Mapping an HTTP status to SMTP with [mapHttpToSmtp] and the
    reply code back with [mapFromSMTPCode] keeps the retry flag, whatever
    the status; for a 2xx, 4xx or 5xx status it also keeps the class of the
    HTTP status. *)
Theorem mapFromSMTPCode_round_trip (h : Z) :
  Mapping.retryable (Mapping.mapFromSMTPCode (smtpCode (mapHttpToSmtp h)))
  = retryable (mapHttpToSmtp h)
  /\ (200 <= h < 300 \/ 400 <= h < 600 ->
      Mapping.status (Mapping.mapFromSMTPCode (smtpCode (mapHttpToSmtp h)))
        / 100
      = h / 100).
Proof.
  unmapped_or_listed h;
    try (evaluated; cbn [smtpCode retryable]; evaluated;
         split; [reflexivity | intros _; reflexivity]).
  destruct ((200 <=? h) && (h <? 300)) eqn:E2;
    [| destruct ((400 <=? h) && (h <? 500)) eqn:E4];
    cbn [smtpCode retryable]; evaluated;
    (split; [reflexivity |]);
    cbn [Mapping.status]; intros Hr.
  - change (200 / 100) with 2. apply Z.div_unique with (h - 200); lia.
  - change (404 / 100) with 4. apply Z.div_unique with (h - 400); lia.
  - change (500 / 100) with 5. apply Z.div_unique with (h - 500); lia.
Qed.

(** X4.  [mapFromSMTPCode] reports a reply code as not retryable exactly
    when it is one of the twenty success, intermediate and permanent codes
    of its table: every temporary code (4yz) is retryable, and so is every
    code missing from the table, the permanent ones (504, 555) included,
    which come back as HTTP 500. *)
Theorem mapFromSMTPCode_not_retryable_iff (code : Z) :
  (Mapping.retryable (Mapping.mapFromSMTPCode code) = false
   <-> code ∈ [220; 221; 235; 250; 354; 500; 501; 502; 503; 521; 530; 534;
               535; 538; 550; 551; 552; 553; 554; 556])
  /\ (Mapping.SMTP_TO_HTTP !! code = None ->
      Mapping.mapFromSMTPCode code = Mapping.http 500 "Unknown error" true).
Proof.
  split.
  - destruct (SMTP_TO_HTTP_cases code) as [E | E].
    + unfold Mapping.mapFromSMTPCode. rewrite E. cbn.
      split; [discriminate |].
      intros Hin.
      repeat (apply elem_of_cons in Hin as [-> | Hin];
              [vm_compute in E; discriminate |]).
      by apply elem_of_nil in Hin.
    + repeat (apply elem_of_cons in E as [-> | E]);
        [ .. | by apply elem_of_nil in E ];
        evaluated; cbn [Mapping.retryable];
        (split;
         [intros Hf; first
            [ discriminate Hf
            | apply (bool_decide_unpack _); vm_compute; exact I ]
         | try reflexivity]);
        intros Hin;
        repeat (apply elem_of_cons in Hin as [Hin | Hin];
                [discriminate |]);
        by apply elem_of_nil in Hin.
  - intros E. unfold Mapping.mapFromSMTPCode. by rewrite E.
Qed.

End ReplyClassProperties.

(* ===================================================================== *)
(** * Errors relayed to the SMTP client *)
(* ===================================================================== *)

Section RelayedErrors.
Import Mapping ErrorMappings ApiClient DataErrors.

(** Every entry of the table is a failure whose enhanced code has the
    class of its reply code. *)
Lemma ERROR_MAPPINGS_classes :
  map_Forall
    (fun _ m =>
       (400 <=? smtpCode m) && (smtpCode m <? 600)
       && bool_decide (enhanced_class (ErrorMappings.enhancedCode m)
                       = Some (smtpCode m / 100)) = true)
    ERROR_MAPPINGS.
Proof. apply (bool_decide_unpack _). vm_compute. exact I. Qed.

Lemma by_keyword_classes (msg : string) :
  failure_code (responseCode (by_keyword keyword_rules msg))
  /\ same_class (responseCode (by_keyword keyword_rules msg))
       (Mapping.enhancedCode (by_keyword keyword_rules msg)).
Proof.
  unfold keyword_rules, failure_code, same_class. cbn [by_keyword].
  repeat match goal with
  | |- context [if existsb ?f ?l then _ else _] => destruct (existsb f l)
  end;
    cbn [responseCode Mapping.enhancedCode createSMTPError];
    (split; [lia | reflexivity]).
Qed.

(** X5.  [mapToSMTPError] never answers with a success: for every error
    whose class is not named like a member of [Object.prototype], the
    answer is a temporary or permanent failure (4yz or 5yz) whose enhanced
    code has the class of its reply code, whether it comes from the table
    or from the keywords of the message. *)
Theorem mapToSMTPError_class_consistent (error : JsError) :
  match mapToSMTPError error with
  | Some r =>
      failure_code (responseCode r)
      /\ same_class (responseCode r) (Mapping.enhancedCode r)
  | None =>
      constructorName error ∈ OBJECT_PROTOTYPE_KEYS
      /\ ERROR_MAPPINGS !! constructorName error = None
  end.
Proof.
  unfold mapToSMTPError.
  destruct (ERROR_MAPPINGS !! constructorName error) as [m|] eqn:E.
  - apply ERROR_MAPPINGS_classes in E.
    apply andb_true_iff in E as [E Hc].
    apply andb_true_iff in E as [Hlo Hhi].
    apply bool_decide_eq_true in Hc.
    unfold failure_code, same_class.
    cbn [responseCode Mapping.enhancedCode createSMTPError].
    split; [lia | exact Hc].
  - case_bool_decide as Hk.
    + split; [exact Hk | reflexivity].
    + apply by_keyword_classes.
Qed.

(** X6.  Every failure of the API call is relayed by [onData] with the
    answer [mapHttpToSmtp] gives for the HTTP status kept in the error:
    the reply line is that answer formatted, its enhanced code has the
    class of its reply code, and it is a temporary failure exactly when the
    error is flagged retryable.  A failure without a usable status (a
    timeout, an unknown error, an SDK error with no status code or with
    status 0) is relayed as a retryable 451; the only failures relayed with
    the success code 250 are SDK errors that carry a 2xx status. *)
Theorem sendMessage_failure_relayed (sdk : SdkOutcome)
    (e : SMTPAgentMailError) :
  sendMessage sdk = inr e ->
  exists r,
    onDataCatch (ThrownApi e) = Some r
    /\ smtpError e = HttpToSmtp.mapHttpToSmtp (httpStatus e)
    /\ Mapping.message r
       = HttpToSmtp.formatSmtpResponse
           (HttpToSmtp.mapHttpToSmtp (httpStatus e))
    /\ same_class (responseCode r) (Mapping.enhancedCode r)
    /\ (HttpToSmtp.retryable (smtpError e) = true
        <-> 400 <= responseCode r < 500)
    /\ (responseCode r = 250
        <-> exists h body, sdk = SdkApiError (Some h) body /\ 200 <= h < 300)
    /\ (sdk = SdkTimeout
        \/ (exists rendered, sdk = SdkOther rendered)
        \/ (exists body, sdk = SdkApiError None body)
        \/ (exists body, sdk = SdkApiError (Some 0) body) ->
        responseCode r = 451
        /\ HttpToSmtp.retryable (smtpError e) = true).
Proof.
  intros Hs. eexists. split; [reflexivity |].
  assert (He : smtpError e = HttpToSmtp.mapHttpToSmtp (httpStatus e))
    by (destruct sdk; cbn [sendMessage] in Hs; simplify_eq; reflexivity).
  split; [exact He |]. rewrite He.
  cbn [responseCode Mapping.enhancedCode Mapping.message createSMTPError].
  split; [reflexivity |].
  destruct (mapHttpToSmtp_shape (httpStatus e)) as [Hc Hshape].
  cbv zeta in Hshape. split; [exact Hc |].
  split; [| split].
  - destruct Hshape as [(H2 & Hcode & Hr) | [(H2 & Hcode & Hr)
                                            | (H2 & Hcode & Hr)]];
      rewrite Hr; split; intros; try lia; try discriminate; reflexivity.
  - assert (H250 : HttpToSmtp.smtpCode
                     (HttpToSmtp.mapHttpToSmtp (httpStatus e)) = 250
                   <-> 200 <= httpStatus e < 300)
      by (destruct Hshape as [(H2 & Hcode & Hr) | [(H2 & Hcode & Hr)
                                                  | (H2 & Hcode & Hr)]];
          split; intros; try lia; try done).
    rewrite H250. clear H250 Hshape Hc He.
    destruct sdk as [resp | | [h|] body | rendered];
      cbn [sendMessage] in Hs; simplify_eq; cbn [httpStatus or_500].
    + split; [lia | intros (? & ? & ? & _); discriminate].
    + destruct (h =? 0) eqn:E0.
      * split; [lia |]. intros (h' & b' & [= <- <-] & Hh). lia.
      * split; [intros Hh; by exists h, body |].
        intros (h' & b' & [= <- <-] & Hh). exact Hh.
    + split; [lia | intros (? & ? & ? & _); discriminate].
    + split; [lia | intros (? & ? & ? & _); discriminate].
  - intros Hno.
    assert (Hst : httpStatus e ∈ [504; 502; 500]).
    { destruct Hno as [-> | [[t ->] | [[b ->] | [b ->]]]];
        cbn [sendMessage] in Hs; simplify_eq;
        cbn [httpStatus or_500 Z.eqb];
        apply (bool_decide_unpack _); vm_compute; exact I. }
    clear -Hst.
    repeat (apply elem_of_cons in Hst as [-> | Hst]);
      [ .. | by apply elem_of_nil in Hst ];
      split; vm_compute; reflexivity.
Qed.

(** X7.  An [Error] thrown while a message is processed is never relayed
    as a success.  When its message contains ["Invalid"] it is answered
    550 5.1.1 with the message itself, whatever its class; otherwise it is
    answered as [mapToSMTPError] maps it; in both cases with a temporary or
    permanent failure whose enhanced code has the class of its reply
    code. *)
Theorem onDataCatch_error_is_failure (e : JsError) :
  (includes (errorMessage e) "Invalid" = true ->
   onDataCatch (ThrownError e)
   = Some (createSMTPError 550 "5.1.1" (errorMessage e)))
  /\ (includes (errorMessage e) "Invalid" = false ->
      onDataCatch (ThrownError e) = mapToSMTPError e)
  /\ match onDataCatch (ThrownError e) with
     | Some r =>
         failure_code (responseCode r)
         /\ same_class (responseCode r) (Mapping.enhancedCode r)
     | None => constructorName e ∈ OBJECT_PROTOTYPE_KEYS
     end.
Proof.
  unfold onDataCatch.
  destruct (includes (errorMessage e) "Invalid") eqn:Ei.
  - split; [reflexivity |]. split; [discriminate |].
    unfold failure_code, same_class.
    cbn [responseCode Mapping.enhancedCode createSMTPError].
    unfold SMTPErrorCode.MAILBOX_NOT_FOUND. split; [lia | reflexivity].
  - split; [discriminate |]. split; [reflexivity |].
    unfold mapToSMTPError.
    destruct (ERROR_MAPPINGS !! constructorName e) as [m|] eqn:E.
    + apply ERROR_MAPPINGS_classes in E.
      apply andb_true_iff in E as [E Hc].
      apply andb_true_iff in E as [Hlo Hhi].
      apply bool_decide_eq_true in Hc.
      unfold failure_code, same_class.
      cbn [responseCode Mapping.enhancedCode createSMTPError].
      split; [lia | exact Hc].
    + case_bool_decide as Hk; [exact Hk | apply by_keyword_classes].
Qed.

End RelayedErrors.

Section RelayedErrorsWitnesses.
Import Mapping ErrorMappings ApiClient DataErrors.

(** A timeout of the SDK call. *)
Lemma sendMessage_failure_relayed_witness :
  exists e r,
    sendMessage SdkTimeout = inr e
    /\ onDataCatch (ThrownApi e) = Some r
    /\ Mapping.message r = "451 4.4.1 Gateway timeout, please retry".
Proof.
  eexists. 
  destruct (sendMessage_failure_relayed SdkTimeout _ eq_refl)
    as (r & Hr & _ & Hm & _).
  exists r. split; [reflexivity |]. split; [exact Hr |].
  rewrite Hm. vm_compute. reflexivity.
Defined.

End RelayedErrorsWitnesses.

(* ===================================================================== *)
(** * The outcomes of the authentication pipeline *)
(* ===================================================================== *)

Section PipelineOutcomes.
Import AuthErrors Database Validator.

Variable getApiKey : string -> DbResult MockApiKey.t.
Variable getInbox : string -> DbResult MockInbox.t.
Variable parseDate : string -> option Z.
Variable now : Z.

Let validate := validateSMTPCredentials getApiKey getInbox parseDate now.

(** Membership in a list of constants. *)
Ltac listed := apply (bool_decide_unpack _); vm_compute; exact I.

Ltac listed_from H :=
  repeat (apply elem_of_cons in H as [-> | H]);
  [ .. | by apply elem_of_nil in H ]; listed.

Ltac not_listed H :=
  repeat (apply elem_of_cons in H as [H | H]; [discriminate H |]);
  by apply elem_of_nil in H.

Lemma includes_elem_of (l : list string) (x : string) :
  includes l x = true <-> x ∈ l.
Proof.
  unfold includes. rewrite existsb_exists. split.
  - intros (y & Hin & ->%String.eqb_eq). by apply list_elem_of_In.
  - intros Hin. exists x. split; [by apply list_elem_of_In |].
    apply String.eqb_refl.
Qed.

Lemma expiry_check (apiKey : MockApiKey.t) :
  present (MockApiKey.expires_at apiKey)
  && date_lt (parseDate (show (MockApiKey.expires_at apiKey))) (Some now)
  = true
  <-> expiry_passed parseDate now apiKey.
Proof.
  unfold expiry_passed, present, show, date_lt.
  destruct (MockApiKey.expires_at apiKey) as [s|]; cbn [andb].
  - destruct (String.eqb_spec s "") as [-> | Hne]; cbn [negb andb].
    + split; [discriminate |]. intros (s & t & [= <-] & Hne & _). done.
    + destruct (parseDate s) as [t|] eqn:Ht.
      * split.
        -- intros Hlt%Z.ltb_lt. by exists s, t.
        -- intros (s' & t' & [= <-] & _ & Ht' & Hlt).
           rewrite Ht in Ht'. injection Ht' as <-. by apply Z.ltb_lt.
      * split; [discriminate |].
        intros (s' & t' & [= <-] & _ & Ht' & _). congruence.
  - split; [discriminate |]. intros (s & t & [=] & _).
Qed.

(** The outcome of the pipeline from the API key record on. *)
Lemma step4_cases (username : string) (apiKey : MockApiKey.t)
    (log : list DbCall) :
  (~ key_admitted parseDate now apiKey
   /\ exists c lm,
        step4 getInbox parseDate now username apiKey log
        = (AuthFailure (createAuthError c lm), log)
        /\ c ∈ [API_KEY_REVOKED; API_KEY_EXPIRED; INSUFFICIENT_PERMISSIONS])
  \/ (key_admitted parseDate now apiKey
      /\ step4 getInbox parseDate now username apiKey log
         = step7 getInbox username apiKey log).
Proof.
  unfold step4, step5, step6, key_admitted.
  destruct (present (MockApiKey.revoked_at apiKey)) eqn:Hrev.
  { left. split; [intros [? _]; done |].
    do 2 eexists. split; [reflexivity | listed]. }
  destruct (present (MockApiKey.expires_at apiKey) && _) eqn:Hexp.
  { left. apply expiry_check in Hexp. split; [intros (_ & ? & _); done |].
    do 2 eexists. split; [reflexivity | listed]. }
  destruct (includes (MockApiKey.scopes apiKey) "smtp:send") eqn:Hsc;
    cbn [negb].
  - right. split; [| reflexivity]. split; [done |]. split.
    + intros Hp%expiry_check. congruence.
    + by apply includes_elem_of.
  - left. split.
    + intros (_ & _ & Hin%includes_elem_of). congruence.
    + do 2 eexists. split; [reflexivity | listed].
Qed.

(** The outcome of the pipeline from the inbox lookup on. *)
Lemma step7_cases (username : string) (apiKey : MockApiKey.t)
    (log : list DbCall) :
  let log' := (log ++ [CallGetInbox username])%list in
  (exists msg lm,
     getInbox username = Rejected msg
     /\ step7 getInbox username apiKey log
        = (AuthFailure (createAuthError DATABASE_ERROR lm), log'))
  \/ (exists c lm,
        (forall msg, getInbox username <> Rejected msg)
        /\ (forall inbox,
              getInbox username = Resolved (Some inbox) ->
              MockInbox.status inbox = active ->
              MockInbox.organization_id inbox
              <> MockApiKey.organization_id apiKey)
        /\ step7 getInbox username apiKey log
           = (AuthFailure (createAuthError c lm), log')
        /\ c ∈ [INBOX_NOT_FOUND; INBOX_DISABLED; INBOX_SUSPENDED;
                INBOX_ORG_MISMATCH])
  \/ (exists inbox,
        getInbox username = Resolved (Some inbox)
        /\ MockInbox.status inbox = active
        /\ MockInbox.organization_id inbox
           = MockApiKey.organization_id apiKey
        /\ step7 getInbox username apiKey log
           = (AuthSuccess (user_of inbox apiKey), log')).
Proof.
  cbv zeta.
  unfold step7, await_getInbox, mbind, Lookup_bind. cbv beta iota zeta.
  destruct (getInbox username) as [[inbox|] | msg] eqn:Hi.
  - unfold step8, step9.
    destruct (MockInbox.status inbox) eqn:Hst.
    + rewrite bool_decide_eq_false_2 by discriminate.
      rewrite bool_decide_eq_false_2 by discriminate.
      destruct (String.eqb_spec (MockInbox.organization_id inbox)
                  (MockApiKey.organization_id apiKey)) as [Heq | Hne];
        cbn [negb].
      * right; right. exists inbox. done.
      * right; left. do 2 eexists. split; [done |]. split.
        -- intros i [= <-] _. exact Hne.
        -- split; [reflexivity | listed].
    + rewrite bool_decide_eq_true_2 by reflexivity.
      right; left. do 2 eexists. split; [done |]. split.
      * intros i [= <-]. congruence.
      * split; [reflexivity | listed].
    + rewrite bool_decide_eq_false_2 by discriminate.
      rewrite bool_decide_eq_true_2 by reflexivity.
      right; left. do 2 eexists. split; [done |]. split.
      * intros i [= <-]. congruence.
      * split; [reflexivity | listed].
  - right; left. do 2 eexists. split; [done |]. split; [done |].
    split; [reflexivity | listed].
  - left. do 2 eexists. split; reflexivity.
Qed.

(** The outcome of the pipeline from the API key lookup on. *)
Lemma step3_cases (username password : string) :
  let log := [CallGetApiKey password] in
  (exists msg lm,
     getApiKey password = Rejected msg
     /\ step3 getApiKey getInbox parseDate now username password []
        = (AuthFailure (createAuthError DATABASE_ERROR lm), log))
  \/ (exists lm,
        getApiKey password = Resolved None
        /\ step3 getApiKey getInbox parseDate now username password []
           = (AuthFailure (createAuthError API_KEY_NOT_FOUND lm), log))
  \/ (exists apiKey,
        getApiKey password = Resolved (Some apiKey)
        /\ step3 getApiKey getInbox parseDate now username password []
           = step4 getInbox parseDate now username apiKey log).
Proof.
  cbv zeta.
  unfold step3, await_getApiKey, mbind, Lookup_bind. cbv beta iota zeta.
  change ([] ++ [CallGetApiKey password])%list
    with [CallGetApiKey password].
  destruct (getApiKey password) as [[apiKey|] | msg].
  - right; right. by exists apiKey.
  - right; left. by eexists.
  - left. by do 2 eexists.
Qed.

(** The formats are refused with no lookup, or the pipeline is at
    STEP 3. *)
Lemma validate_cases (username password : JsValue) :
  (username_well_formed username && password_well_formed password = false
   /\ exists c lm,
        run (validate username password)
        = (AuthFailure (createAuthError c lm), [])
        /\ c ∈ [INVALID_INBOX_ID_FORMAT; INVALID_API_KEY_FORMAT])
  \/ (exists us ps,
        username = JsString us /\ password = JsString ps
        /\ validateInboxIdFormat us = true
        /\ validateApiKeyFormat ps = true
        /\ username_well_formed username && password_well_formed password
           = true
        /\ run (validate username password)
           = step3 getApiKey getInbox parseDate now us ps []).
Proof.
  destruct (username_well_formed username) eqn:Hu.
  - destruct (password_well_formed password) eqn:Hp.
    + right.
      destruct username as [| | | | us]; try discriminate.
      destruct password as [| | | | ps]; try discriminate.
      cbn [username_well_formed password_well_formed] in Hu, Hp.
      apply andb_true_iff in Hu as [_ Hu], Hp as [_ Hp].
      exists us, ps. repeat split; try done.
      unfold run. unfold validate. by rewrite validate_well_formed.
    + left. split; [reflexivity |].
      destruct (validate_password_malformed getApiKey getInbox parseDate now
                  username password Hu Hp) as (lm & Hr).
      do 2 eexists. split; [exact Hr | listed].
  - left. split; [reflexivity |].
    destruct (validate_username_malformed getApiKey getInbox parseDate now
                username password Hu) as (lm & Hr).
    do 2 eexists. split; [exact Hr | listed].
Qed.

(** X8.  The pipeline succeeds in exactly one situation: both values are
    strings of the accepted formats, the key lookup resolves to a key that
    is not revoked, not expired and holds the [smtp:send] scope, and the
    inbox lookup resolves to an active inbox of the organization of the
    key.  The user returned is then made of the identifier, organization
    and address of the inbox and the identifier of the key, and exactly
    two lookups were made: the key, then the inbox. *)
Theorem validateSMTPCredentials_success_iff (username password : JsValue)
    (u : AuthenticatedUser) (log : list DbCall) :
  run (validate username password) = (AuthSuccess u, log)
  <-> exists us ps apiKey inbox,
        username = JsString us /\ password = JsString ps
        /\ validateInboxIdFormat us = true
        /\ validateApiKeyFormat ps = true
        /\ getApiKey ps = Resolved (Some apiKey)
        /\ key_admitted parseDate now apiKey
        /\ getInbox us = Resolved (Some inbox)
        /\ MockInbox.status inbox = active
        /\ MockInbox.organization_id inbox
           = MockApiKey.organization_id apiKey
        /\ u = user_of inbox apiKey
        /\ log = [CallGetApiKey ps; CallGetInbox us].
Proof.
  split.
  - intros Hrun.
    destruct (validate_cases username password)
      as [(_ & c & lm & Hr & _) | (us & ps & -> & -> & Hu & Hp & _ & Hr)];
      [congruence |].
    rewrite Hr in Hrun.
    destruct (step3_cases us ps)
      as [(msg & lm & _ & H3) | [(lm & _ & H3) | (k & Hk & H3)]];
      cbv zeta in H3; rewrite H3 in Hrun; try congruence.
    destruct (step4_cases us k [CallGetApiKey ps])
      as [(_ & c & lm & H4 & _) | (Hadm & H4)];
      rewrite H4 in Hrun; [congruence |].
    destruct (step7_cases us k [CallGetApiKey ps])
      as [(msg & lm & _ & H7) | [(c & lm & _ & _ & H7 & _)
                                | (i & Hi & Hst & Horg & H7)]];
      cbv zeta in H7; rewrite H7 in Hrun; try congruence.
    injection Hrun as <- <-.
    exists us, ps, k, i. done.
  - intros (us & ps & k & i & -> & -> & Hu & Hp & Hk & Hadm & Hi & Hst
            & Horg & -> & ->).
    unfold run. unfold validate. rewrite (validate_well_formed _ _ _ _ _ _ Hu Hp).
    destruct (step3_cases us ps)
      as [(msg & lm & Hk' & _) | [(lm & Hk' & _) | (k' & Hk' & H3)]];
      try congruence.
    rewrite H3. rewrite Hk in Hk'. injection Hk' as <-.
    destruct (step4_cases us k [CallGetApiKey ps])
      as [(Hn & _) | (_ & H4)]; [done |].
    rewrite H4.
    destruct (step7_cases us k [CallGetApiKey ps])
      as [(msg & lm & Hi' & _) | [(c & lm & _ & Hno & _)
                                 | (i' & Hi' & _ & _ & H7)]];
      try congruence.
    + exfalso. by apply (Hno i).
    + rewrite Hi in Hi'. injection Hi' as <-. exact H7.
Qed.

(** X9.  With both formats accepted the pipeline looks the key up first
    and once; it looks the inbox up, once and after the key, exactly when
    the key lookup resolved to a key that is not revoked, not expired and
    holds the [smtp:send] scope.  No inbox is looked up for a key that is
    unknown, revoked, expired or under-scoped, or when the key lookup
    failed. *)
Theorem validateSMTPCredentials_lookups (us ps : string) :
  validateInboxIdFormat us = true ->
  validateApiKeyFormat ps = true ->
  let log := (run (validate (JsString us) (JsString ps))).2 in
  ((exists apiKey, getApiKey ps = Resolved (Some apiKey)
                   /\ key_admitted parseDate now apiKey) ->
   log = [CallGetApiKey ps; CallGetInbox us])
  /\ (~ (exists apiKey, getApiKey ps = Resolved (Some apiKey)
                        /\ key_admitted parseDate now apiKey) ->
      log = [CallGetApiKey ps]).
Proof.
  intros Hu Hp. cbv zeta.
  unfold run. unfold validate. rewrite (validate_well_formed _ _ _ _ _ _ Hu Hp).
  destruct (step3_cases us ps)
    as [(msg & lm & Hk & H3) | [(lm & Hk & H3) | (k & Hk & H3)]];
    cbv zeta in H3; rewrite H3.
  - split; [intros (k & Hk' & _); congruence | done].
  - split; [intros (k & Hk' & _); congruence | done].
  - destruct (step4_cases us k [CallGetApiKey ps])
      as [(Hn & c & lm & H4 & _) | (Hadm & H4)]; rewrite H4.
    + split; [| done]. intros (k' & Hk' & Hadm).
      rewrite Hk in Hk'. injection Hk' as <-. done.
    + split; [intros _ | intros Hn; exfalso; apply Hn; by exists k].
      destruct (step7_cases us k [CallGetApiKey ps])
        as [(msg & lm & _ & H7) | [(c & lm & _ & _ & H7 & _)
                                  | (i & _ & _ & _ & H7)]];
        cbv zeta in H7; rewrite H7; reflexivity.
Qed.

(** X10.  A failure of the pipeline is an entry of the error table with
    a log message; it is never [RATE_LIMITED] or [SERVICE_UNAVAILABLE].
    It is the temporary [DATABASE_ERROR], answered 454 4.7.0, exactly when
    the last lookup made was rejected by the lookup layer; every other
    failure is answered with the permanent 535 5.7.8. *)
Theorem validateSMTPCredentials_failure (username password : JsValue)
    (e : AuthError) (log : list DbCall) :
  run (validate username password) = (AuthFailure e, log) ->
  e = createAuthError (code e) (logMessage e)
  /\ code e <> RATE_LIMITED /\ code e <> SERVICE_UNAVAILABLE
  /\ (code e = DATABASE_ERROR
      <-> exists msg,
            (exists ps, log = [CallGetApiKey ps]
                        /\ getApiKey ps = Rejected msg)
            \/ (exists ps us, log = [CallGetApiKey ps; CallGetInbox us]
                              /\ getInbox us = Rejected msg))
  /\ (smtpCode e, enhancedCode e)
     = (if decide (code e = DATABASE_ERROR)
        then (454, "4.7.0") else (535, "5.7.8")).
Proof.
  intros Hrun.
  assert (Hshape :
    exists c lm,
      e = createAuthError c lm
      /\ c ∈ [INVALID_INBOX_ID_FORMAT; INVALID_API_KEY_FORMAT;
              API_KEY_NOT_FOUND; API_KEY_REVOKED; API_KEY_EXPIRED;
              INSUFFICIENT_PERMISSIONS; INBOX_NOT_FOUND; INBOX_DISABLED;
              INBOX_SUSPENDED; INBOX_ORG_MISMATCH; DATABASE_ERROR]
      /\ (c = DATABASE_ERROR
          <-> exists msg,
                (exists ps, log = [CallGetApiKey ps]
                            /\ getApiKey ps = Rejected msg)
                \/ (exists ps us, log = [CallGetApiKey ps; CallGetInbox us]
                                  /\ getInbox us = Rejected msg))).
  { destruct (validate_cases username password)
      as [(_ & c & lm & Hr & Hc) | (us & ps & -> & -> & Hu & Hp & _ & Hr)];
      rewrite Hr in Hrun.
    { injection Hrun as <- <-. exists c, lm. split; [done |].
      split; [listed_from Hc |].
      split; [intros ->; not_listed Hc |].
      intros (msg & [(? & [=] & _) | (? & ? & [=] & _)]). }
    destruct (step3_cases us ps)
      as [(msg & lm & Hk & H3) | [(lm & Hk & H3) | (k & Hk & H3)]];
      cbv zeta in H3; rewrite H3 in Hrun.
    { injection Hrun as <- <-. exists DATABASE_ERROR, lm.
      split; [done |]. split; [listed |].
      split; [intros _ | done]. exists msg. left. by exists ps. }
    { injection Hrun as <- <-. exists API_KEY_NOT_FOUND, lm.
      split; [done |]. split; [listed |].
      split; [discriminate |].
      intros (msg & [(ps' & [= <-] & Hk') | (? & ? & [=] & _)]).
      congruence. }
    destruct (step4_cases us k [CallGetApiKey ps])
      as [(_ & c & lm & H4 & Hc) | (Hadm & H4)];
      rewrite H4 in Hrun.
    { injection Hrun as <- <-. exists c, lm.
      split; [done |]. split; [listed_from Hc |].
      split; [intros ->; not_listed Hc |].
      intros (msg & [(ps' & [= <-] & Hk') | (? & ? & [=] & _)]).
      congruence. }
    destruct (step7_cases us k [CallGetApiKey ps])
      as [(msg & lm & Hi & H7) | [(c & lm & Hno & _ & H7 & Hc)
                                | (i & _ & _ & _ & H7)]];
      cbv zeta in H7; rewrite H7 in Hrun; [| | congruence].
    { injection Hrun as <- <-. exists DATABASE_ERROR, lm.
      split; [done |]. split; [listed |].
      split; [intros _ | done]. exists msg. right. by exists ps, us. }
    { injection Hrun as <- <-. exists c, lm.
      split; [done |]. split; [listed_from Hc |].
      split; [intros ->; not_listed Hc |].
      intros (msg & [(? & [=] & _) | (ps' & us' & [= <- <-] & Hi')]).
      by apply Hno in Hi'. } }
  destruct Hshape as (c & lm & -> & Hc & Hdb).
  assert (Hcode : code (createAuthError c lm) = c) by (by destruct c).
  rewrite Hcode. cbn [logMessage createAuthError].
  split; [by destruct c |].
  split; [intros ->; not_listed Hc |].
  split; [intros ->; not_listed Hc |].
  split; [exact Hdb |].
  clear Hdb Hrun.
  repeat (apply elem_of_cons in Hc as [-> | Hc]);
    [ .. | by apply elem_of_nil in Hc ]; reflexivity.
Qed.

End PipelineOutcomes.

Section PipelineOutcomesWitnesses.
Import AuthErrors Database Validator.

(** The valid key and inbox of the mock data: two lookups. *)
Lemma validateSMTPCredentials_lookups_witness :
  validateInboxIdFormat "inb_valid1234567890" = true
  /\ validateApiKeyFormat "am_validkey12345678901234567890123456" = true
  /\ (validateMock evaluation_time "inb_valid1234567890"
        "am_validkey12345678901234567890123456").2
     = [CallGetApiKey "am_validkey12345678901234567890123456";
        CallGetInbox "inb_valid1234567890"].
Proof.
  assert (Hu : validateInboxIdFormat "inb_valid1234567890" = true)
    by (vm_compute; reflexivity).
  assert (Hp : validateApiKeyFormat "am_validkey12345678901234567890123456"
               = true) by (vm_compute; reflexivity).
  split; [exact Hu |]. split; [exact Hp |].
  apply (validateSMTPCredentials_lookups Database.getApiKey Database.getInbox
           mockParseDate evaluation_time _ _ Hu Hp).
  eexists. split; [vm_compute; reflexivity |].
  split; [reflexivity |]. split.
  - intros (s & t & Hs & _). discriminate Hs.
  - apply (bool_decide_unpack _). vm_compute. exact I.
Defined.

(** The lookup layer with its simulated database error switched on. *)
Lemma validateSMTPCredentials_failure_witness :
  exists e log,
    run (validateSMTPCredentials (getApiKeyWithPossibleError true)
           (getInboxWithPossibleError true) mockParseDate evaluation_time
           (JsString "inb_valid1234567890")
           (JsString "am_validkey12345678901234567890123456"))
    = (AuthFailure e, log)
    /\ code e = DATABASE_ERROR
    /\ (smtpCode e, enhancedCode e) = (454, "4.7.0").
Proof.
  do 2 eexists. split; [vm_compute; reflexivity |].
  split; [reflexivity |].
  match goal with
  | |- (smtpCode ?e, _) = _ =>
      exact (proj2 (proj2 (proj2 (proj2
               (validateSMTPCredentials_failure
                  (getApiKeyWithPossibleError true)
                  (getInboxWithPossibleError true) mockParseDate
                  evaluation_time
                  (JsString "inb_valid1234567890")
                  (JsString "am_validkey12345678901234567890123456")
                  e _ ltac:(vm_compute; reflexivity))))))
  end.
Defined.

End PipelineOutcomesWitnesses.

(* ===================================================================== *)
(** * The characters of accepted credentials *)
(* ===================================================================== *)

Section FormatAlphabet.
Import Regex Validator.

Lemma in_ranges_app (c : ascii) (a b : list (ascii * ascii)) :
  in_ranges c (a ++ b) = in_ranges c a || in_ranges c b.
Proof. apply existsb_app. Qed.

Lemma alphabet_seq (x : ascii) (a b : regex) :
  in_ranges x (alphabet (seq a b)) = true ->
  in_ranges x (alphabet a ++ alphabet b) = true.
Proof.
  rewrite in_ranges_app.
  destruct a, b; cbn [seq alphabet app]; rewrite ?in_ranges_app;
    cbn [in_ranges existsb]; rewrite ?orb_false_r; try done;
    intros ->; rewrite ?orb_true_r; done.
Qed.

Lemma alphabet_alt (x : ascii) (a b : regex) :
  in_ranges x (alphabet (alt a b)) = true ->
  in_ranges x (alphabet a ++ alphabet b) = true.
Proof.
  rewrite in_ranges_app.
  destruct a, b; cbn [alt alphabet app]; rewrite ?in_ranges_app;
    cbn [in_ranges existsb]; rewrite ?orb_false_r; try done;
    intros ->; rewrite ?orb_true_r; done.
Qed.

(** A derivative is made of classes of the pattern. *)
Lemma alphabet_deriv (c x : ascii) (r : regex) :
  in_ranges x (alphabet (deriv c r)) = true ->
  in_ranges x (alphabet r) = true.
Proof.
  induction r as [| | rs | r1 IH1 r2 IH2 | r1 IH1 r2 IH2 | r IH lo hi];
    cbn [deriv alphabet].
  - done.
  - done.
  - by destruct (in_ranges c rs).
  - intros H%alphabet_alt. rewrite in_ranges_app in H |- *.
    apply orb_true_iff in H as [H | H].
    + apply alphabet_seq in H. rewrite in_ranges_app in H.
      apply orb_true_iff in H as [H | H].
      * by rewrite (IH1 H).
      * by rewrite H, orb_true_r.
    + destruct (nullable r1); [| done].
      by rewrite (IH2 H), orb_true_r.
  - intros H%alphabet_alt. rewrite in_ranges_app in H |- *.
    apply orb_true_iff in H as [H | H].
    + by rewrite (IH1 H).
    + by rewrite (IH2 H), orb_true_r.
  - destruct hi as [[| h] |]; [done | |];
      intros H%alphabet_seq; rewrite in_ranges_app in H;
      cbn [alphabet] in H; apply orb_true_iff in H as [H | H]; auto.
Qed.

(** A character outside the classes of a pattern starts none of its
    words. *)
Lemma deriv_outside (c : ascii) (r : regex) :
  in_ranges c (alphabet r) = false -> deriv c r = Never.
Proof.
  induction r as [| | rs | r1 IH1 r2 IH2 | r1 IH1 r2 IH2 | r IH lo hi];
    cbn [deriv alphabet]; try done.
  - by intros ->.
  - rewrite in_ranges_app. intros [H1 H2]%orb_false_iff.
    rewrite (IH1 H1), (IH2 H2). by destruct (nullable r1).
  - rewrite in_ranges_app. intros [H1 H2]%orb_false_iff.
    by rewrite (IH1 H1), (IH2 H2).
  - intros H. rewrite (IH H). by destruct hi as [[| h] |].
Qed.

(** A word that matches a pattern is made of characters of its classes. *)
Lemma matches_alphabet (s : string) :
  forall r, matches r s = true -> all_in (alphabet r) s = true.
Proof.
  unfold all_in.
  induction s as [| c s IH]; intros r; [done |].
  cbn [matches list_ascii_of_string forallb]. intros Hm.
  destruct (in_ranges c (alphabet r)) eqn:Hc.
  - cbn [andb]. specialize (IH _ Hm).
    rewrite forallb_forall in IH |- *.
    intros x Hx. by apply (alphabet_deriv c), IH.
  - rewrite (deriv_outside _ _ Hc) in Hm.
    by rewrite (matches_Never s) in Hm.
Qed.

Lemma all_in_weaken (a b : list (ascii * ascii)) (s : string) :
  (forall c, in_ranges c a = true -> in_ranges c b = true) ->
  all_in a s = true -> all_in b s = true.
Proof.
  unfold all_in. intros Hsub. rewrite !forallb_forall. intros H x Hx.
  by apply Hsub, H.
Qed.

(** X11.  An accepted inbox identifier is made only of ASCII letters,
    digits and the characters [. _ % + - @]; an accepted API key is made
    only of ASCII letters, digits and [_], and has between 35 and 131
    characters.  Neither can hold a space, a control character or a line
    break. *)
Theorem accepted_credentials_alphabet (s : string) :
  (validateInboxIdFormat s = true -> all_in address_chars s = true)
  /\ (validateApiKeyFormat s = true ->
      all_in token_chars s = true
      /\ (35 <= String.length s <= 131)%nat).
Proof.
  split.
  - intros H%matches_alphabet. revert H. apply all_in_weaken.
    intros c. destruct c as [[] [] [] [] [] [] [] []]; vm_compute; done.
  - intros H. split.
    + apply matches_alphabet in H. revert H. apply all_in_weaken.
      intros c. destruct c as [[] [] [] [] [] [] [] []]; vm_compute; done.
    + apply validateApiKeyFormat_spec in H as (rest & -> & Hlen & _).
      change (String.length ("am_" +:+ rest))
        with (S (S (S (String.length rest)))). lia.
Qed.

End FormatAlphabet.

(* ===================================================================== *)
(** * The two command tables *)
(* ===================================================================== *)

Section CommandTables.
Import SessionState.

Lemma COMMAND_STATE_TRANSITIONS_cases (command : string) :
  COMMAND_STATE_TRANSITIONS !! command = None
  \/ command ∈ ["EHLO"; "HELO"; "AUTH"; "MAIL"; "RCPT"; "DATA";
                "DATA_COMPLETE"].
Proof.
  destruct (COMMAND_STATE_TRANSITIONS !! command) as [t|] eqn:E;
    [right | by left].
  apply elem_of_list_to_map_2 in E.
  repeat (apply elem_of_cons in E as [E | E];
          [injection E as -> _;
           apply (bool_decide_unpack _); vm_compute; exact I | ]).
  by apply elem_of_nil in E.
Qed.

(** X12.  The table of commands allowed in a state and the table of
    transitions agree: a command other than QUIT is allowed in a state
    exactly when the transition table gives it a next state from there.
    The one transition that is not a client command is the internal
    DATA_COMPLETE, from [DATA].  So once [canExecuteCommand] has accepted
    a command, the state check of its handler cannot fail. *)
Theorem command_tables_agree (s : SMTPSessionState) (command : string) :
  is_Some (getNextState s command)
  <-> (canExecuteCommandInState s command = true /\ command <> "QUIT")
      \/ (command = "DATA_COMPLETE" /\ s = DATA).
Proof.
  destruct (COMMAND_STATE_TRANSITIONS_cases command) as [E | E].
  - unfold getNextState. rewrite E. split; [by intros [? ?] |].
    intros [[Hc Hq] | [-> _]]; [| vm_compute in E; discriminate].
    unfold canExecuteCommandInState in Hc. apply bool_decide_eq_true in Hc.
    destruct s; cbn [VALID_COMMANDS_BY_STATE] in Hc;
      repeat (apply elem_of_cons in Hc as [-> | Hc];
              [first [done | vm_compute in E; discriminate] |]);
      by apply elem_of_nil in Hc.
  - repeat (apply elem_of_cons in E as [-> | E]);
      [ .. | by apply elem_of_nil in E ];
      destruct s;
      (split;
       [ intros Hn; vm_compute in Hn; destruct Hn as [x Hn];
         first [ discriminate Hn
               | left; split; [vm_compute; reflexivity | discriminate]
               | right; split; reflexivity ]
       | intros [[Hc Hq] | [Hc Hs]];
         first [ discriminate Hc | discriminate Hs
               | vm_compute in Hc; discriminate Hc
               | vm_compute; eexists; reflexivity ] ]).
Qed.

End CommandTables.

(* ===================================================================== *)
(** * More invariants of the sessions of a manager *)
(* ===================================================================== *)

Section ManagerInvariants.
Import SessionState SessionManager.

Variable clock : nat -> Z.

(** The transition table, one command at a time. *)
Lemma getNextState_by_command (st : SMTPSessionState) :
  getNextState st "EHLO" = (if decide (st = INIT) then Some HELLO else None)
  /\ getNextState st "AUTH"
     = (if decide (st = HELLO) then Some AUTHENTICATED else None)
  /\ getNextState st "MAIL"
     = (if decide (st = HELLO \/ st = AUTHENTICATED \/ st = COMPLETED)
        then Some MAIL_FROM else None)
  /\ getNextState st "RCPT"
     = (if decide (st = MAIL_FROM \/ st = RCPT_TO) then Some RCPT_TO else None)
  /\ getNextState st "DATA"
     = (if decide (st = RCPT_TO) then Some DATA else None)
  /\ getNextState st "DATA_COMPLETE"
     = (if decide (st = DATA) then Some COMPLETED else None).
Proof. destruct st; vm_compute; done. Qed.

(** Reads a field of a session built by assignments. *)
Ltac fields :=
  cbn [id state timestamps user authenticated mailFrom rcptTo messageData
       messageId connection messageCount stateHistory
       createdAt lastActivityAt authenticatedAt mailFromAt dataStartedAt
       completedAt from to timestamp command
       transitioned
       set_state set_timestamps set_user set_authenticated set_mailFrom
       set_rcptTo set_messageData set_messageId set_connection
       set_messageCount set_stateHistory on_timestamps
       set_lastActivityAt set_authenticatedAt set_mailFromAt
       set_dataStartedAt set_completedAt ts_set_lastActivityAt
       ts_set_authenticatedAt ts_set_mailFromAt ts_set_dataStartedAt
       ts_set_completedAt push_rcptTo push_stateHistory
       createEmptySession].

(** The cases of an effect that returns a session. *)
Ltac effect_cases Heff :=
  match type of Heff with
  | effect _ _ ?op ?s = Some _ =>
      let He := fresh in let Ha := fresh in let Hm := fresh in
      let Hr := fresh in let Hd := fresh in let Hc := fresh in
      destruct (getNextState_by_command (state s))
        as (He & Ha & Hm & Hr & Hd & Hc);
      unfold effect in Heff;
      destruct op; rewrite ?He, ?Ha, ?Hm, ?Hr, ?Hd, ?Hc in Heff;
      clear He Ha Hm Hr Hd Hc;
      repeat match type of Heff with
      | context [if ?c then _ else _] =>
          let E := fresh "E" in destruct c eqn:E; try discriminate Heff
      end;
      injection Heff as <- <-
  end.

Lemma hostname_assigned_frame (h : option string) (s : SMTPSession) :
  let s' := hostname_assigned h s in
  id s' = id s /\ state s' = state s /\ timestamps s' = timestamps s
  /\ user s' = user s /\ authenticated s' = authenticated s
  /\ mailFrom s' = mailFrom s /\ rcptTo s' = rcptTo s
  /\ messageData s' = messageData s /\ messageId s' = messageId s
  /\ messageCount s' = messageCount s /\ stateHistory s' = stateHistory s.
Proof.
  unfold hostname_assigned. destruct h as [h|]; [| done].
  destruct (negb (String.eqb h "")); done.
Qed.

(** What an effect does to the state, the history and the counter: it
    leaves them alone, or it appends one transition from the old state to
    the new one, and counts a message when the new state is
    [COMPLETED]. *)
Lemma effect_transition n op s s' k :
  effect clock n op s = Some (s', k) ->
  (stateHistory s' = stateHistory s /\ state s' = state s
   /\ messageCount s' = messageCount s)
  \/ exists tr,
       stateHistory s' = (stateHistory s ++ [tr])%list
       /\ from tr = state s /\ to tr = state s'
       /\ messageCount s'
          = messageCount s + (if decide (state s' = COMPLETED) then 1 else 0).
Proof.
  intros Heff.
  destruct (hostname_assigned_frame
              match op with OpHello h => h | _ => None end s)
    as (_ & Hhs & _ & _ & _ & _ & _ & _ & _ & Hhc & Hhh).
  effect_cases Heff; unfold reset_state; fields;
    try (left; done);
    right; eexists; rewrite ?Hhs, ?Hhc, ?Hhh;
    (split; [reflexivity |]); fields;
    (split; [reflexivity |]); (split; [reflexivity |]);
    try (destruct (authenticated s));
    first [ rewrite decide_True by reflexivity
          | rewrite decide_False by discriminate ];
    lia.
Qed.

Lemma effect_recipients n op s s' k :
  effect clock n op s = Some (s', k) ->
  (length (rcptTo s) <= MAX_RECIPIENTS)%nat ->
  (length (rcptTo s') <= MAX_RECIPIENTS)%nat.
Proof.
  intros Heff Hs.
  destruct (hostname_assigned_frame
              match op with OpHello h => h | _ => None end s)
    as (_ & _ & _ & _ & _ & _ & Hhr & _).
  effect_cases Heff; fields; rewrite ?Hhr; try done; try (cbn; lia);
    apply Nat.leb_gt in E; rewrite length_app; cbn [length]; lia.
Qed.

(** X13.  No session of a reachable manager ever holds more than
    [MAX_RECIPIENTS] (50) recipients, whatever the sequence of calls. *)
Theorem recipients_bounded (cs : list Call) (sid : string)
    (s : SMTPSession) :
  sessions (execAll clock cs) !! sid = Some s ->
  (length (rcptTo s) <= MAX_RECIPIENTS)%nat.
Proof.
  intros H.
  apply (execAll_invariant clock
           (fun _ s => (length (rcptTo s) <= MAX_RECIPIENTS)%nat)) in H;
    [done | ..].
  - intros n sid' conn. cbn. unfold MAX_RECIPIENTS. lia.
  - intros n op s0 s' k. apply effect_recipients.
  - done.
Qed.

Lemma state_after_snoc (l : list StateTransition) (tr : StateTransition) :
  state_after (l ++ [tr]) = to tr.
Proof. unfold state_after. by rewrite last_snoc. Qed.

Lemma history_chained_snoc (l : list StateTransition) (tr : StateTransition) :
  (forall a, l !! 0%nat = Some a -> from a = INIT) ->
  (forall i a b, l !! i = Some a -> l !! S i = Some b -> from b = to a) ->
  from tr = state_after l ->
  (forall a, (l ++ [tr])%list !! 0%nat = Some a -> from a = INIT)
  /\ (forall i a b, (l ++ [tr])%list !! i = Some a ->
                    (l ++ [tr])%list !! S i = Some b -> from b = to a).
Proof.
  intros H0 Hl Htr. split.
  - intros a Ha. destruct l as [| x l]; cbn in Ha.
    + injection Ha as <-. exact Htr.
    + apply H0. exact Ha.
  - intros i a b Ha Hb.
    apply lookup_snoc_Some in Hb as [[Hlt Hb] | [Heq <-]].
    + rewrite lookup_app_l in Ha by lia. by apply (Hl i).
    + rewrite lookup_app_l in Ha by lia. rewrite Htr.
      unfold state_after. rewrite last_lookup.
      replace (Nat.pred (length l)) with i by lia. by rewrite Ha.
Qed.

Lemma effect_history_chained n op s s' k :
  effect clock n op s = Some (s', k) ->
  history_chained s -> history_chained s'.
Proof.
  intros Heff (H0 & Hl & Hst). unfold history_chained.
  destruct (effect_transition _ _ _ _ _ Heff)
    as [(-> & -> & _) | (tr & -> & Hf & Ht & _)]; [done |].
  rewrite state_after_snoc.
  destruct (history_chained_snoc (stateHistory s) tr H0 Hl) as [H0' Hl'];
    [congruence |].
  done.
Qed.

(** X14.  The transition history of every session of a reachable manager
    is a path from [INIT] to the current state of the session: the first
    entry starts in [INIT], every entry starts in the state the entry
    before it led to, and the last entry leads to the current state (which
    is [INIT] when the history is empty). *)
Theorem history_is_path (cs : list Call) (sid : string) (s : SMTPSession) :
  sessions (execAll clock cs) !! sid = Some s ->
  history_chained s.
Proof.
  intros H.
  apply (execAll_invariant clock (fun _ => history_chained)) in H;
    [done | ..].
  - intros n sid' conn. unfold history_chained. cbn.
    split; [| split]; done.
  - intros n op s0 s' k. apply effect_history_chained.
  - done.
Qed.

Lemma completions_snoc (l : list StateTransition) (tr : StateTransition) :
  Z.of_nat (completions (l ++ [tr]))
  = Z.of_nat (completions l)
    + (if decide (to tr = COMPLETED) then 1 else 0).
Proof.
  unfold completions. rewrite filter_app, length_app.
  rewrite Nat2Z.inj_add. f_equal.
  unfold filter. cbn [list_filter]. by case_decide.
Qed.

(** X15.  The message counter of every session of a reachable manager is
    the number of transitions into [COMPLETED] in its history: it counts
    the messages accepted on the connection, and it is never negative. *)
Theorem messageCount_counts_completions (cs : list Call) (sid : string)
    (s : SMTPSession) :
  sessions (execAll clock cs) !! sid = Some s ->
  messageCount s = Z.of_nat (completions (stateHistory s))
  /\ 0 <= messageCount s.
Proof.
  intros H.
  assert (Hc : messageCount s = Z.of_nat (completions (stateHistory s)));
    [| split; [exact Hc | lia]].
  apply (execAll_invariant clock
           (fun _ s => messageCount s
                       = Z.of_nat (completions (stateHistory s)))) in H;
    [done | ..].
  - done.
  - intros n op s0 s' k Heff Hs.
    destruct (effect_transition _ _ _ _ _ Heff)
      as [(-> & _ & ->) | (tr & -> & _ & Ht & ->)]; [done |].
    rewrite completions_snoc, Ht, Hs. reflexivity.
  - done.
Qed.

(** Turns the tests an effect made into facts on the state. *)
Ltac state_facts :=
  repeat match goal with
  | E : negb (bool_decide _) = false |- _ =>
      apply negb_false_iff, bool_decide_eq_true in E
  | E : negb (bool_decide _) = true |- _ =>
      apply negb_true_iff, bool_decide_eq_false in E
  | E : decide _ = left _ |- _ => clear E
  | E : decide _ = right _ |- _ => clear E
  | e : _ \/ _ |- _ => destruct e
  end.

Lemma effect_transaction_consistent n op s s' k :
  effect clock n op s = Some (s', k) ->
  transaction_consistent s -> transaction_consistent s'.
Proof.
  intros Heff [Hmd Hs]. unfold transaction_consistent.
  destruct (hostname_assigned_frame
              match op with OpHello h => h | _ => None end s)
    as (_ & Hhs & _ & _ & _ & Hhm & Hhr & Hhd & Hhi & _).
  effect_cases Heff; unfold reset_state; fields;
    rewrite ?Hhs, ?Hhm, ?Hhr, ?Hhd, ?Hhi;
    state_facts;
    try (destruct (authenticated s));
    (split; [done |]);
    destruct (state s) eqn:Est; try congruence;
    cbv beta iota in Hs |- *;
    destruct Hs as (? & ? & ?);
    repeat split; try done;
    by destruct (rcptTo s).
Qed.

(** X16.  In every session of a reachable manager the data of the
    current message fits the state: no sender, recipient or message
    identifier before a sender is given; a sender and no recipient in
    [MAIL_FROM]; a sender and at least one recipient in [RCPT_TO], [DATA]
    and [COMPLETED]; a message identifier exactly in [COMPLETED].  The
    message body is never stored in the session. *)
Theorem transaction_data_fits_state (cs : list Call) (sid : string)
    (s : SMTPSession) :
  sessions (execAll clock cs) !! sid = Some s ->
  transaction_consistent s.
Proof.
  intros H.
  apply (execAll_invariant clock (fun _ => transaction_consistent)) in H;
    [done | ..].
  - done.
  - intros n op s0 s' k. apply effect_transaction_consistent.
  - done.
Qed.

Lemma effect_authenticated_past_greeting n op s s' k :
  effect clock n op s = Some (s', k) ->
  authenticated_past_greeting s -> authenticated_past_greeting s'.
Proof.
  intros Heff Hs. unfold authenticated_past_greeting in *.
  destruct (hostname_assigned_frame
              match op with OpHello h => h | _ => None end s)
    as (_ & Hhs & _ & _ & Hha & _).
  effect_cases Heff; unfold reset_state; fields; rewrite ?Hhs, ?Hha;
    try done.
  - intros Ha. destruct (Hs Ha) as [Hi _]. done.
  - intros Ha. rewrite Ha. done.
Qed.

(** X17.  A session authenticates at most once.  In a reachable manager
    an authenticated session is past the greeting (its state is neither
    [INIT] nor [HELLO]), so [handleAuthentication] on it returns [null]
    and leaves the manager as it was: the user of a session, once set, is
    never replaced. *)
Theorem authenticated_session_refuses_authentication (cs : list Call)
    (sid : string) (s : SMTPSession) (u : SessionUser) :
  sessions (execAll clock cs) !! sid = Some s ->
  authenticated s = true ->
  state s <> INIT /\ state s <> HELLO
  /\ handleAuthentication clock sid u (execAll clock cs)
     = (None, execAll clock cs).
Proof.
  intros H Ha.
  pose proof H as Hp.
  apply (execAll_invariant clock (fun _ => authenticated_past_greeting))
    in Hp.
  - destruct (Hp Ha) as [Hi Hh]. split; [exact Hi |]. split; [exact Hh |].
    rewrite (handleAuthentication_present clock _ _ _ _ H).
    unfold outcome, effect.
    destruct (getNextState_by_command (state s)) as (_ & -> & _).
    by rewrite decide_False.
  - intros n sid' conn. unfold authenticated_past_greeting. cbn. done.
  - intros n op s0 s' k. apply effect_authenticated_past_greeting.
  - done.
Qed.

Lemma effect_served n op s s' k :
  guarded op s ->
  effect clock n op s = Some (s', k) ->
  served s -> served s'.
Proof.
  intros Hg Heff (Hi & Ha & Hu). unfold served.
  destruct (hostname_assigned_frame
              match op with OpHello h => h | _ => None end s)
    as (_ & Hhs & _ & Hhu & Hha & _).
  effect_cases Heff; cbn [guarded] in Hg; try done;
    unfold reset_state; fields; state_facts;
    try (destruct (authenticated s) eqn:Eauth);
    repeat match goal with
    | e : state s = _ |- _ => rewrite e in *
    end;
    repeat split; try done; try (intros; by eexists);
    try (intros _; by apply Hu);
    try (intros ?; apply Ha; congruence);
    try (intros _; apply Ha; congruence);
    try (by apply Ha).
Qed.

Lemma effect_id n op s s' k :
  effect clock n op s = Some (s', k) -> id s' = id s.
Proof.
  intros Heff.
  destruct (hostname_assigned_frame
              match op with OpHello h => h | _ => None end s)
    as (Hhi & _).
  effect_cases Heff; fields; rewrite ?Hhi; done.
Qed.

(** X18.  In a reachable manager every session is stored under its own
    identifier: the session found under a key has that key as its [id]. *)
Theorem session_stored_under_its_id (cs : list Call) (sid : string)
    (s : SMTPSession) :
  sessions (execAll clock cs) !! sid = Some s -> id s = sid.
Proof.
  unfold execAll. revert sid s.
  induction cs as [| c cs IH] using rev_ind; intros sid s.
  - cbn. by rewrite lookup_empty.
  - rewrite fold_left_app. cbn [fold_left].
    set (w := fold_left (fun w c => (exec clock c w).2) cs init) in *.
    intros H. apply exec_lookup in H.
    destruct H as [(conn & -> & _) | [(H & _) | (s0 & op & k & H & He & _)]].
    + reflexivity.
    + by apply IH.
    + rewrite (effect_id _ _ _ _ _ He). by apply IH.
Qed.

End ManagerInvariants.

Section ManagerInvariantsWitnesses.
Import SessionState SessionManager.

(** Fifty recipients after the sender. *)
Lemma recipients_bounded_witness :
  exists s,
    sessions (execAll tick_clock fifty_recipients) !! "s1" = Some s
    /\ length (rcptTo s) = 50%nat
    /\ (length (rcptTo s) <= MAX_RECIPIENTS)%nat.
Proof.
  eexists. split; [vm_compute; reflexivity |].
  split; [reflexivity |].
  apply (recipients_bounded tick_clock fifty_recipients "s1").
  vm_compute; reflexivity.
Defined.

(** Two senders on one connection: eight transitions, the last one into
    [MAIL_FROM]. *)
Lemma history_is_path_witness :
  exists s,
    sessions (execAll tick_clock two_senders) !! "s1" = Some s
    /\ length (stateHistory s) = 8%nat
    /\ history_chained s.
Proof.
  eexists. split; [vm_compute; reflexivity |].
  split; [reflexivity |].
  apply (history_is_path tick_clock two_senders "s1").
  vm_compute; reflexivity.
Defined.

(** One complete transaction: one message counted. *)
Lemma messageCount_counts_completions_witness :
  exists s,
    sessions (execAll tick_clock one_transaction) !! "s1" = Some s
    /\ messageCount s = 1
    /\ messageCount s = Z.of_nat (completions (stateHistory s)).
Proof.
  eexists. split; [vm_compute; reflexivity |].
  split; [reflexivity |].
  apply (messageCount_counts_completions tick_clock one_transaction "s1").
  vm_compute; reflexivity.
Defined.

(** One complete transaction: the session is in [COMPLETED] with its
    sender, its recipient and the message identifier. *)
Lemma transaction_data_fits_state_witness :
  exists s,
    sessions (execAll tick_clock one_transaction) !! "s1" = Some s
    /\ state s = COMPLETED
    /\ transaction_consistent s.
Proof.
  eexists. split; [vm_compute; reflexivity |].
  split; [reflexivity |].
  apply (transaction_data_fits_state tick_clock one_transaction "s1").
  vm_compute; reflexivity.
Defined.

(** A second authentication after the first sender of an authenticated
    session. *)
Lemma authenticated_session_refuses_authentication_witness :
  exists s,
    sessions (execAll tick_clock sender_given) !! "s1" = Some s
    /\ authenticated s = true
    /\ handleAuthentication tick_clock "s1" demo_user
         (execAll tick_clock sender_given)
       = (None, execAll tick_clock sender_given).
Proof.
  eexists. split; [vm_compute; reflexivity |].
  split; [reflexivity |].
  apply (authenticated_session_refuses_authentication tick_clock
           sender_given "s1" _ demo_user ltac:(vm_compute; reflexivity)
           eq_refl).
Defined.

(** The session of the connection ["s1"]. *)
Lemma session_stored_under_its_id_witness :
  exists s,
    sessions (execAll tick_clock sender_given) !! "s1" = Some s
    /\ id s = "s1".
Proof.
  eexists. split; [vm_compute; reflexivity |].
  apply (session_stored_under_its_id tick_clock sender_given "s1").
  vm_compute; reflexivity.
Defined.

End ManagerInvariantsWitnesses.

(* ===================================================================== *)
(** * Deletion, cleanup and statistics *)
(* ===================================================================== *)

Section Monitoring.
Import SessionState SessionManager ManagerMonitoring.

Variable clock : nat -> Z.


(** The loop, turn by turn: the sessions of [l] that are inactive are
    deleted and counted. *)
Lemma cleanupTurn_foldl (now : Z) (l : list (string * SMTPSession)) :
  forall (n : nat) (m : gmap string SMTPSession),
    NoDup l.*1 ->
    (forall k s, (k, s) ∈ l -> m !! k = Some s) ->
    let r := foldl (cleanupTurn now) (n, m) l in
    (forall k,
       r.2 !! k
       = match m !! k with
         | Some s =>
             if bool_decide (k ∈ l.*1) && inactive now s then None
             else Some s
         | None => None
         end)
    /\ (r.1 + size r.2 = n + size m)%nat.
Proof.
  induction l as [| [k0 s0] l IH]; intros n m Hnd Hin; cbv zeta.
  - cbn [foldl fst snd]. split; [| done].
    intros k. destruct (m !! k); [| done].
    by rewrite bool_decide_eq_false_2 by apply not_elem_of_nil.
  - cbn [foldl]. cbn [fmap list_fmap fst] in Hnd.
    apply NoDup_cons in Hnd as [Hk0 Hnd].
    assert (Hm0 : m !! k0 = Some s0) by (apply Hin; left).
    assert (Hturn : cleanupTurn now (n, m) (k0, s0)
                    = if inactive now s0 then (S n, delete k0 m) else (n, m))
      by reflexivity.
    rewrite Hturn. clear Hturn.
    destruct (inactive now s0) eqn:Hs0.
    + destruct (IH (S n) (delete k0 m) Hnd) as [Hl Hsz].
      { intros k s Hks. rewrite lookup_delete_ne; [apply Hin; by right |].
        intros <-. apply Hk0. apply list_elem_of_fmap. by exists (k0, s). }
      split.
      * intros k. rewrite Hl. cbn [fmap list_fmap fst].
        destruct (decide (k = k0)) as [-> | Hne].
        -- rewrite lookup_delete_eq, Hm0.
           rewrite bool_decide_eq_true_2 by left. by rewrite Hs0.
        -- rewrite lookup_delete_ne by done.
           destruct (m !! k) as [s|]; [| done].
           destruct (decide (k ∈ l.*1)) as [Hkl | Hkl].
           ++ rewrite !bool_decide_eq_true_2; [done | by right | done].
           ++ rewrite !bool_decide_eq_false_2; [done | | done].
              by intros [? | ?]%elem_of_cons.
      * rewrite Hsz. rewrite map_size_delete_Some by (by rewrite Hm0).
        assert (size m <> 0%nat)
          by (intros ->%map_size_empty_inv; by rewrite lookup_empty in Hm0).
        lia.
    + destruct (IH n m Hnd) as [Hl Hsz].
      { intros k s Hks. apply Hin. by right. }
      split; [| exact Hsz].
      intros k. rewrite Hl. cbn [fmap list_fmap fst].
      destruct (m !! k) as [s|] eqn:Hmk; [| done].
      destruct (decide (k = k0)) as [-> | Hne].
      * rewrite Hm0 in Hmk. injection Hmk as <-. rewrite Hs0.
        by rewrite !andb_false_r.
      * destruct (decide (k ∈ l.*1)) as [Hkl | Hkl].
        -- rewrite !bool_decide_eq_true_2; [done | by right | done].
        -- rewrite !bool_decide_eq_false_2; [done | | done].
           by intros [? | ?]%elem_of_cons.
Qed.

(** X20.  The loop of [cleanupExpiredSessions], run as written over the
    entries of the [Map], removes exactly the sessions that have been
    inactive for more than [SESSION_TIMEOUT_MS] at the time of the call
    (a session inactive for exactly that long is kept), leaves every other
    session as it was, and returns the number of sessions removed. *)
Theorem cleanup_removes_exactly_inactive (w : World) :
  let now := clock (ticks w) in
  let r := cleanupExpiredSessionsLoop clock w in
  (forall sid,
     sessions r.2 !! sid
     = match sessions w !! sid with
       | Some s =>
           if bool_decide (SESSION_TIMEOUT_MS
                           < now - lastActivityAt (timestamps s))
           then None else Some s
       | None => None
       end)
  /\ (r.1 + size (sessions r.2) = size (sessions w))%nat
  /\ ticks r.2 = S (ticks w)
  /\ r = cleanupExpiredSessions clock w.
Proof.
  cbv zeta.
  unfold cleanupExpiredSessionsLoop, cleanupExpiredSessions, cleanupLoop,
    sweep, mbind, Mgr_bind, new_Date.
  cbn [sessions ticks fst snd].
  destruct (cleanupTurn_foldl (clock (ticks w)) (map_to_list (sessions w))
              0%nat (sessions w)) as [Hl Hsz].
  { apply NoDup_fst_map_to_list. }
  { intros k s. apply elem_of_map_to_list. }
  cbv zeta in Hl, Hsz.
  assert (Hlook : forall sid,
    (foldl (cleanupTurn (clock (ticks w))) (0%nat, sessions w)
       (map_to_list (sessions w))).2 !! sid
    = match sessions w !! sid with
      | Some s =>
          if bool_decide (SESSION_TIMEOUT_MS
                          < clock (ticks w) - lastActivityAt (timestamps s))
          then None else Some s
      | None => None
      end).
  { intros sid. rewrite Hl.
    destruct (sessions w !! sid) as [s|] eqn:E; [| done].
    rewrite bool_decide_eq_true_2; [done |].
    apply list_elem_of_fmap. exists (sid, s). split; [done |].
    by apply elem_of_map_to_list. }
  split; [exact Hlook |]. split; [exact Hsz |]. split; [done |].
  assert (Hmap :
    (foldl (cleanupTurn (clock (ticks w))) (0%nat, sessions w)
       (map_to_list (sessions w))).2
    = filter (fun kv : string * SMTPSession =>
                ¬ SESSION_TIMEOUT_MS
                  < clock (ticks w) - lastActivityAt (timestamps kv.2))
        (sessions w)).
  { apply map_eq. intros sid. rewrite Hlook, map_lookup_filter.
    destruct (sessions w !! sid) as [s|]; [| done].
    cbn. case_bool_decide; case_guard; done. }
  f_equal; [| by rewrite Hmap].
  rewrite <- Hmap. lia.
Qed.

Lemma sessions_in_insert (q : SMTPSessionState) (i : string)
    (x : SMTPSession) (m : gmap string SMTPSession) :
  m !! i = None ->
  sessions_in q (<[i := x]> m)
  = if decide (q = state x) then S (sessions_in q m) else sessions_in q m.
Proof.
  intros Hi. unfold sessions_in.
  destruct (decide (q = state x)) as [-> | Hne].
  - rewrite map_filter_insert_True by done.
    rewrite map_size_insert_None; [done |].
    apply map_lookup_filter_None_2. by left.
  - rewrite map_filter_insert_False by (cbn; congruence).
    by rewrite delete_id.
Qed.

(** X21.  [getStats] changes nothing and counts right: [total] is the
    number of sessions, the entry of [byState] for a state is the number of
    sessions in that state, and the seven entries add up to [total]. *)
Theorem getStats_counts_by_state (w : World) :
  let r := getStats w in
  r.2 = w
  /\ total r.1 = size (sessions w)
  /\ (forall q, byState r.1 q = sessions_in q (sessions w))
  /\ sum_list (byState r.1 <$> all_states) = total r.1.
Proof.
  cbv zeta. unfold getStats. cbn [fst snd total byState].
  split; [done |]. split; [done |].
  apply (map_fold_weak_ind
           (fun counts m =>
              (forall q, counts q = sessions_in q m)
              /\ sum_list (counts <$> all_states) = size m)).
  - split.
    + intros q. unfold sessions_in. by rewrite map_filter_empty.
    + by rewrite map_size_empty.
  - intros i x m counts Hi [Hq Hsum]. split.
    + intros q. rewrite (sessions_in_insert _ _ _ _ Hi).
      unfold increment. by rewrite Hq.
    + rewrite map_size_insert_None by done. rewrite <- Hsum.
      unfold all_states, increment. cbn [fmap list_fmap sum_list].
      destruct (state x);
        repeat (first [ rewrite decide_True by reflexivity
                      | rewrite decide_False by discriminate ]);
        cbv [Datatypes.id]; lia.
Qed.

End Monitoring.

(* ===================================================================== *)
(** * The in-memory session store *)
(* ===================================================================== *)

Section StoreProperties.
Import SessionState MemorySessionStore.

Lemma mapGet_Some (k : string) (m : Store) (v : SMTPSession) :
  NoDup m.*1 -> (mapGet k m = Some v <-> (k, v) ∈ m).
Proof.
  induction m as [| [k' v'] m IH]; intros Hnd; cbn [mapGet].
  - split; [done | by intros ?%elem_of_nil].
  - cbn [fmap list_fmap fst] in Hnd. apply NoDup_cons in Hnd as [Hk' Hnd].
    destruct (String.eqb_spec k' k) as [-> | Hne].
    + split.
      * intros [= ->]. left.
      * intros [[= ->] | Hin]%elem_of_cons; [done |].
        exfalso. apply Hk'. apply list_elem_of_fmap. by exists (k, v).
    + rewrite (IH Hnd). split.
      * by right.
      * intros [[= -> ->] | Hin]%elem_of_cons; done.
Qed.

Lemma mapGet_None (k : string) (m : Store) :
  mapGet k m = None <-> k ∉ m.*1.
Proof.
  induction m as [| [k' v'] m IH]; cbn [mapGet fmap list_fmap fst].
  - split; [intros _; apply not_elem_of_nil | done].
  - destruct (String.eqb_spec k' k) as [-> | Hne].
    + split; [done | intros Hn; exfalso; apply Hn; left].
    + rewrite IH. rewrite not_elem_of_cons. split; [by split | by intros [_ ?]].
Qed.

Lemma mapSet_get (k : string) (v : SMTPSession) (m : Store) :
  mapGet k (mapSet k v m) = Some v
  /\ (forall k', k' <> k -> mapGet k' (mapSet k v m) = mapGet k' m)
  /\ length (mapSet k v m)
     = (length m + match mapGet k m with Some _ => 0 | None => 1 end)%nat
  /\ (NoDup m.*1 -> NoDup (mapSet k v m).*1).
Proof.
  induction m as [| [k0 v0] m (IH1 & IH2 & IH3 & IH4)];
    cbn [mapSet mapGet length].
  - rewrite String.eqb_refl. split; [done |]. split.
    + intros k' Hne. by destruct (String.eqb_spec k k').
    + split; [done |]. intros _. cbn. apply NoDup_singleton.
  - destruct (String.eqb_spec k0 k) as [-> | Hne]; cbn [mapGet length].
    + rewrite String.eqb_refl. split; [done |]. split.
      * intros k' Hk'. by destruct (String.eqb_spec k k').
      * split; [lia | done].
    + destruct (String.eqb_spec k0 k) as [? | _]; [done |].
      split; [exact IH1 |]. split.
      * intros k' Hk'. destruct (String.eqb k0 k'); [done | by apply IH2].
      * split; [rewrite IH3; lia |].
        cbn [fmap list_fmap fst]. intros [Hk0 Hnd]%NoDup_cons.
        apply NoDup_cons. split; [| by apply IH4].
        intros Hin. apply mapGet_None in Hin; [done |].
        rewrite IH2 by done. by apply mapGet_None.
Qed.

Lemma mapDelete_get (k : string) (m : Store) :
  NoDup m.*1 ->
  (mapDelete k m).1 = bool_decide (is_Some (mapGet k m))
  /\ mapGet k (mapDelete k m).2 = None
  /\ (forall k', k' <> k -> mapGet k' (mapDelete k m).2 = mapGet k' m)
  /\ (length (mapDelete k m).2
      + match mapGet k m with Some _ => 1 | None => 0 end)%nat = length m
  /\ NoDup (mapDelete k m).2.*1.
Proof.
  induction m as [| [k0 v0] m IH]; intros Hnd;
    cbn [mapDelete mapGet length fst snd].
  - split; [by rewrite bool_decide_eq_false_2; [| intros [? ?]] |]. done.
  - cbn [fmap list_fmap fst] in Hnd. apply NoDup_cons in Hnd as [Hk0 Hnd].
    destruct (IH Hnd) as (IH1 & IH2 & IH3 & IH4 & IH5).
    destruct (String.eqb_spec k0 k) as [-> | Hne];
      cbn [fst snd mapGet length fmap list_fmap].
    + split; [by rewrite bool_decide_eq_true_2 |].
      split; [by apply mapGet_None |].
      split; [| split; [lia | done]].
      intros k' Hk'. by destruct (String.eqb_spec k k').
    + destruct (String.eqb_spec k0 k) as [? | _]; [done |].
      split; [exact IH1 |]. split; [exact IH2 |]. split.
      * intros k' Hk'. destruct (String.eqb k0 k'); [done | by apply IH3].
      * split; [lia |]. apply NoDup_cons. split; [| done].
        intros Hin. apply Hk0. apply mapGet_None in Hin; [done |].
        destruct (decide (k0 = k)); [done |].
        rewrite IH3 by done. by apply mapGet_None.
Qed.

(** The keys of a store reached by calls are distinct. *)
Lemma callAll_NoDup (cs : list StoreCall) : NoDup (callAll cs).*1.
Proof.
  unfold callAll. induction cs as [| c cs IH] using rev_ind.
  - cbn. apply NoDup_nil_2.
  - rewrite fold_left_app. cbn [fold_left].
    destruct c; cbn [call create update delete clear snd].
    + by apply mapSet_get.
    + by apply mapSet_get.
    + by apply mapDelete_get.
    + apply NoDup_nil_2.
Qed.

(** X22.  The in-memory store behaves as a map keyed by the [id] of the
    session.  [create] and [update] are the same operation, an insertion
    or a replacement: afterwards [get] finds the session given, the other
    sessions are as before, and the count grows by one exactly when the
    identifier was new (so [update] of an unknown session creates it and
    [create] of a known one overwrites it).  [delete] answers whether the
    session was there; afterwards [get] finds nothing, the other sessions
    are as before, and the count shrinks by one exactly when the session
    was there. *)
Theorem store_is_a_map (cs : list StoreCall) (session : SMTPSession)
    (sid : string) :
  let store := callAll cs in
  (update session store = create session store
   /\ (create session store).1 = session
   /\ get (id session) (create session store).2 = Some session
   /\ (forall k, k <> id session ->
         get k (create session store).2 = get k store)
   /\ count (create session store).2
      = (count store
         + match get (id session) store with Some _ => 0 | None => 1 end)%nat)
  /\ ((delete sid store).1 = bool_decide (is_Some (get sid store))
      /\ get sid (delete sid store).2 = None
      /\ (forall k, k <> sid -> get k (delete sid store).2 = get k store)
      /\ (count (delete sid store).2
          + match get sid store with Some _ => 1 | None => 0 end)%nat
         = count store).
Proof.
  cbv zeta. unfold update, create, delete, get, count. cbn [fst snd].
  split.
  - destruct (mapSet_get (id session) session (callAll cs))
      as (H1 & H2 & H3 & _). done.
  - destruct (mapDelete_get sid (callAll cs) (callAll_NoDup cs))
      as (H1 & H2 & H3 & H4 & _). done.
Qed.

(** X23.  [findExpired] returns, without repetition and in the order
    the sessions were first stored, exactly the identifiers of the stored
    sessions whose last activity is more than [maxAgeMs] before the time
    of the call; a session exactly [maxAgeMs] old is not returned. *)
Theorem findExpired_exact (cs : list StoreCall) (now maxAgeMs : Z) :
  let store := callAll cs in
  (forall sid,
     sid ∈ findExpired now maxAgeMs store
     <-> exists s, get sid store = Some s
                   /\ maxAgeMs < now - lastActivityAt (timestamps s))
  /\ NoDup (findExpired now maxAgeMs store)
  /\ findExpired now maxAgeMs store `sublist_of` store.*1.
Proof.
  cbv zeta. unfold findExpired, get.
  pose proof (callAll_NoDup cs) as Hnd.
  split; [| split].
  - intros sid. rewrite list_elem_of_fmap. split.
    + intros ([k s] & -> & [Hexp Hin]%list_elem_of_filter).
      exists s. split; [by apply mapGet_Some | exact Hexp].
    + intros (s & Hs & Hexp). exists (sid, s). split; [done |].
      apply list_elem_of_filter. split; [exact Hexp |].
      by apply mapGet_Some.
  - eapply sublist_NoDup; [exact Hnd |].
    apply fmap_sublist, sublist_filter.
  - apply fmap_sublist, sublist_filter.
Qed.

Lemma filter_state_cons (q : SMTPSessionState) (k : string)
    (s : SMTPSession) (l : Store) :
  length (filter (fun entry : string * SMTPSession => state entry.2 = q)
            ((k, s) :: l))
  = ((if decide (q = state s) then 1 else 0)
     + length (filter (fun entry : string * SMTPSession =>
                         state entry.2 = q) l))%nat.
Proof.
  cbn [filter list_filter snd].
  destruct (decide (q = state s)) as [-> | Hne].
  - by rewrite decide_True.
  - by rewrite decide_False by congruence.
Qed.

Lemma countByState_foldl (l : Store) :
  forall counts q,
    foldl (fun counts entry =>
             ManagerMonitoring.increment (state entry.2) counts) counts l q
    = (counts q
       + length (filter (fun entry : string * SMTPSession =>
                           state entry.2 = q) l))%nat.
Proof.
  induction l as [| [k s] l IH]; intros counts q; cbn [foldl].
  - cbn. lia.
  - rewrite IH, filter_state_cons. unfold ManagerMonitoring.increment.
    cbn [snd]. case_decide; lia.
Qed.

(** X24.  [countByState] gives, for each state, the number of stored
    sessions in that state, and its seven entries add up to [count]. *)
Theorem countByState_adds_up (store : Store) :
  (forall q,
     countByState store q
     = length (filter (fun entry : string * SMTPSession =>
                         state entry.2 = q) store))
  /\ sum_list (countByState store <$> all_states) = count store.
Proof.
  assert (Hq : forall q,
    countByState store q
    = length (filter (fun entry : string * SMTPSession =>
                        state entry.2 = q) store)).
  { intros q. unfold countByState. by rewrite countByState_foldl. }
  split; [exact Hq |].
  unfold all_states, count. cbn [fmap list_fmap sum_list].
  rewrite !Hq. cbv [Datatypes.id]. clear Hq.
  induction store as [| [k s] store IH]; [done |].
  rewrite !filter_state_cons. cbn [length]. rewrite <- IH.
  destruct (state s);
    repeat (first [ rewrite decide_True by reflexivity
                  | rewrite decide_False by discriminate ]);
    lia.
Qed.

End StoreProperties.

(* ===================================================================== *)
(** * The hooks on a session that is there, and on one that is not *)
(* ===================================================================== *)

Section HookOutcomes.
Import SessionState SessionManager Server.

Variable clock : nat -> Z.
Variable getApiKey : string -> Database.DbResult Database.MockApiKey.t.
Variable getInbox : string -> Database.DbResult Database.MockInbox.t.
Variable parseDate : string -> option Z.
Variable deliver : string -> SMTPSession -> Delivery.

(** The session of a hook after its activity was refreshed. *)
Let refreshed (w : World) (s : SMTPSession) : SMTPSession :=
  set_lastActivityAt (clock (ticks w)) s.

(** The user [onAuth] stores for a validated user and a password. *)
Let session_user (u : AuthErrors.AuthenticatedUser)
    (auth : Authentication) : SessionUser :=
  {| inbox_id := AuthErrors.inbox_id u;
     organization_id := AuthErrors.organization_id u;
     email_address := AuthErrors.email_address u;
     api_key_id := AuthErrors.api_key_id u;
     api_key := or_empty (password auth) |}.

(** The pipeline as [onAuth] runs it at the time [now]. *)
Let validated (auth : Authentication) (now : Z) : AuthErrors.AuthResult :=
  (Validator.run
     (Validator.validateSMTPCredentials getApiKey getInbox parseDate now
        (Validator.JsString (or_empty (username auth)))
        (Validator.JsString (or_empty (password auth))))).1.

Lemma onAuth_present auth sid w0 s0 :
  sessions w0 !! sid = Some s0 ->
  onAuth clock getApiKey getInbox parseDate auth sid w0
  = if negb (canExecuteCommandInState (state s0) "AUTH")
    then (badSequence, touched clock w0 sid s0)
    else
      match validated auth (clock (S (ticks w0))) with
      | AuthErrors.AuthFailure e =>
          (Err (AuthErrors.createSMTPAuthError e),
           updated sid (refreshed w0 s0) 2 w0)
      | AuthErrors.AuthSuccess u =>
          (OkUser u,
           (outcome clock (OpAuthentication (session_user u auth)) sid
              (refreshed w0 s0) (updated sid (refreshed w0 s0) 2 w0)).2)
      end.
Proof.
  intros H0. unfold onAuth, mbind, mret, Mgr_bind, Mgr_ret.
  unfold getSession at 1. rewrite H0.
  rewrite (updateActivity_present clock _ _ _ H0).
  rewrite (canExecuteCommand_present _ _ _ _ (touched_lookup clock w0 sid s0)).
  cbn [state set_lastActivityAt on_timestamps set_timestamps].
  destruct (negb (canExecuteCommandInState (state s0) "AUTH"));
    [reflexivity |].
  unfold new_Date, touched. cbn [ticks updated sessions].
  change (1 + ticks w0)%nat with (S (ticks w0)).
  fold (validated auth (clock (S (ticks w0)))).
  assert (Hw : {| sessions := <[sid := set_lastActivityAt (clock (ticks w0)) s0]>
                                (sessions w0);
                  ticks := S (S (ticks w0)) |}
               = updated sid (refreshed w0 s0) 2 w0) by reflexivity.
  rewrite Hw.
  destruct (validated auth (clock (S (ticks w0)))) as [u | e];
    [| reflexivity].
  fold (session_user u auth).
  rewrite (handleAuthentication_present clock _ _ _ _
             (updated_lookup sid (refreshed w0 s0) 2 w0)).
  by destruct (outcome _ _ _ _ _).
Qed.

Lemma onMailFrom_present sender sid w0 s0 :
  sessions w0 !! sid = Some s0 ->
  onMailFrom clock sender sid w0
  = let s1 := refreshed w0 s0 in
    let w1 := touched clock w0 sid s0 in
    if negb (authenticated s0) then (authRequired, w1)
    else
      let s2 :=
        if bool_decide (state s0 = COMPLETED)
        then default s1 (fst <$> effect clock (S (ticks w0)) OpReset s1)
        else s1 in
      let w2 :=
        if bool_decide (state s0 = COMPLETED)
        then updated sid s2 3 w0 else w1 in
      if negb (canExecuteCommandInState (state s2) "MAIL")
      then (badSequence, w2)
      else match outcome clock (OpMailFrom sender) sid s2 w2 with
           | (None, w3) => (badSequence, w3)
           | (Some _, w3) => (Ok, w3)
           end.
Proof.
  intros H0. cbv zeta.
  unfold onMailFrom, mbind, mret, Mgr_bind, Mgr_ret.
  unfold getSession at 1. rewrite H0.
  rewrite (updateActivity_present clock _ _ _ H0).
  rewrite (read_present _ _ _ _ _ (touched_lookup clock w0 sid s0)).
  cbn [authenticated set_lastActivityAt on_timestamps set_timestamps].
  destruct (negb (authenticated s0)); [reflexivity |].
  rewrite (read_present _ _ _ _ _ (touched_lookup clock w0 sid s0)).
  cbn [state set_lastActivityAt on_timestamps set_timestamps].
  destruct (bool_decide (state s0 = COMPLETED)).
  - destruct (resetForNewMessage_present clock _ _ _
                (touched_lookup clock w0 sid s0)) as (s2 & He & ->).
    unfold touched in He |- *. cbn [ticks updated] in He.
    change (1 + ticks w0)%nat with (S (ticks w0)) in He.
    fold (refreshed w0 s0) in He |- *. rewrite He.
    cbn [fmap option_fmap option_map fst default from_option].
    unfold Datatypes.id.
    rewrite updated_updated. change (2 + 1)%nat with 3%nat.
    rewrite (canExecuteCommand_present _ _ _ _ (updated_lookup sid s2 3 w0)).
    destruct (negb (canExecuteCommandInState (state s2) "MAIL"));
      [reflexivity |].
    rewrite (handleMailFrom_present clock _ _ _ _
               (updated_lookup sid s2 3 w0)).
    by destruct (outcome _ _ _ _ _) as [[?|] ?].
  - rewrite (canExecuteCommand_present _ _ _ _
               (touched_lookup clock w0 sid s0)).
    fold (refreshed w0 s0).
    destruct (negb (canExecuteCommandInState (state (refreshed w0 s0))
                      "MAIL")); [reflexivity |].
    rewrite (handleMailFrom_present clock _ _ _ _
               (touched_lookup clock w0 sid s0)).
    fold (refreshed w0 s0).
    by destruct (outcome _ _ _ _ _) as [[?|] ?].
Qed.

Lemma onData_present stream sid w0 s0 :
  sessions w0 !! sid = Some s0 ->
  onData clock deliver stream sid w0
  = let s1 := refreshed w0 s0 in
    let w1 := touched clock w0 sid s0 in
    if negb (canExecuteCommandInState (state s0) "DATA")
    then (badSequence, w1)
    else if (length (rcptTo s0) =? 0)%nat then (noRecipients, w1)
    else
      let r := outcome clock OpDataStart sid s1 w1 in
      let live := default s1 r.1 in
      match deliver stream live with
      | Delivered mid =>
          (OkMessage ("Message queued as " +:+ mid),
           (outcome clock (OpDataComplete mid) sid live r.2).2)
      | Failed e => (Err e, r.2)
      end.
Proof.
  intros H0. cbv zeta.
  unfold onData, mbind, mret, Mgr_bind, Mgr_ret.
  unfold getSession at 1. rewrite H0.
  rewrite (updateActivity_present clock _ _ _ H0).
  rewrite (canExecuteCommand_present _ _ _ _ (touched_lookup clock w0 sid s0)).
  cbn [state set_lastActivityAt on_timestamps set_timestamps].
  destruct (negb (canExecuteCommandInState (state s0) "DATA"));
    [reflexivity |].
  rewrite (read_present _ _ _ _ _ (touched_lookup clock w0 sid s0)).
  cbn [rcptTo set_lastActivityAt on_timestamps set_timestamps].
  destruct (length (rcptTo s0) =? 0)%nat; [reflexivity |].
  rewrite (handleDataStart_present clock _ _ _
             (touched_lookup clock w0 sid s0)).
  fold (refreshed w0 s0).
  assert (Ho : outcome clock OpDataStart sid (refreshed w0 s0)
                 (touched clock w0 sid s0)
               = match effect clock (ticks (touched clock w0 sid s0))
                         OpDataStart (refreshed w0 s0) with
                 | Some (s', k) =>
                     (Some s', updated sid s' k (touched clock w0 sid s0))
                 | None => (None, touched clock w0 sid s0)
                 end) by reflexivity.
  rewrite !Ho. clear Ho.
  destruct (effect clock (ticks (touched clock w0 sid s0)) OpDataStart
              (refreshed w0 s0)) as [[s2 k]|];
    cbn [fst snd default from_option]; unfold Datatypes.id.
  - rewrite (read_present _ _ _ _ _ (updated_lookup sid s2 k _)).
    destruct (deliver stream s2) as [mid | e]; [| reflexivity].
    rewrite (handleDataComplete_present clock _ _ _ _
               (updated_lookup sid s2 k _)).
    by destruct (outcome _ _ _ _ _).
  - rewrite (read_present _ _ _ _ _ (touched_lookup clock w0 sid s0)).
    fold (refreshed w0 s0).
    destruct (deliver stream (refreshed w0 s0)) as [mid | e];
      [| reflexivity].
    rewrite (handleDataComplete_present clock _ _ _ _
               (touched_lookup clock w0 sid s0)).
    fold (refreshed w0 s0).
    by destruct (outcome _ _ _ _ _).
Qed.

(** X25.  On a connection the manager has no session for, each of the
    four command hooks answers 451 4.3.0 "Session error" and leaves the
    manager as it was, and [onClose] changes nothing. *)
Theorem unknown_session_is_session_error (ev : CommandEvent) (w : World)
    (sid : string) :
  sessions w !! sid = None ->
  handle clock getApiKey getInbox parseDate deliver ev sid w
  = (sessionError, w)
  /\ sessionError
     = Err {| Mapping.message := "451 4.3.0 Session error";
              Mapping.responseCode := 451;
              Mapping.enhancedCode := "4.3.0" |}
  /\ onClose sid w = (tt, w).
Proof.
  intros H. split; [| split; [reflexivity |]].
  - destruct ev; unfold handle, onAuth, onMailFrom, onRcptTo, onData,
      mbind, mret, Mgr_bind, Mgr_ret, getSession; by rewrite H.
  - unfold onClose, deleteSession, mbind, mret, Mgr_bind, Mgr_ret,
      getSession. by rewrite H.
Qed.

(** The session [onConnect] leaves: a new session, greeted. *)
Lemma onConnect_present (w : World) (sid : string)
    (conn : ConnectionMetadata) :
  onConnect clock sid conn w
  = (Ok,
     updated sid
       (transitioned clock (S (ticks w)) "EHLO" HELLO
          (hostname_assigned (clientHostname conn)
             (createEmptySession sid conn (clock (ticks w)))))
       3 w).
Proof.
  unfold onConnect, createSession, mbind, mret, Mgr_bind, Mgr_ret, new_Date,
    set.
  cbn [sessions ticks fst snd].
  match goal with
  | |- context [handleHello clock sid ?h ?w1] =>
      rewrite (handleHello_present clock w1 sid
                 (createEmptySession sid conn (clock (ticks w))) h
                 (lookup_insert_eq _ _ _))
  end.
  unfold outcome, effect. cbn [state createEmptySession ticks].
  change (getNextState INIT "EHLO") with (Some HELLO). cbv beta iota.
  unfold updated. cbn [sessions ticks]. rewrite insert_insert_eq.
  reflexivity.
Qed.

(** X26.  [onConnect] always accepts, and leaves under the identifier
    of the connection a new session that has been greeted: it is in
    [HELLO] with one transition, from [INIT], in its history, holds the
    connection metadata given, and has no user, sender, recipient or
    message.  Whatever was stored under that identifier is replaced; no
    other session is touched. *)
Theorem onConnect_opens_in_HELLO (w : World) (sid : string)
    (conn : ConnectionMetadata) :
  exists s,
    onConnect clock sid conn w = (Ok, updated sid s 3 w)
    /\ id s = sid /\ state s = HELLO /\ connection s = conn
    /\ authenticated s = false /\ user s = None
    /\ mailFrom s = None /\ rcptTo s = [] /\ messageId s = None
    /\ messageCount s = 0
    /\ stateHistory s
       = [{| from := INIT; to := HELLO; timestamp := clock (S (ticks w));
             command := Some "EHLO" |}]
    /\ createdAt (timestamps s) = clock (ticks w)
    /\ lastActivityAt (timestamps s) = clock (S (S (ticks w))).
Proof.
  eexists. split; [apply onConnect_present |].
  assert (Hc : connection
                 (hostname_assigned (clientHostname conn)
                    (createEmptySession sid conn (clock (ticks w))))
               = conn).
  { unfold hostname_assigned. destruct conn as [a p [h|] t]; [| done].
    cbn. by destruct (negb (String.eqb h "")). }
  destruct (hostname_assigned_frame (clientHostname conn)
              (createEmptySession sid conn (clock (ticks w))))
    as (Hi & Hs & Ht & Hu & Ha & Hm & Hr & _ & Hmi & Hmc & Hh).
  cbn [id state timestamps user authenticated mailFrom rcptTo messageId
       connection messageCount stateHistory createdAt lastActivityAt
       transitioned set_state set_timestamps set_stateHistory
       on_timestamps set_lastActivityAt ts_set_lastActivityAt
       push_stateHistory].
  rewrite Hi, Hs, Ht, Hu, Ha, Hm, Hr, Hmi, Hmc, Hh, Hc.
  repeat split.
Qed.


(** X28.  [onData] on a session in [RCPT_TO] that has a recipient
    starts the DATA phase and hands the session, now in [DATA], to the
    delivery.  When the delivery succeeds, the session becomes [COMPLETED]
    with the message identifier, its counter grows by one, and the answer
    is "Message queued as" followed by the identifier.  When the delivery
    fails, its error is the answer and the session is left in [DATA],
    where no command is allowed: the hook does not reset it. *)
Theorem onData_outcomes (stream : string) (w : World) (sid : string)
    (s : SMTPSession) :
  sessions w !! sid = Some s ->
  state s = RCPT_TO ->
  rcptTo s <> [] ->
  exists s1,
    state s1 = DATA
    /\ dataStartedAt (timestamps s1) = Some (clock (S (ticks w)))
    /\ mailFrom s1 = mailFrom s /\ rcptTo s1 = rcptTo s
    /\ user s1 = user s
    /\ match deliver stream s1 with
       | Delivered mid =>
           exists s2,
             onData clock deliver stream sid w
             = (OkMessage ("Message queued as " +:+ mid),
                updated sid s2 7 w)
             /\ state s2 = COMPLETED
             /\ messageId s2 = Some mid
             /\ messageCount s2 = messageCount s + 1
             /\ completedAt (timestamps s2) = Some (clock (4 + ticks w))
             /\ mailFrom s2 = mailFrom s /\ rcptTo s2 = rcptTo s
       | Failed e =>
           onData clock deliver stream sid w = (Err e, updated sid s1 4 w)
           /\ forall cmd, canExecuteCommandInState (state s1) cmd = false
       end.
Proof.
  intros H Hst Hr. rewrite (onData_present _ _ _ _ H). cbv zeta.
  rewrite Hst. change (canExecuteCommandInState RCPT_TO "DATA") with true.
  cbn [negb].
  assert (Hlen : (length (rcptTo s) =? 0)%nat = false)
    by (destruct (rcptTo s); [done | reflexivity]).
  rewrite Hlen.
  set (sD := transitioned clock (S (S (ticks w))) "DATA" DATA
               (set_dataStartedAt (Some (clock (S (ticks w))))
                  (refreshed w s))).
  assert (Hstart : outcome clock OpDataStart sid (refreshed w s)
                     (touched clock w sid s)
                   = (Some sD, updated sid sD 4 w)).
  { unfold outcome, effect, refreshed, touched.
    cbn [rcptTo state set_lastActivityAt on_timestamps set_timestamps].
    rewrite Hlen, Hst.
    change (getNextState RCPT_TO "DATA") with (Some DATA). cbv beta iota.
    rewrite updated_updated. reflexivity. }
  rewrite !Hstart. cbn [fst snd default from_option]. unfold Datatypes.id.
  exists sD.
  split; [reflexivity |]. split; [reflexivity |]. split; [reflexivity |].
  split; [reflexivity |]. split; [reflexivity |].
  destruct (deliver stream sD) as [mid | e].
  - set (sC := transitioned clock (5 + ticks w) "DATA_COMPLETE" COMPLETED
                 (set_messageCount (messageCount sD + 1)
                    (set_completedAt (Some (clock (4 + ticks w)))
                       (set_messageId (Some mid) sD)))).
    assert (Hcomp : outcome clock (OpDataComplete mid) sid sD
                      (updated sid sD 4 w)
                    = (Some sC, updated sid sC 7 w)).
    { unfold outcome, effect.
      change (getNextState (state sD) "DATA_COMPLETE") with (Some COMPLETED).
      cbv beta iota. rewrite updated_updated. reflexivity. }
    rewrite Hcomp. cbn [snd]. exists sC.
    split; [reflexivity |]. repeat split.
  - split; [reflexivity |]. intros cmd.
    apply bool_decide_eq_false_2. apply not_elem_of_nil.
Qed.

End HookOutcomes.

Section HookOutcomesWitnesses.
Import SessionState SessionManager Server.

(** A command on a manager that has no session. *)
Lemma unknown_session_is_session_error_witness :
  sessions init !! "s1" = None
  /\ demo_handle (EvRcptTo "to@example.com") "s1" init = (sessionError, init).
Proof.
  split; [apply lookup_empty |].
  apply (unknown_session_is_session_error tick_clock Database.getApiKey
           Database.getInbox Validator.mockParseDate demo_deliver
           (EvRcptTo "to@example.com") init "s1").
  apply lookup_empty.
Defined.


(** A message on a session with a sender and a recipient, delivered and
    not delivered. *)
Lemma onData_outcomes_witness :
  exists s,
    sessions (execAll tick_clock recipient_given) !! "s1" = Some s
    /\ state s = RCPT_TO
    /\ (exists s2,
          onData tick_clock demo_deliver "" "s1"
            (execAll tick_clock recipient_given)
          = (OkMessage "Message queued as msg_1",
             updated "s1" s2 7 (execAll tick_clock recipient_given))
          /\ state s2 = COMPLETED)
    /\ (exists s1 e,
          onData tick_clock failing_deliver "" "s1"
            (execAll tick_clock recipient_given)
          = (Err e, updated "s1" s1 4 (execAll tick_clock recipient_given))
          /\ state s1 = DATA).
Proof.
  eexists. split; [vm_compute; reflexivity |].
  split; [reflexivity |].
  split.
  - destruct (onData_outcomes tick_clock demo_deliver ""
                (execAll tick_clock recipient_given) "s1" _
                ltac:(vm_compute; reflexivity) eq_refl ltac:(discriminate))
      as (s1 & _ & _ & _ & _ & _ & s2 & Heq & Hst & _).
    exists s2. split; [exact Heq | exact Hst].
  - destruct (onData_outcomes tick_clock failing_deliver ""
                (execAll tick_clock recipient_given) "s1" _
                ltac:(vm_compute; reflexivity) eq_refl ltac:(discriminate))
      as (s1 & Hst & _ & _ & _ & _ & Heq & _).
    exists s1. eexists. split; [exact Heq | exact Hst].
Defined.

End HookOutcomesWitnesses.

(* ===================================================================== *)
(** * Invariants of the server *)
(* ===================================================================== *)

Section ServerInvariant.
Import SessionState SessionManager Server.

Variable clock : nat -> Z.
Variable getApiKey : string -> Database.DbResult Database.MockApiKey.t.
Variable getInbox : string -> Database.DbResult Database.MockInbox.t.
Variable parseDate : string -> option Z.
Variable deliver : string -> SMTPSession -> Delivery.

Lemma steps_trans s1 s2 s3 :
  steps clock s1 s2 -> steps clock s2 s3 -> steps clock s1 s3.
Proof.
  induction 1 as [| s op n s1' k s' Hg He Hs IH]; [done |].
  intros H3. eapply steps_effect; [exact Hg | exact He | by apply IH].
Qed.

Lemma steps_served s s' : steps clock s s' -> served s -> served s'.
Proof.
  induction 1 as [| s op n s1 k s' Hg He Hs IH]; [done |].
  intros Hv. apply IH. by eapply effect_served.
Qed.

Lemma steps_activity n s : steps clock s (set_lastActivityAt (clock n) s).
Proof.
  eapply (steps_effect clock s OpActivity n); [done | reflexivity |].
  apply steps_refl.
Qed.

Lemma outcome_steps op sid s1 k1 w :
  guarded op s1 ->
  exists s2,
    at_session sid s2 w (outcome clock op sid s1 (updated sid s1 k1 w)).2
    /\ steps clock s1 s2.
Proof.
  intros Hg. unfold outcome.
  destruct (effect clock (ticks (updated sid s1 k1 w)) op s1)
    as [[s2 k]|] eqn:He; cbn [snd].
  - exists s2. split.
    + eexists. by rewrite updated_updated.
    + eapply steps_effect; [exact Hg | exact He | apply steps_refl].
  - exists s1. split; [by eexists | apply steps_refl].
Qed.

(** A command hook on a session that is there updates that session, by
    operations the invariant allows, and nothing else. *)
Lemma handle_steps ev sid w s :
  sessions w !! sid = Some s ->
  exists s',
    at_session sid s' w
      (handle clock getApiKey getInbox parseDate deliver ev sid w).2
    /\ steps clock s s'.
Proof.
  intros H.
  pose proof (steps_activity (ticks w) s) as Hact.
  destruct ev as [auth | sender | recipient | stream]; unfold handle.
  - rewrite (onAuth_present _ _ _ _ _ _ _ _ H).
    destruct (negb (canExecuteCommandInState (state s) "AUTH")); cbn [snd].
    { eexists. split; [by eexists | exact Hact]. }
    destruct (Validator.run _).1 as [u | e]; cbn [snd].
    + destruct (outcome_steps
                  (OpAuthentication
                     {| inbox_id := AuthErrors.inbox_id u;
                        organization_id := AuthErrors.organization_id u;
                        email_address := AuthErrors.email_address u;
                        api_key_id := AuthErrors.api_key_id u;
                        api_key := or_empty (password auth) |})
                  sid (set_lastActivityAt (clock (ticks w)) s) 2 w I)
        as (s2 & Hat & Hs).
      exists s2. split; [exact Hat | by eapply steps_trans].
    + eexists. split; [by eexists | exact Hact].
  - rewrite (onMailFrom_present _ _ _ _ _ H). cbv zeta.
    destruct (authenticated s) eqn:Ea; cbn [negb snd].
    2: { eexists. split; [by eexists | exact Hact]. }
    set (s1 := set_lastActivityAt (clock (ticks w)) s) in *.
    assert (Hreset : steps clock s1
              (default s1 (fst <$> effect clock (S (ticks w)) OpReset s1))).
    { cbn [effect fmap option_fmap option_map fst default from_option].
      unfold Datatypes.id.
      eapply (steps_effect clock s1 OpReset (S (ticks w)));
        [done | reflexivity | apply steps_refl]. }
    set (s2r := default s1 (fst <$> effect clock (S (ticks w)) OpReset s1))
      in *.
    assert (Ha2 : authenticated s2r = true)
      by (subst s2r s1; cbn; exact Ea).
    destruct (bool_decide (state s = COMPLETED)).
    + destruct (negb (canExecuteCommandInState (state s2r) "MAIL"));
        cbn [snd].
      { exists s2r. split; [by eexists |]. by eapply steps_trans. }
      destruct (outcome_steps (OpMailFrom sender) sid s2r 3 w Ha2)
        as (s3 & Hat & Hs).
      exists s3. split.
      * by destruct (outcome _ _ _ _ _) as [[?|] ?].
      * eapply steps_trans; [exact Hact |]. by eapply steps_trans.
    + destruct (negb (canExecuteCommandInState (state s1) "MAIL"));
        cbn [snd].
      { exists s1. split; [by eexists | exact Hact]. }
      destruct (outcome_steps (OpMailFrom sender) sid s1 1 w Ea)
        as (s3 & Hat & Hs).
      exists s3. split.
      * unfold touched. by destruct (outcome _ _ _ _ _) as [[?|] ?].
      * by eapply steps_trans.
  - rewrite (onRcptTo_present _ _ _ _ _ H). cbv zeta.
    destruct (negb (canExecuteCommandInState (state s) "RCPT")); cbn [snd].
    { eexists. split; [by eexists | exact Hact]. }
    destruct (outcome_steps (OpRcptTo recipient) sid
                (set_lastActivityAt (clock (ticks w)) s) 1 w I)
      as (s3 & Hat & Hs).
    exists s3. split.
    + unfold touched. by destruct (outcome _ _ _ _ _) as [[?|] ?].
    + by eapply steps_trans.
  - rewrite (onData_present _ _ _ _ _ _ H). cbv zeta.
    destruct (negb (canExecuteCommandInState (state s) "DATA")); cbn [snd].
    { eexists. split; [by eexists | exact Hact]. }
    destruct (length (rcptTo s) =? 0)%nat; cbn [snd].
    { eexists. split; [by eexists | exact Hact]. }
    set (s1 := set_lastActivityAt (clock (ticks w)) s) in *.
    unfold touched. fold s1.
    destruct (outcome_steps OpDataStart sid s1 1 w I) as (s2 & [k2 Hat] & Hs).
    assert (Hlive : steps clock s1
              (default s1 (outcome clock OpDataStart sid s1
                             (updated sid s1 1 w)).1)).
    { unfold outcome.
      destruct (effect clock (ticks (updated sid s1 1 w)) OpDataStart s1)
        as [[s2' k]|] eqn:He; cbn [fst default from_option];
        unfold Datatypes.id; [| apply steps_refl].
      eapply (steps_effect clock s1 OpDataStart);
        [done | exact He | apply steps_refl]. }
    destruct (deliver stream _) as [mid | e]; cbn [snd].
    + rewrite Hat.
      match goal with
      | |- context [outcome clock (OpDataComplete mid) sid ?live _] =>
          destruct (outcome_steps (OpDataComplete mid) sid live k2 w I)
            as (s3 & Hat3 & Hs3)
      end.
      assert (Hs2 : s2 = default s1 (outcome clock OpDataStart sid s1
                                       (updated sid s1 1 w)).1).
      { revert Hat. unfold outcome.
        destruct (effect clock (ticks (updated sid s1 1 w)) OpDataStart s1)
          as [[s2' k]|]; cbn [fst snd default from_option];
          unfold Datatypes.id; unfold updated; intros [= Hm _].
        - apply (f_equal (fun m => m !! sid)) in Hm.
          rewrite !lookup_insert_eq in Hm. congruence.
        - apply (f_equal (fun m => m !! sid)) in Hm.
          rewrite !lookup_insert_eq in Hm. congruence. }
      rewrite <- Hs2 in Hat3, Hs3 |- *.
      exists s3. split; [exact Hat3 |].
      eapply steps_trans; [exact Hact |].
      eapply steps_trans; [exact Hs | exact Hs3].
    + exists s2. split; [by exists k2 |]. by eapply steps_trans.
Qed.

Lemma handle_absent ev sid w :
  sessions w !! sid = None ->
  (handle clock getApiKey getInbox parseDate deliver ev sid w).2 = w.
Proof.
  intros H.
  destruct ev; unfold handle, onAuth, onMailFrom, onRcptTo, onData,
    mbind, mret, Mgr_bind, Mgr_ret, getSession; by rewrite H.
Qed.

Lemma connected_served n sid conn :
  served (transitioned clock (S n) "EHLO" HELLO
            (hostname_assigned (clientHostname conn)
               (createEmptySession sid conn (clock n)))).
Proof.
  destruct (hostname_assigned_frame (clientHostname conn)
              (createEmptySession sid conn (clock n)))
    as (_ & _ & _ & Hu & Ha & _).
  unfold served.
  cbn [state authenticated user transitioned set_lastActivityAt set_state
       push_stateHistory set_stateHistory on_timestamps set_timestamps].
  rewrite Ha, Hu. cbn. done.
Qed.

(** Where a session found after an event comes from. *)
Lemma serve_lookup e w sid s' :
  sessions (serve clock getApiKey getInbox parseDate deliver e w).2 !! sid
  = Some s' ->
  (exists n conn,
     s' = transitioned clock (S n) "EHLO" HELLO
            (hostname_assigned (clientHostname conn)
               (createEmptySession sid conn (clock n))))
  \/ (exists s, sessions w !! sid = Some s /\ steps clock s s').
Proof.
  destruct e as [sid0 conn | ev sid0 | sid0 |]; unfold serve, mbind, mret,
    Mgr_bind, Mgr_ret.
  - rewrite onConnect_present. cbn [snd updated sessions].
    destruct (decide (sid0 = sid)) as [-> | Hne].
    + rewrite lookup_insert_eq. intros [= <-]. left. eauto.
    + rewrite lookup_insert_ne by done. intros H. right.
      exists s'. split; [done | apply steps_refl].
  - destruct (sessions w !! sid0) as [s0|] eqn:E.
    + destruct (handle_steps ev sid0 w s0 E) as (s1 & [k Hat] & Hs).
      destruct (handle _ _ _ _ _ _ _ _) as [r w']. cbn [snd] in Hat |- *.
      subst w'. cbn [updated sessions].
      destruct (decide (sid0 = sid)) as [-> | Hne].
      * rewrite lookup_insert_eq. intros [= <-]. right. eauto.
      * rewrite lookup_insert_ne by done. intros H. right.
        exists s'. split; [done | apply steps_refl].
    + pose proof (handle_absent ev sid0 w E) as Hw.
      destruct (handle _ _ _ _ _ _ _ _) as [r w']. cbn [snd] in Hw |- *.
      subst w'. intros H. right. exists s'. split; [done | apply steps_refl].
  - unfold onClose, deleteSession, remove, mbind, mret, Mgr_bind, Mgr_ret,
      getSession.
    cbn [sessions ticks fst snd].
    destruct (sessions w !! sid0) eqn:E; cbn [sessions ticks snd].
    + intros [_ H]%lookup_delete_Some. right.
      exists s'. split; [done | apply steps_refl].
    + intros H. right. exists s'. split; [done | apply steps_refl].
  - unfold cleanupExpiredSessions, sweep, mbind, mret, Mgr_bind, Mgr_ret,
      new_Date.
    cbn [sessions ticks fst snd].
    intros [H _]%map_lookup_filter_Some. right.
    exists s'. split; [done | apply steps_refl].
Qed.

(** X29.  Whatever the sequence of connections, commands, closings and
    cleanups, every session the server holds has been greeted (it is never
    in [INIT]), is authenticated exactly when it is past [HELLO], and has
    a user when it is authenticated.  So no sender, recipient or message
    is ever accepted on a session that has not authenticated, and the user
    [onData] reads is there.  (The manager alone does not ensure this: its
    [handleMailFrom] accepts a sender in [HELLO].) *)
Theorem server_sessions_are_served (es : list ServerEvent) (sid : string)
    (s : SMTPSession) :
  sessions (serveAll clock getApiKey getInbox parseDate deliver es) !! sid
  = Some s ->
  state s <> INIT
  /\ (authenticated s = true <-> state s <> HELLO)
  /\ (authenticated s = true -> is_Some (user s)).
Proof.
  change (sessions (serveAll clock getApiKey getInbox parseDate deliver es)
            !! sid = Some s -> served s).
  unfold serveAll. revert sid s.
  induction es as [| e es IH] using rev_ind; intros sid s.
  - cbn. by rewrite lookup_empty.
  - rewrite fold_left_app. cbn [fold_left].
    intros [(n & conn & ->) | (s0 & H0 & Hs)]%serve_lookup.
    + apply connected_served.
    + eapply steps_served; [exact Hs |]. by apply (IH sid).
Qed.

(** X30.  A hook touches no session but its own: after a connection, a
    command or a closing on one connection, the session of every other
    connection is exactly as before; and no event sets the clock
    back. *)
Theorem event_touches_only_its_session (e : ServerEvent) (w : World)
    (sid sid' : string) :
  event_session e = Some sid ->
  sid' <> sid ->
  sessions (serve clock getApiKey getInbox parseDate deliver e w).2 !! sid'
  = sessions w !! sid'
  /\ (ticks w
      <= ticks (serve clock getApiKey getInbox parseDate deliver e w).2)%nat.
Proof.
  intros He Hne.
  destruct e as [sid0 conn | ev sid0 | sid0 |]; cbn [event_session] in He;
    simplify_eq; unfold serve, mbind, mret, Mgr_bind, Mgr_ret.
  - rewrite onConnect_present. cbn [snd updated sessions ticks].
    rewrite lookup_insert_ne by done. split; [done | lia].
  - destruct (sessions w !! sid) as [s0|] eqn:E.
    + destruct (handle_steps ev sid w s0 E) as (s1 & [k Hat] & Hs).
      destruct (handle _ _ _ _ _ _ _ _) as [r w']. cbn [snd] in Hat |- *.
      subst w'. cbn [updated sessions ticks].
      rewrite lookup_insert_ne by done. split; [done | lia].
    + pose proof (handle_absent ev sid w E) as Hw.
      destruct (handle _ _ _ _ _ _ _ _) as [r w']. cbn [snd] in Hw |- *.
      by subst w'.
  - unfold onClose, deleteSession, remove, mbind, mret, Mgr_bind, Mgr_ret,
      getSession.
    cbn [sessions ticks fst snd].
    destruct (sessions w !! sid) eqn:E; cbn [sessions ticks snd];
      [| done].
    rewrite lookup_delete_ne by done. done.
Qed.

End ServerInvariant.

Section ServerInvariantWitnesses.
Import SessionState SessionManager Server.

(** Two clients; the first one has authenticated and given a sender. *)
Lemma server_sessions_are_served_witness :
  exists s,
    sessions (demo_serveAll demo_events) !! "s1" = Some s
    /\ state s = MAIL_FROM
    /\ authenticated s = true
    /\ is_Some (user s).
Proof.
  eexists. split; [vm_compute; reflexivity |].
  split; [reflexivity |]. split; [reflexivity |].
  apply (server_sessions_are_served tick_clock Database.getApiKey
           Database.getInbox Validator.mockParseDate demo_deliver
           demo_events "s1" _ ltac:(vm_compute; reflexivity)).
  reflexivity.
Defined.

(** A recipient command of the first client leaves the session of the
    second as it is. *)
Lemma event_touches_only_its_session_witness :
  "s2" <> "s1"
  /\ sessions (serve tick_clock Database.getApiKey Database.getInbox
                 Validator.mockParseDate demo_deliver
                 (Commanded (EvRcptTo "to@example.com") "s1")
                 (demo_serveAll demo_events)).2 !! "s2"
     = sessions (demo_serveAll demo_events) !! "s2"
  /\ is_Some (sessions (demo_serveAll demo_events) !! "s2").
Proof.
  assert (Hne : "s2" <> "s1") by discriminate.
  split; [exact Hne |]. split.
  - apply (event_touches_only_its_session tick_clock Database.getApiKey
             Database.getInbox Validator.mockParseDate demo_deliver
             (Commanded (EvRcptTo "to@example.com") "s1")
             (demo_serveAll demo_events) "s1" "s2" eq_refl Hne).
  - vm_compute. eexists. reflexivity.
Defined.

End ServerInvariantWitnesses.
